(** * PixelTales frontend: state synchronisation and playback-mode engine

    A shallow embedding of the client-side core of PixelTales
    (frontend/src/services/socket.ts and frontend/src/game/managers/*.ts)
    together with the properties checked against it.

    Conventions of the embedding:
    - every method of a class becomes a function on the fields of that class
      (explicit state passing); a method that can raise a JavaScript
      exception returns the state reached together with a [Completion];
      fields written before the [throw] keep their new value, as in
      JavaScript;
    - JavaScript numbers that hold counters, indices and durations are
      integers ([Z] or [nat]); coordinates are numbers with fractions and
      are rationals ([Qc]);
    - [Record<string, T>] objects are association lists in the order in which
      [Object.entries] enumerates them; [Map<string, T>] is a [gmap];
      [Set<T>] is a duplicate-free list in insertion order;
    - Phaser and socket.io are external: a call into them is modelled by the
      fields of the game object or socket that the managers read back, and
      by the callbacks the library runs before the call returns. *)

From stdpp Require Import base option list gmap strings.
From Stdlib Require Import ZArith QArith Qcanon Lia.

Open Scope Z_scope.

(** ** Coordinates *)

(** A whole number of pixels. *)
Definition pixels (z : Z) : Qc := Q2Qc (inject_Z z).

(** [y % 1] for a number [y]: what is left of [y] after its integer part
    (rounded towards zero) is taken away; it has the sign of [y]. *)
Definition rem1 (q : Qc) : Qc :=
  (q - pixels (Z.quot (Qnum q) (Zpos (Qden q))))%Qc.

(** ** Completions: normal return or a thrown exception *)

Inductive JsError :=
| TypeError (what : string)
| ListenerError (what : string).

Inductive Completion :=
| Normal
| Throw (e : JsError).

#[global] Instance JsError_eq_dec : EqDecision JsError.
Proof. solve_decision. Defined.
#[global] Instance Completion_eq_dec : EqDecision Completion.
Proof. solve_decision. Defined.

Definition Eff (S : Type) : Type := S -> S * Completion.

(** [f >>> g]: statement sequencing; [g] does not run when [f] throws. *)
Definition andThen {S : Type} (f g : Eff S) : Eff S :=
  fun s => match f s with
           | (s', Normal) => g s'
           | (s', Throw e) => (s', Throw e)
           end.

Definition pureStep {S : Type} (f : S -> S) : Eff S := fun s => (f s, Normal).

Declare Scope eff_scope.
Delimit Scope eff_scope with eff.
Notation "f >>> g" := (andThen f g) (at level 62, right associativity) : eff_scope.

(** ** types/scene.ts *)

Module Scene.

Inductive CharacterAction :=
| thinking
| thinking_love
| thinking_anger
| thinking_sadness
| thinking_surprise
| thinking_fear
| speaking
| idle.

Inductive Direction := front | right | left | back.

Record Position := { x : Qc; y : Qc }.

Record Message := {
  character : string;
  content : option string;            (* string | null *)
  recipient : string;
  mood : string;
  mood_emoji : string;
  calculated_speaking_time : Z;       (* seconds *)
}.

Record CharacterState := {
  id : string;
  name : string;
  color : string;
  position : Position;
  direction : Direction;
  current_mood : string;
  action : CharacterAction;
}.

Record SceneState := {
  scene_id : Z;
  characters : list (string * CharacterState);   (* Record<string, CharacterState> *)
  messages : list Message;
}.

#[global] Instance CharacterAction_eq_dec : EqDecision CharacterAction.
Proof. solve_decision. Defined.
#[global] Instance Direction_eq_dec : EqDecision Direction.
Proof. solve_decision. Defined.

(** [action.startsWith('thinking')] *)
Definition startsWithThinking (a : CharacterAction) : bool :=
  match a with
  | speaking | idle => false
  | _ => true
  end.

(** The string an action is at run time (texture and animation key). *)
Definition actionKey (a : CharacterAction) : string :=
  match a with
  | thinking => "thinking"
  | thinking_love => "thinking:love"
  | thinking_anger => "thinking:anger"
  | thinking_sadness => "thinking:sadness"
  | thinking_surprise => "thinking:surprise"
  | thinking_fear => "thinking:fear"
  | speaking => "speaking"
  | idle => "idle"
  end.

Definition directionKey (d : Direction) : string :=
  match d with
  | front => "front" | right => "right" | left => "left" | back => "back"
  end.

(** A record has each key once. *)
Definition wf (s : SceneState) : Prop := NoDup (characters s).*1.

(** [state.messages.filter((m) => m.character === key).slice(-1)[0]] *)
Definition latestMessageOf (key : string) (s : SceneState) : option Message :=
  last (filter (fun m => character m = key) (messages s)).

(** JavaScript truthiness of [message.content]. *)
Definition truthy (c : option string) : bool :=
  match c with
  | Some s => negb (String.eqb s "")
  | None => false
  end.

End Scene.

(** ** game/managers/CharacterManager.ts *)

Module CharacterManager.

Record Sprite := {
  x : Qc;
  y : Qc;
  texture : string;        (* key of the texture shown *)
  anim : option string;    (* key of the animation being played *)
  tint : Z;
}.

(** The bounce tween of a sprite: while it runs, the tween manager of
    Phaser moves [y] of the sprite between [fromY] and [toY] and back;
    [stop()] leaves sprite and tween object in place. *)
Record Tween := { fromY : Qc; toY : Qc; running : bool }.

Record Character := {
  id : string;
  state : Scene.CharacterState;
  sprite : Sprite;
  activeTween : option Tween;
  thinkingSprite : option Sprite;
  color : option string;
}.

Definition ACTIVE_TINT : Z := 0xffffff.
Definition INACTIVE_TINT : Z := 0xaaaaaa.
Definition BOUNCE_HEIGHT : Qc := pixels 8.
Definition THINKING_OFFSET_Y : Qc := pixels (-60).

(** The texture manager and the animation manager of Phaser, as far as the
    CharacterManager uses them: the keys that are known. *)
Record Assets := {
  textures : gset string;
  anims : gset string;
}.

Record t := {
  characters : gmap string Character;
  animationsCreated : bool;
  assets : Assets;
}.

Definition initial : t :=
  {| characters := ∅; animationsCreated := false;
     assets := {| textures := ∅; anims := ∅ |} |}.

(** The three spritesheets of [preload]. *)
Definition preload (cm : t) : t :=
  {| characters := characters cm; animationsCreated := animationsCreated cm;
     assets := {| textures := textures (assets cm) ∪ list_to_set ["bob"; "alice"; "thinking"];
                  anims := anims (assets cm) |} |}.

Definition idleAnim (key : string) (d : Scene.Direction) : string :=
  key +:+ "_idle_" +:+ Scene.directionKey d.

(** The animations of [createAnimations]: idle in four directions for 'bob'
    and 'alice', and 'thinking'. *)
Definition createdAnimations : list string :=
  (c ← ["bob"; "alice"];
   d ← [Scene.right; Scene.back; Scene.left; Scene.front];
   [idleAnim c d]) ++ ["thinking"].

Definition createAnimations (cm : t) : t :=
  {| characters := characters cm; animationsCreated := true;
     assets := {| textures := textures (assets cm);
                  anims := anims (assets cm) ∪ list_to_set createdAnimations |} |}.

Definition create (cm : t) : t :=
  if animationsCreated cm then cm else createAnimations cm.

(** The manager when the first snapshot can arrive: MainScene has run
    [preload] and [create]. *)
Definition ready : t := create (preload initial).

Definition reset (cm : t) : t :=
  {| characters := ∅; animationsCreated := false; assets := assets cm |}.

Definition getCharacter (key : string) (cm : t) : option Character :=
  characters cm !! key.

Definition stop (tw : Tween) : Tween :=
  {| fromY := fromY tw; toY := toY tw; running := false |}.

Definition clearAnimations (c : Character) : Character :=
  {| id := id c; state := state c; sprite := sprite c;
     activeTween := None; thinkingSprite := None; color := color c |}.

Definition clearCharacterAnimations (characterId : string) (cm : t) : t :=
  {| characters := alter clearAnimations characterId (characters cm);
     animationsCreated := animationsCreated cm; assets := assets cm |}.

Definition clearCharactersAnimations (cm : t) : t :=
  map_fold (fun _ c acc => clearCharacterAnimations (id c) acc) cm (characters cm).

Definition handleHistoryModeChange (isInHistoryMode : bool) (cm : t) : t :=
  if isInHistoryMode then clearCharactersAnimations cm else cm.

Definition setTint (v : Z) (s : Sprite) : Sprite :=
  {| x := x s; y := y s; texture := texture s; anim := anim s; tint := v |}.

Definition setPosition (px py : Qc) (s : Sprite) : Sprite :=
  {| x := px; y := py; texture := texture s; anim := anim s; tint := tint s |}.

Definition setY (py : Qc) (s : Sprite) : Sprite :=
  {| x := x s; y := py; texture := texture s; anim := anim s; tint := tint s |}.

(** [sprite.play(key, true)]: Phaser starts the animation when one of that
    key exists; with no such animation it warns and the sprite keeps the
    animation it had, if any. *)
Definition play (a : Assets) (key : string) (s : Sprite) : Sprite :=
  if bool_decide (key ∈ anims a)
  then {| x := x s; y := y s; texture := texture s; anim := Some key; tint := tint s |}
  else s.

(** [scene.add.sprite(x, y, key)]: a key that names no texture gives the
    sprite Phaser's placeholder texture. *)
Definition newSprite (a : Assets) (px py : Qc) (key : string) : Sprite :=
  {| x := px; y := py;
     texture := if bool_decide (key ∈ textures a) then key else "__MISSING";
     anim := None; tint := 0xffffff |}.

Definition createBounceTween (c : Character) : Tween :=
  {| fromY := y (sprite c);
     toY := (y (sprite c) - BOUNCE_HEIGHT)%Qc;
     running := true |}.

Definition createThinkingSprite (a : Assets) (c : Character) (action : Scene.CharacterAction)
  : Sprite :=
  play a (Scene.actionKey action)
    (newSprite a (x (sprite c)) (y (sprite c) + THINKING_OFFSET_Y)%Qc
       (Scene.actionKey action)).

Definition updateCharacterState (a : Assets) (character : Character)
    (st : Scene.CharacterState) : Character :=
  let previousState := state character in
  let action := Scene.action st in
  let isChange := negb (bool_decide (action = Scene.action previousState)) in
  (* tint and bounce *)
  let '(tw, sp) :=
    if bool_decide (action = Scene.idle) then
      let sp := setTint INACTIVE_TINT (sprite character) in
      (None, setY (y sp - rem1 (y sp))%Qc sp)
    else
      let stopped := stop <$> activeTween character in
      let sp := setTint ACTIVE_TINT (sprite character) in
      if isChange
      then (Some (createBounceTween character), sp)
      else (stopped, sp) in
  (* thinking animation *)
  let th :=
    if Scene.startsWithThinking action then
      match thinkingSprite character with
      | None => Some (createThinkingSprite a character action)
      | Some old => Some old
      end
    else None in
  {| id := id character; state := st; sprite := sp;
     activeTween := tw; thinkingSprite := th; color := color character |}.

(** Body of the [forEach] in [updateCharacters]: the character object after
    the callback, from what [characters.get(id)] returned. *)
Definition updatedCharacter (a : Assets) (key : string) (charData : Scene.CharacterState)
    (existing : option Character) : Character :=
  let pos := Scene.position charData in
  let character :=
    match existing with
    | None =>
        {| id := key; state := charData;
           sprite := newSprite a (Scene.x pos) (Scene.y pos) key;
           activeTween := None; thinkingSprite := None;
           color := Some (Scene.color charData) |}
    | Some c =>
        {| id := id c; state := state c; sprite := sprite c;
           activeTween := activeTween c; thinkingSprite := thinkingSprite c;
           color := Some (Scene.color charData) |}
    end in
  let character :=
    {| id := id character; state := state character;
       sprite := play a (idleAnim key (Scene.direction charData))
                   (setPosition (Scene.x pos) (Scene.y pos) (sprite character));
       activeTween := activeTween character;
       thinkingSprite := thinkingSprite character;
       color := color character |} in
  updateCharacterState a character charData.

Definition updateCharacter (cm : t) (entry : string * Scene.CharacterState) : t :=
  {| characters :=
       <[entry.1 := updatedCharacter (assets cm) entry.1 entry.2
                      (characters cm !! entry.1)]>
         (characters cm);
     animationsCreated := animationsCreated cm; assets := assets cm |}.

Definition updateCharacters (s : Scene.SceneState) (cm : t) : t :=
  foldl updateCharacter cm (Scene.characters s).

(** *** Time passing *)

(** What a frame does to a character: a running bounce has its sprite
    [d] above the start of the bounce, [0 <= d <= BOUNCE_HEIGHT]. *)
Definition tweenUpdate (d : Qc) (c : Character) : Character :=
  match activeTween c with
  | Some tw =>
      if running tw then
        {| id := id c; state := state c;
           sprite := setY (fromY tw - d)%Qc (sprite c);
           activeTween := activeTween c; thinkingSprite := thinkingSprite c;
           color := color c |}
      else c
  | None => c
  end.

(** A frame of the tween manager; [d] says how far each bounce is. *)
Definition tweensUpdate (d : string -> Qc) (cm : t) : t :=
  {| characters := (fun c => tweenUpdate (d (id c)) c) <$> characters cm;
     animationsCreated := animationsCreated cm; assets := assets cm |}.

End CharacterManager.

(** ** game/managers/SpeechBubbleManager.ts *)

Module SpeechBubbleManager.

(** What a bubble shows: its texts, the colour of the name, the duration of
    the progress bar when there is one, and the sprite position it is
    anchored to. *)
Record SpeechBubble := {
  text : string;
  nameText : string;
  nameColor : string;
  moodText : string;
  progressBar : option Z;
  anchorX : Qc;
  anchorY : Qc;
}.

Record t := { activeBubbles : gmap string SpeechBubble }.

Definition initial : t := {| activeBubbles := ∅ |}.

Definition clearBubbles (sbm : t) : t := {| activeBubbles := ∅ |}.

Definition reset (sbm : t) : t := clearBubbles sbm.

(** [character?.color || '#000000'] *)
Definition characterColor (c : option CharacterManager.Character) : string :=
  match c with
  | Some ch =>
      match CharacterManager.color ch with
      | Some col => if String.eqb col "" then "#000000" else col
      | None => "#000000"
      end
  | None => "#000000"
  end.

(** [if (speakingTime) { progressBar = speakingTime > 0 ? ... : undefined }] *)
Definition progressFor (speakingTime : option Z) : option Z :=
  match speakingTime with
  | Some d => if (d =? 0) then None else if (0 <? d) then Some d else None
  | None => None
  end.

Definition createSpeechBubble (cm : CharacterManager.t)
    (speaker : CharacterManager.Sprite) (content characterId characterName : string)
    (speakingTime : option Z) (emoji : string) (sbm : t) : t :=
  let character := CharacterManager.getCharacter characterId cm in
  {| activeBubbles :=
       <[characterId :=
           {| text := content;
              nameText := characterName;
              nameColor := characterColor character;
              moodText := emoji;
              progressBar := progressFor speakingTime;
              anchorX := CharacterManager.x speaker;
              anchorY := CharacterManager.y speaker |}]> (activeBubbles sbm) |}.

(** Body of the [for ... of Object.entries(state.characters)] loop. *)
Definition bubbleFor (cm : CharacterManager.t) (s : Scene.SceneState)
    (entry : string * Scene.CharacterState) : Eff t :=
  fun sbm =>
    let '(key, value) := entry in
    if bool_decide (Scene.action value = Scene.speaking) then
      let character := CharacterManager.getCharacter key cm in
      let message := Scene.latestMessageOf key s in
      match character with
      | None => (sbm, Normal)                      (* [character &&] short-circuits *)
      | Some ch =>
          match message with
          | None => (sbm, Throw (TypeError "message is undefined"))
          | Some m =>
              match Scene.content m with
              | Some c =>
                  if Scene.truthy (Some c) then
                    (createSpeechBubble cm (CharacterManager.sprite ch) c key
                       (Scene.name value)
                       (Some (Scene.calculated_speaking_time m))
                       (Scene.mood_emoji m) sbm, Normal)
                  else (sbm, Normal)
              | None => (sbm, Normal)
              end
          end
      end
    else (sbm, Normal).

Fixpoint forEntries (cm : CharacterManager.t) (s : Scene.SceneState)
    (entries : list (string * Scene.CharacterState)) : Eff t :=
  match entries with
  | [] => fun sbm => (sbm, Normal)
  | e :: rest => (bubbleFor cm s e >>> forEntries cm s rest)%eff
  end.

Definition updateBubbles (cm : CharacterManager.t) (s : Scene.SceneState) : Eff t :=
  (pureStep clearBubbles >>> forEntries cm s (Scene.characters s))%eff.

(** The argument is [undefined] when the caller indexes past the log. *)
Definition showHistoricalBubble (cm : CharacterManager.t)
    (message : option Scene.Message) : Eff t :=
  fun sbm =>
    let sbm := clearBubbles sbm in
    match message with
    | None => (sbm, Throw (TypeError "message is undefined"))
    | Some m =>
        match CharacterManager.getCharacter (Scene.character m) cm with
        | Some ch =>
            (createSpeechBubble cm (CharacterManager.sprite ch)
               (default "" (Scene.content m)) (Scene.character m)
               (Scene.name (CharacterManager.state ch)) None
               (Scene.mood_emoji m) sbm, Normal)
        | None => (sbm, Normal)
        end
    end.

End SpeechBubbleManager.

(** ** game/managers/HistoryManager.ts *)

Module HistoryManager.

Record t := {
  historyMode : bool;
  currentHistoryIndex : Z;
  conversationHistory : list Scene.Message;
}.

Definition initial : t :=
  {| historyMode := false; currentHistoryIndex := -1; conversationHistory := [] |}.

(** The two sprites of [controls.navigationContainer.list]. *)
Inductive Button := prev | next.

(** What a handler sends out: events on [scene.game.events], the warning
    of the logger and the tween that flashes a navigation button. *)
Inductive Signal :=
| EmitHistoryModeChange (isInHistoryMode : bool)
| EmitHistoryNavigate (index : Z)
| WarnInvalidIndex (newIndex : Z)
| FlashButton (position : nat) (b : Button).

#[global] Instance Button_eq_dec : EqDecision Button.
Proof. solve_decision. Defined.
#[global] Instance Signal_eq_dec : EqDecision Signal.
Proof. solve_decision. Defined.

Definition lengthZ (h : t) : Z := Z.of_nat (length (conversationHistory h)).

(** The listener of 'sceneStateUpdate'. *)
Definition onSceneStateUpdate (s : Scene.SceneState) (h : t) : t :=
  if historyMode h then h
  else
    {| historyMode := historyMode h;
       currentHistoryIndex := Z.of_nat (length (Scene.messages s)) - 1;
       conversationHistory := Scene.messages s |}.

Definition handleEnterHistoryMode (h : t) : t * list Signal :=
  ({| historyMode := true;
      currentHistoryIndex := lengthZ h - 1;
      conversationHistory := conversationHistory h |},
   [EmitHistoryModeChange true]).

Definition handleExitHistoryMode (h : t) : t * list Signal :=
  ({| historyMode := false;
      currentHistoryIndex := lengthZ h - 1;
      conversationHistory := conversationHistory h |},
   [EmitHistoryModeChange false]).

(** [controls] is [uiControlsManager.getControls()?.navigationContainer.list],
    [None] when there are no controls. *)
Definition navigateHistory (direction : Z) (controls : option (list Button))
    (h : t) : t * list Signal :=
  let newIndex := currentHistoryIndex h + direction in
  if (0 <=? newIndex) && (newIndex <? lengthZ h) then
    ({| historyMode := historyMode h;
        currentHistoryIndex := newIndex;
        conversationHistory := conversationHistory h |},
     [EmitHistoryNavigate newIndex])
  else
    let position := if (direction =? -1) then 0%nat else 1%nat in
    (h,
     WarnInvalidIndex newIndex ::
     match controls with
     | Some buttons =>
         match buttons !! position with
         | Some b => [FlashButton position b]
         | None => []
         end
     | None => []
     end).

Definition handleHistoryNavigateTo (direction : Z) (controls : option (list Button))
    (h : t) : t * list Signal :=
  navigateHistory direction controls h.

Definition getCurrentHistoryIndex (h : t) : Z := currentHistoryIndex h.

End HistoryManager.

(** ** The objects of the two scenes (MainScene.ts, UIScene.ts) *)

Record World := {
  currentState : option Scene.SceneState;         (* StateManager *)
  isInHistoryMode : bool;                         (* StateManager *)
  characterManager : CharacterManager.t;
  speechBubbleManager : SpeechBubbleManager.t;
  historyManager : HistoryManager.t;
}.

Definition withBubbles (w : World) (r : SpeechBubbleManager.t * Completion)
  : World * Completion :=
  ({| currentState := currentState w; isInHistoryMode := isInHistoryMode w;
      characterManager := characterManager w;
      speechBubbleManager := r.1;
      historyManager := historyManager w |}, r.2).

Definition withCharacters (f : CharacterManager.t -> CharacterManager.t) (w : World)
  : World :=
  {| currentState := currentState w; isInHistoryMode := isInHistoryMode w;
     characterManager := f (characterManager w);
     speechBubbleManager := speechBubbleManager w;
     historyManager := historyManager w |}.

Definition withHistory (f : HistoryManager.t -> HistoryManager.t) (w : World) : World :=
  {| currentState := currentState w; isInHistoryMode := isInHistoryMode w;
     characterManager := characterManager w;
     speechBubbleManager := speechBubbleManager w;
     historyManager := f (historyManager w) |}.

(** ** game/managers/StateManager.ts *)

Module StateManager.

(** The managers after MainScene.init, MainScene.preload and
    MainScene.create. *)
Definition initial : World :=
  {| currentState := None; isInHistoryMode := false;
     characterManager := CharacterManager.ready;
     speechBubbleManager := SpeechBubbleManager.initial;
     historyManager := HistoryManager.initial |}.

Definition setCurrentState (s : Scene.SceneState) (w : World) : World :=
  {| currentState := Some s; isInHistoryMode := isInHistoryMode w;
     characterManager := characterManager w;
     speechBubbleManager := speechBubbleManager w;
     historyManager := historyManager w |}.

Definition setHistoryMode (b : bool) (w : World) : World :=
  {| currentState := currentState w; isInHistoryMode := b;
     characterManager := characterManager w;
     speechBubbleManager := speechBubbleManager w;
     historyManager := historyManager w |}.

Definition reset (w : World) : World :=
  {| currentState := None; isInHistoryMode := false;
     characterManager := characterManager w;
     speechBubbleManager := speechBubbleManager w;
     historyManager := historyManager w |}.

Definition updateCharacters (s : Scene.SceneState) : Eff World :=
  pureStep (withCharacters (CharacterManager.updateCharacters s)).

Definition updateBubbles (s : Scene.SceneState) : Eff World :=
  fun w => withBubbles w
             (SpeechBubbleManager.updateBubbles (characterManager w) s
                (speechBubbleManager w)).

Definition showHistoricalBubble (m : option Scene.Message) : Eff World :=
  fun w => withBubbles w
             (SpeechBubbleManager.showHistoricalBubble (characterManager w) m
                (speechBubbleManager w)).

(** [scene.game.events.emit('sceneStateUpdate', newState)]: the listener is
    the one of the HistoryManager. *)
Definition emitSceneStateUpdate (s : Scene.SceneState) : Eff World :=
  pureStep (withHistory (HistoryManager.onSceneStateUpdate s)).

Definition updateState (newState : Scene.SceneState) : Eff World :=
  (pureStep (setCurrentState newState) >>>
   fun w =>
     if isInHistoryMode w then (w, Normal)
     else (updateCharacters newState >>>
           updateBubbles newState >>>
           emitSceneStateUpdate newState)%eff w)%eff.

Definition historyModeChange (b : bool) : Eff World :=
  (pureStep (setHistoryMode b) >>>
   fun w =>
     match currentState w with
     | Some s =>
         if b then showHistoricalBubble (last (Scene.messages s)) w
         else (updateCharacters s >>> updateBubbles s)%eff w
     | None => (w, Normal)
     end)%eff.

(** [messages[index]] for a JavaScript number that holds an integer. *)
Definition at_index {A : Type} (l : list A) (index : Z) : option A :=
  if (0 <=? index) then l !! Z.to_nat index else None.

Definition navigateHistory (index : Z) : Eff World :=
  fun w =>
    match currentState w with
    | Some s =>
        if isInHistoryMode w then
          match at_index (Scene.messages s) index with
          | Some m => showHistoricalBubble (Some m) w
          | None => (w, Normal)
          end
        else (w, Normal)
    | None => (w, Normal)
    end.

Definition isHistoryMode (w : World) : bool := isInHistoryMode w.

End StateManager.

(** ** The events of [scene.game.events] (EventManager.ts and the listeners
    the managers register in MainScene.create and UIScene.create) *)

Module GameEvents.

(** 'historyModeChange': CharacterManager.handleHistoryModeChange, then
    EventManager.handleHistoryModeChange, in the order of registration. *)
Definition historyModeChange (b : bool) : Eff World :=
  (pureStep (withCharacters (CharacterManager.handleHistoryModeChange b)) >>>
   StateManager.historyModeChange b)%eff.

(** 'historyNavigate': EventManager.handleHistoryNavigate. *)
Definition historyNavigate (index : Z) : Eff World :=
  StateManager.navigateHistory index.

Definition emit (sig : HistoryManager.Signal) : Eff World :=
  match sig with
  | HistoryManager.EmitHistoryModeChange b => historyModeChange b
  | HistoryManager.EmitHistoryNavigate i => historyNavigate i
  | HistoryManager.WarnInvalidIndex _ => fun w => (w, Normal)
  | HistoryManager.FlashButton _ _ => fun w => (w, Normal)
  end.

Fixpoint emitAll (sigs : list HistoryManager.Signal) : Eff World :=
  match sigs with
  | [] => fun w => (w, Normal)
  | s :: rest => (emit s >>> emitAll rest)%eff
  end.

Definition runHistory (h : HistoryManager.t -> HistoryManager.t * list HistoryManager.Signal)
  : Eff World :=
  fun w =>
    let r := h (historyManager w) in
    emitAll r.2 (withHistory (fun _ => r.1) w).

(** 'enterHistoryMode' *)
Definition enterHistoryMode : Eff World :=
  runHistory HistoryManager.handleEnterHistoryMode.

(** 'exitHistoryMode' *)
Definition exitHistoryMode : Eff World :=
  runHistory HistoryManager.handleExitHistoryMode.

(** 'historyNavigateTo' *)
Definition historyNavigateTo (direction : Z)
    (controls : option (list HistoryManager.Button)) : Eff World :=
  runHistory (HistoryManager.handleHistoryNavigateTo direction controls).

(** EventManager.handleSceneStateUpdate, the listener of 'scene_state'. *)
Definition handleSceneStateUpdate (s : Scene.SceneState) : Eff World :=
  StateManager.updateState s.

End GameEvents.

(** ** services/socket.ts *)

Module SocketService.

(** [keyof EventData] *)
Inductive EventKind := scene_state | connect_ev | disconnect_ev | connect_error.

#[global] Instance EventKind_eq_dec : EqDecision EventKind.
Proof. solve_decision. Defined.

(** The data handed to a listener: [SceneState], [void] or [Error]. *)
Inductive Payload :=
| SceneData (s : Scene.SceneState)
| NoData
| ErrorData (message : string).

(** What a socket.io socket emits. *)
Inductive SocketEvent :=
| OnConnect
| OnConnectError (message : string)
| OnDisconnect (reason : string)
| OnError (message : string)
| OnSceneState (s : Scene.SceneState).

(** A socket made by [io(url, options)]: [connected] is the flag socket.io
    maintains, [closed] is set by [socket.disconnect()], after which the
    socket neither reconnects nor reports anything from the network;
    [connectCalls] counts the calls of [socket.connect()]. *)
Record Socket := { connected : bool; closed : bool; connectCalls : nat }.

Definition MAX_RECONNECT_ATTEMPTS : nat := 5.
Definition RECONNECT_DELAY : Z := 2000.

Section WithApplication.

(** The state of the code that registers listeners. *)
Context {A : Type}.

(** A callback; [lid] is the identity of the function object. *)
Record Listener := { lid : nat; call : Payload -> A -> A * Completion }.

Record t := {
  socket : option nat;                      (* index into [sockets], or null *)
  listeners : EventKind -> list Listener;   (* Map<keyof EventData, Set<...>> *)
  reconnectAttempts : nat;
  isConnecting : bool;
  sockets : list Socket;                    (* every socket made by [io] so far *)
  app : A;
  delivered : list (nat * EventKind * Payload);   (* callbacks invoked so far *)
}.

Definition initial (a : A) : t :=
  {| socket := None; listeners := fun _ => []; reconnectAttempts := 0;
     isConnecting := false; sockets := []; app := a; delivered := [] |}.

Definition setSocket (o : option nat) (s : t) : t :=
  {| socket := o; listeners := listeners s;
     reconnectAttempts := reconnectAttempts s; isConnecting := isConnecting s;
     sockets := sockets s; app := app s; delivered := delivered s |}.

Definition setListeners (f : EventKind -> list Listener) (s : t) : t :=
  {| socket := socket s; listeners := f;
     reconnectAttempts := reconnectAttempts s; isConnecting := isConnecting s;
     sockets := sockets s; app := app s; delivered := delivered s |}.

Definition setReconnectAttempts (n : nat) (s : t) : t :=
  {| socket := socket s; listeners := listeners s;
     reconnectAttempts := n; isConnecting := isConnecting s;
     sockets := sockets s; app := app s; delivered := delivered s |}.

Definition setIsConnecting (b : bool) (s : t) : t :=
  {| socket := socket s; listeners := listeners s;
     reconnectAttempts := reconnectAttempts s; isConnecting := b;
     sockets := sockets s; app := app s; delivered := delivered s |}.

Definition setSockets (l : list Socket) (s : t) : t :=
  {| socket := socket s; listeners := listeners s;
     reconnectAttempts := reconnectAttempts s; isConnecting := isConnecting s;
     sockets := l; app := app s; delivered := delivered s |}.

(** One callback invocation. *)
Definition invoke (event : EventKind) (data : Payload) (l : Listener) : Eff t :=
  fun s =>
    let r := call l data (app s) in
    ({| socket := socket s; listeners := listeners s;
        reconnectAttempts := reconnectAttempts s; isConnecting := isConnecting s;
        sockets := sockets s; app := r.1;
        delivered := delivered s ++ [(lid l, event, data)] |}, r.2).

(** [Set.prototype.forEach((callback) => callback(data))] *)
Fixpoint forEach (event : EventKind) (data : Payload) (ls : list Listener) : Eff t :=
  match ls with
  | [] => fun s => (s, Normal)
  | l :: rest => (invoke event data l >>> forEach event data rest)%eff
  end.

Definition notifyListeners (event : EventKind) (data : Payload) : Eff t :=
  fun s => forEach event data (listeners s event) s.

(** [this.socket?.connected] *)
Definition socketConnected (s : t) : bool :=
  match socket s with
  | Some i => match sockets s !! i with
              | Some so => connected so
              | None => false
              end
  | None => false
  end.

Definition connect : t -> t :=
  fun s =>
    if socketConnected s || isConnecting s then s
    else
      let s := setIsConnecting true s in
      let i := length (sockets s) in
      setSocket (Some i)
        (setSockets
           (sockets s ++ [{| connected := false; closed := false; connectCalls := 0 |}])
           s).

(** What [socket.disconnect()] of socket.io does to the socket. *)
Definition close (so : Socket) : Socket :=
  {| connected := false; closed := true; connectCalls := connectCalls so |}.

(** [socket.connect()] of socket.io *)
Definition reopen (so : Socket) : Socket :=
  {| connected := connected so; closed := closed so;
     connectCalls := S (connectCalls so) |}.

(** The handler of 'connect'. *)
Definition onConnect : Eff t :=
  (pureStep (setReconnectAttempts 0) >>>
   pureStep (setIsConnecting false) >>>
   notifyListeners connect_ev NoData)%eff.

(** The handler of 'disconnect'. *)
Definition onDisconnect (reason : string) : Eff t :=
  (pureStep (setIsConnecting false) >>>
   notifyListeners disconnect_ev NoData >>>
   pureStep (fun s =>
               if String.eqb reason "io server disconnect" then
                 match socket s with
                 | Some i => setSockets (alter reopen i (sockets s)) s
                 | None => s
                 end
               else s))%eff.

(** [this.socket.disconnect()] on socket [i].  socket.io closes the socket
    and, when the socket was connected, emits 'disconnect' with the reason
    'io client disconnect' before the call returns: the handler registered
    in [connect] runs inside the call, and what a listener throws comes
    out of it. *)
Definition socketDisconnect (i : nat) : Eff t :=
  fun s =>
    let wasConnected :=
      match sockets s !! i with
      | Some so => connected so
      | None => false
      end in
    let s := setSockets (alter close i (sockets s)) s in
    if wasConnected then onDisconnect "io client disconnect" s else (s, Normal).

Definition disconnect : Eff t :=
  fun s =>
    match socket s with
    | Some i =>
        (socketDisconnect i >>>
         pureStep (setSocket None) >>>
         pureStep (setIsConnecting false))%eff s
    | None => (s, Normal)
    end.

(** The handler of 'connect_error'. *)
Definition onConnectError (message : string) : Eff t :=
  (pureStep (fun s => setReconnectAttempts (S (reconnectAttempts s)) s) >>>
   notifyListeners connect_error (ErrorData message) >>>
   fun s =>
     if bool_decide (MAX_RECONNECT_ATTEMPTS <= reconnectAttempts s)%nat
     then disconnect s
     else (s, Normal))%eff.

(** The handler of 'error'. *)
Definition onError : Eff t := pureStep (setIsConnecting false).

(** The handler of 'scene_state'. *)
Definition onSceneState (state : Scene.SceneState) : Eff t :=
  notifyListeners scene_state (SceneData state).

(** socket.io flips [connected] before it calls the handlers. *)
Definition markConnected (b : bool) (so : Socket) : Socket :=
  {| connected := b; closed := closed so; connectCalls := connectCalls so |}.

Definition handler (i : nat) (ev : SocketEvent) : Eff t :=
  match ev with
  | OnConnect =>
      (pureStep (fun s => setSockets (alter (markConnected true) i (sockets s)) s)
       >>> onConnect)%eff
  | OnConnectError m => onConnectError m
  | OnDisconnect r =>
      (pureStep (fun s => setSockets (alter (markConnected false) i (sockets s)) s)
       >>> onDisconnect r)%eff
  | OnError m => onError
  | OnSceneState st => onSceneState st
  end.

(** Socket [i] reports [ev] from the network: possible only for a socket
    that exists and was not closed; the handlers registered in [connect]
    then run. *)
Definition receive (i : nat) (ev : SocketEvent) (s : t) : option (t * Completion) :=
  match sockets s !! i with
  | Some so => if closed so then None else Some (handler i ev s)
  | None => None
  end.

(** A run of events of socket [i]; an exception of a handler surfaces in
    socket.io and the service keeps the state reached. *)
Fixpoint receiveAll (i : nat) (evs : list SocketEvent) (s : t) : option t :=
  match evs with
  | [] => Some s
  | ev :: rest =>
      match receive i ev s with
      | Some r => receiveAll i rest r.1
      | None => None
      end
  end.

Definition hasListener (l : Listener) (ls : list Listener) : bool :=
  bool_decide (lid l ∈ lid <$> ls).

(** [Set.prototype.add] *)
Definition setAdd (l : Listener) (ls : list Listener) : list Listener :=
  if hasListener l ls then ls else ls ++ [l].

(** [Set.prototype.delete] *)
Definition setDelete (l : Listener) (ls : list Listener) : list Listener :=
  filter (fun l' => lid l' ≠ lid l) ls.

Definition addListener (event : EventKind) (callback : Listener) : t -> t :=
  fun s =>
    setListeners
      (fun e => if bool_decide (e = event)
                then setAdd callback (listeners s e)
                else listeners s e) s.

Definition removeListener (event : EventKind) (callback : Listener) : t -> t :=
  fun s =>
    setListeners
      (fun e => if bool_decide (e = event)
                then setDelete callback (listeners s e)
                else listeners s e) s.

(** The invocations of callback [l] recorded in a log. *)
Definition deliveriesTo (l : Listener) (log : list (nat * EventKind * Payload))
  : list (EventKind * Payload) :=
  omap (fun d => if bool_decide (d.1.1 = lid l) then Some (d.1.2, d.2) else None) log.

End WithApplication.

Arguments Listener : clear implicits.
Arguments t : clear implicits.

End SocketService.

(** ** game/managers/EventManager.ts: the listener of 'scene_state' *)

Module EventManager.

Definition handleSceneStateUpdate : SocketService.Listener World :=
  {| SocketService.lid := 0;
     SocketService.call := fun data w =>
       match data with
       | SocketService.SceneData state => GameEvents.handleSceneStateUpdate state w
       | _ => (w, Normal)
       end |}.

(** [setupEventListeners], the part that subscribes to the socket. *)
Definition setupEventListeners (s : SocketService.t World) : SocketService.t World :=
  SocketService.addListener SocketService.scene_state handleSceneStateUpdate s.

End EventManager.

(** ** game/managers/ConnectionManager.ts: the status indicator *)

Module ConnectionManager.

Record t := { isConnected : bool; reconnectAttempt : nat }.

Definition initial : t := {| isConnected := false; reconnectAttempt := 0 |}.

Definition onConnect : SocketService.Listener t :=
  {| SocketService.lid := 1;
     SocketService.call := fun _ c =>
       ({| isConnected := true; reconnectAttempt := 0 |}, Normal) |}.

Definition onDisconnect : SocketService.Listener t :=
  {| SocketService.lid := 2;
     SocketService.call := fun _ c =>
       ({| isConnected := false; reconnectAttempt := reconnectAttempt c |}, Normal) |}.

Definition onConnectError : SocketService.Listener t :=
  {| SocketService.lid := 3;
     SocketService.call := fun _ c =>
       ({| isConnected := isConnected c; reconnectAttempt := S (reconnectAttempt c) |},
        Normal) |}.

Definition setupEventListeners (s : SocketService.t t) : SocketService.t t :=
  SocketService.addListener SocketService.connect_error onConnectError
    (SocketService.addListener SocketService.disconnect_ev onDisconnect
       (SocketService.addListener SocketService.connect_ev onConnect s)).

End ConnectionManager.

(** ** Sample data (the scenario of two characters, bob and alice) *)

Module Samples.

Definition character (key label : string) (px : Z) (a : Scene.CharacterAction)
  : Scene.CharacterState :=
  {| Scene.id := key; Scene.name := label; Scene.color := "#3366ff";
     Scene.position := {| Scene.x := pixels px; Scene.y := pixels 300 |};
     Scene.direction := Scene.front; Scene.current_mood := "curious";
     Scene.action := a |}.

Definition says (key : string) (text : option string) (seconds : Z) : Scene.Message :=
  {| Scene.character := key; Scene.content := text; Scene.recipient := "alice";
     Scene.mood := "happy"; Scene.mood_emoji := ":)";
     Scene.calculated_speaking_time := seconds |}.

Definition scene (cs : list (string * Scene.CharacterState)) (ms : list Scene.Message)
  : Scene.SceneState :=
  {| Scene.scene_id := 1; Scene.characters := cs; Scene.messages := ms |}.

(** Snapshot A: bob is idle, nothing was said. *)
Definition snapshotA : Scene.SceneState :=
  scene [("bob", character "bob" "Bob" 200 Scene.idle);
         ("alice", character "alice" "Alice" 500 Scene.idle)] [].

(** Snapshot B: bob speaks and his message was appended. *)
Definition snapshotB : Scene.SceneState :=
  scene [("bob", character "bob" "Bob" 200 Scene.speaking);
         ("alice", character "alice" "Alice" 500 Scene.idle)]
        [says "bob" (Some "hello") 4].

(** bob and alice are both marked as speaking; the log has a message of
    alice and none of bob. *)
Definition speakingWithoutMessage : Scene.SceneState :=
  scene [("bob", character "bob" "Bob" 200 Scene.speaking);
         ("alice", character "alice" "Alice" 500 Scene.speaking)]
        [says "alice" (Some "hi bob") 3].

(** bob speaks and his turn is pending: the content is still null. *)
Definition pendingTurn : Scene.SceneState :=
  scene [("bob", character "bob" "Bob" 200 Scene.speaking);
         ("alice", character "alice" "Alice" 500 Scene.idle)]
        [says "alice" (Some "hi bob") 3; says "bob" None 0].

(** A log of three messages. *)
Definition threeMessages : list Scene.Message :=
  [says "bob" (Some "one") 2; says "alice" (Some "two") 2; says "bob" (Some "three") 2].

(** A listener of 'scene_state' that fails. *)
Definition faultyListener : SocketService.Listener World :=
  {| SocketService.lid := 7;
     SocketService.call := fun _ w => (w, Throw (ListenerError "listener failed")) |}.

(** A listener of 'scene_state' that subscribes late. *)
Definition lateListener : SocketService.Listener World :=
  {| SocketService.lid := 8;
     SocketService.call := fun _ w => (w, Normal) |}.

End Samples.

(** * Properties *)

(** ** Sequencing *)

Section EffLemmas.

Context {S X : Type}.

(** [f] leaves the field [proj] as it found it, whether or not it throws. *)
Definition preserves (proj : S -> X) (f : Eff S) : Prop :=
  forall s, proj (f s).1 = proj s.

Lemma preserves_pureStep (proj : S -> X) (f : S -> S) :
  (forall s, proj (f s) = proj s) -> preserves proj (pureStep f).
Proof. intros H s. apply H. Qed.

Lemma preserves_andThen (proj : S -> X) (f g : Eff S) :
  preserves proj f -> preserves proj g -> preserves proj (f >>> g)%eff.
Proof.
  intros Hf Hg s. unfold andThen.
  specialize (Hf s). destruct (f s) as [s' [|e]]; simpl in *.
  - rewrite Hg. exact Hf.
  - exact Hf.
Qed.

Lemma andThen_normal (f g : Eff S) (s s' : S) :
  f s = (s', Normal) -> (f >>> g)%eff s = g s'.
Proof. intros H. unfold andThen. now rewrite H. Qed.

Lemma andThen_throw (f g : Eff S) (s s' : S) (e : JsError) :
  f s = (s', Throw e) -> (f >>> g)%eff s = (s', Throw e).
Proof. intros H. unfold andThen. now rewrite H. Qed.

End EffLemmas.

(** ** C1: last write wins *)

Module LastWriteWins.

(** What reaches the managers of the main scene: the snapshots and the
    events of the controls, and the frames in between, in which the tween
    manager moves the bouncing sprites. *)
Inductive Input :=
| SnapshotPushed (s : Scene.SceneState)
| EnterHistory
| ExitHistory
| NavigateTo (direction : Z) (controls : option (list HistoryManager.Button))
| FramePassed (d : string -> Qc).

Definition step (i : Input) : Eff World :=
  match i with
  | SnapshotPushed s => GameEvents.handleSceneStateUpdate s
  | EnterHistory => GameEvents.enterHistoryMode
  | ExitHistory => GameEvents.exitHistoryMode
  | NavigateTo d c => GameEvents.historyNavigateTo d c
  | FramePassed d => pureStep (withCharacters (CharacterManager.tweensUpdate d))
  end.

(** Inputs arrive one after the other; an exception ends the handler that
    raised it and the next input finds the state it left. *)
Definition run (inputs : list Input) (w : World) : World :=
  foldl (fun w i => (step i w).1) w inputs.

Definition snapshotOf (i : Input) : option Scene.SceneState :=
  match i with
  | SnapshotPushed s => Some s
  | _ => None
  end.

(** The last snapshot among the inputs, if any. *)
Definition lastApplied (inputs : list Input) : option Scene.SceneState :=
  last (omap snapshotOf inputs).

Lemma showHistoricalBubble_currentState m :
  preserves currentState (StateManager.showHistoricalBubble m).
Proof. intros w. reflexivity. Qed.

Lemma updateBubbles_currentState s :
  preserves currentState (StateManager.updateBubbles s).
Proof. intros w. reflexivity. Qed.

Lemma updateCharacters_currentState s :
  preserves currentState (StateManager.updateCharacters s).
Proof. intros w. reflexivity. Qed.

Lemma updateState_currentState s w :
  currentState (StateManager.updateState s w).1 = Some s.
Proof.
  unfold StateManager.updateState.
  rewrite (andThen_normal _ _ w (StateManager.setCurrentState s w)) by reflexivity.
  destruct (isInHistoryMode (StateManager.setCurrentState s w)) eqn:E; [reflexivity|].
  transitivity (currentState (StateManager.setCurrentState s w)); [|reflexivity].
  apply (preserves_andThen currentState); [apply updateCharacters_currentState|].
  apply preserves_andThen; [apply updateBubbles_currentState|].
  intros w'. reflexivity.
Qed.

Lemma historyModeChange_currentState b :
  preserves currentState (StateManager.historyModeChange b).
Proof.
  unfold StateManager.historyModeChange.
  apply preserves_andThen; [intros w; reflexivity|].
  intros w. destruct (currentState w) as [s|] eqn:E; [|exact E].
  rewrite <- E. destruct b.
  - apply showHistoricalBubble_currentState.
  - apply (preserves_andThen currentState);
      [apply updateCharacters_currentState | apply updateBubbles_currentState].
Qed.

Lemma navigateHistory_currentState i :
  preserves currentState (StateManager.navigateHistory i).
Proof.
  intros w. unfold StateManager.navigateHistory.
  destruct (currentState w) as [s|] eqn:E; [|exact E].
  rewrite <- E.
  destruct (isInHistoryMode w); [|reflexivity].
  destruct (StateManager.at_index _ _); reflexivity.
Qed.

Lemma emit_currentState sig : preserves currentState (GameEvents.emit sig).
Proof.
  destruct sig; simpl; try (intros w; reflexivity).
  - unfold GameEvents.historyModeChange.
    apply preserves_andThen; [intros w; reflexivity|].
    apply historyModeChange_currentState.
  - apply navigateHistory_currentState.
Qed.

Lemma emitAll_currentState sigs : preserves currentState (GameEvents.emitAll sigs).
Proof.
  induction sigs as [|sig sigs IH]; simpl; [intros w; reflexivity|].
  apply preserves_andThen; [apply emit_currentState | exact IH].
Qed.

Lemma runHistory_currentState h : preserves currentState (GameEvents.runHistory h).
Proof.
  intros w. unfold GameEvents.runHistory. now rewrite emitAll_currentState.
Qed.

Lemma step_currentState i w :
  currentState (step i w).1 = from_option Some (currentState w) (snapshotOf i).
Proof.
  destruct i; simpl.
  - apply updateState_currentState.
  - apply runHistory_currentState.
  - apply runHistory_currentState.
  - apply runHistory_currentState.
  - reflexivity.
Qed.

Lemma lastApplied_snoc inputs i :
  lastApplied (inputs ++ [i]) =
    match snapshotOf i with
    | Some s => Some s
    | None => lastApplied inputs
    end.
Proof.
  unfold lastApplied. rewrite omap_app. simpl.
  destruct (snapshotOf i).
  - apply last_snoc.
  - now rewrite app_nil_r.
Qed.

(** C1. For every sequence of inputs delivered to the StateManager
    (snapshots pushed by the server, interleaved at will with entering and
    leaving history mode and with navigation) and every starting state,
    the snapshot held afterwards is the last snapshot pushed; when the
    sequence pushes none, it is the one held before. *)
Theorem updateState_last_write_wins (inputs : list Input) (w : World) :
  currentState (run inputs w) = from_option Some (currentState w) (lastApplied inputs).
Proof.
  induction inputs as [|i inputs IH] using rev_ind; [reflexivity|].
  unfold run in *. rewrite foldl_app. simpl.
  rewrite step_currentState, lastApplied_snoc.
  destruct (snapshotOf i); [reflexivity | exact IH].
Qed.

End LastWriteWins.

(** ** The transport channel and its listeners (C2, C3, C7, C8) *)

Module Transport.

Import SocketService.

Section WithApplication.

Context {A : Type}.

Local Abbreviation Service := (SocketService.t A).
Local Abbreviation Callback := (SocketService.Listener A).

(** The log entries of one notification round over [ls]. *)
Definition entries (event : EventKind) (data : Payload) (ls : list Callback)
  : list (nat * EventKind * Payload) :=
  (fun l => (lid l, event, data)) <$> ls.

(** No callback of [ls] throws on [data]. *)
Definition quiet (data : Payload) (ls : list Callback) : Prop :=
  forall l, l ∈ ls -> forall a, (call l data a).2 = Normal.

(** Replace the two fields a callback can touch. *)
Definition afterCallbacks (s : Service) (a : A)
    (log : list (nat * EventKind * Payload)) : Service :=
  {| socket := socket s; listeners := listeners s;
     reconnectAttempts := reconnectAttempts s; isConnecting := isConnecting s;
     sockets := sockets s; app := a; delivered := delivered s ++ log |}.

Lemma afterCallbacks_nil (s : Service) : afterCallbacks s (app s) [] = s.
Proof. destruct s. unfold afterCallbacks. simpl. now rewrite app_nil_r. Qed.

Lemma afterCallbacks_twice (s : Service) a log a' log' :
  afterCallbacks (afterCallbacks s a log) a' log' = afterCallbacks s a' (log ++ log').
Proof. unfold afterCallbacks. simpl. now rewrite app_assoc. Qed.

Lemma invoke_shape event data (l : Callback) (s : Service) :
  invoke event data l s =
    (afterCallbacks s (call l data (app s)).1 [(lid l, event, data)],
     (call l data (app s)).2).
Proof. reflexivity. Qed.

(** Whatever the callbacks do, a round of notifications changes only the
    application state and the log, and notifies a prefix of [ls]. *)
Lemma forEach_prefix event data (ls : list Callback) (s : Service) :
  exists a' n,
    (forEach event data ls s).1 =
      afterCallbacks s a' (entries event data (take n ls)).
Proof.
  revert s. induction ls as [|l ls IH]; intros s; simpl.
  - exists (app s), 0%nat. now rewrite afterCallbacks_nil.
  - unfold andThen. rewrite invoke_shape.
    destruct (call l data (app s)) as [a1 [|e]]; simpl.
    + destruct (IH (afterCallbacks s a1 [(lid l, event, data)])) as (a' & n & Hn).
      exists a', (S n). rewrite Hn, afterCallbacks_twice. reflexivity.
    + exists a1, 1%nat. reflexivity.
Qed.

Lemma forEach_quiet event data (ls : list Callback) (s : Service) :
  quiet data ls ->
  exists a', forEach event data ls s =
               (afterCallbacks s a' (entries event data ls), Normal).
Proof.
  revert s. induction ls as [|l ls IH]; intros s Hq; simpl.
  - exists (app s). now rewrite afterCallbacks_nil.
  - unfold andThen. rewrite invoke_shape.
    assert (Hl : (call l data (app s)).2 = Normal) by (apply Hq; left).
    destruct (call l data (app s)) as [a1 c]; simpl in *; subst c.
    destruct (IH (afterCallbacks s a1 [(lid l, event, data)])) as (a' & Ha').
    { intros l' Hl'. apply Hq. now right. }
    exists a'. rewrite Ha', afterCallbacks_twice. reflexivity.
Qed.

(** The round stops at the first callback that throws. *)
Lemma forEach_stops event data (before after : list Callback) (l : Callback)
    (s : Service) :
  quiet data before ->
  (forall a, (call l data a).2 <> Normal) ->
  exists a' e,
    forEach event data (before ++ l :: after) s =
      (afterCallbacks s a' (entries event data (before ++ [l])), Throw e).
Proof.
  revert s. induction before as [|b before IH]; intros s Hq Hl; simpl.
  - unfold andThen. rewrite invoke_shape.
    specialize (Hl (app s)).
    destruct (call l data (app s)) as [a1 [|e]]; simpl in *; [congruence|].
    exists a1, e. reflexivity.
  - unfold andThen. rewrite invoke_shape.
    assert (Hb : (call b data (app s)).2 = Normal) by (apply Hq; left).
    destruct (call b data (app s)) as [a1 c]; simpl in *; subst c.
    destruct (IH (afterCallbacks s a1 [(lid b, event, data)])) as (a' & e & Ha'); auto.
    { intros l' Hl'. apply Hq. now right. }
    exists a', e. rewrite Ha', afterCallbacks_twice. reflexivity.
Qed.

(** *** C2: bounded reconnection *)

Definition freshSocket : Socket :=
  {| connected := false; closed := false; connectCalls := 0 |}.

(** Socket [i] is the one the service holds, it is still trying to
    connect, and [n] connection errors were counted. *)
Definition retrying (L : list Callback) (i n : nat) (s : Service) : Prop :=
  socket s = Some i /\ sockets s !! i = Some freshSocket /\
  reconnectAttempts s = n /\ listeners s connect_error = L.

(** The socket was torn down and the service holds none. *)
Definition tornDown (i : nat) (s : Service) : Prop :=
  socket s = None /\ isConnecting s = false /\
  sockets s !! i = Some (close freshSocket).

(** The state [disconnect()] leaves when socket.io emits nothing. *)
Definition released (i : nat) (s : Service) : Service :=
  setIsConnecting false (setSocket None (setSockets (alter close i (sockets s)) s)).

(** [disconnect()] on a socket that is not connected: socket.io emits
    nothing. *)
Lemma disconnect_not_connected (s : Service) (i : nat) :
  socket s = Some i -> socketConnected s = false ->
  disconnect s = (released i s, Normal).
Proof.
  intros Hs Hc. unfold disconnect, socketDisconnect, socketConnected in *.
  rewrite Hs in *. unfold andThen.
  destruct (sockets s !! i) as [so|]; [rewrite Hc|]; reflexivity.
Qed.

(** [disconnect()] in general: the socket is closed first; the listeners of
    'disconnect' are notified when the socket was connected, and the
    socket is released when they let the call return. *)
Lemma disconnect_shape (s : Service) (i : nat) :
  socket s = Some i ->
  exists a' log c,
    disconnect s =
      (afterCallbacks
         (match c with
          | Normal => released i s
          | Throw _ => setIsConnecting false (setSockets (alter close i (sockets s)) s)
          end) a' log, c) /\
    (socketConnected s = false -> c = Normal /\ a' = app s /\ log = []) /\
    (socketConnected s = true -> exists n,
       log = entries disconnect_ev NoData (take n (listeners s disconnect_ev))) /\
    (quiet NoData (listeners s disconnect_ev) -> c = Normal).
Proof.
  intros Hs. destruct (socketConnected s) eqn:Hc.
  - unfold disconnect, socketDisconnect. rewrite Hs. unfold andThen at 1.
    unfold socketConnected in Hc. rewrite Hs in Hc.
    destruct (sockets s !! i) as [so|] eqn:Hi; [|discriminate Hc]. rewrite Hc.
    unfold onDisconnect.
    set (s1 := setSockets (alter close i (sockets s)) s).
    rewrite (andThen_normal _ _ s1 (setIsConnecting false s1)) by reflexivity.
    unfold notifyListeners at 1. unfold andThen at 1.
    destruct (forEach_prefix disconnect_ev NoData
                (listeners (setIsConnecting false s1) disconnect_ev)
                (setIsConnecting false s1)) as (a' & n & Hn).
    destruct (forEach disconnect_ev NoData
                (listeners (setIsConnecting false s1) disconnect_ev)
                (setIsConnecting false s1)) as [s2 c] eqn:E.
    simpl in Hn. subst s2.
    exists a', (entries disconnect_ev NoData (take n (listeners s disconnect_ev))), c.
    split; [|split; [discriminate|split]].
    + destruct c as [|e]; reflexivity.
    + intros _. exists n. reflexivity.
    + intros Hq.
      destruct (forEach_quiet disconnect_ev NoData (listeners s disconnect_ev)
                  (setIsConnecting false s1) Hq) as (a2 & H2).
      change (listeners (setIsConnecting false s1) disconnect_ev)
        with (listeners s disconnect_ev) in E.
      rewrite H2 in E. now injection E.
  - rewrite (disconnect_not_connected s i Hs Hc).
    exists (app (released i s)), [], Normal. rewrite afterCallbacks_nil.
    split; [reflexivity|]. split; [auto|]. split; [discriminate|auto].
Qed.

Lemma onConnectError_quiet m (s : Service) :
  quiet (ErrorData m) (listeners s connect_error) ->
  exists a',
    onConnectError m s =
      (let s1 := afterCallbacks (setReconnectAttempts (S (reconnectAttempts s)) s) a'
                   (entries connect_error (ErrorData m) (listeners s connect_error)) in
       if bool_decide (MAX_RECONNECT_ATTEMPTS <= S (reconnectAttempts s))%nat
       then disconnect s1 else (s1, Normal)).
Proof.
  intros Hq. unfold onConnectError.
  rewrite (andThen_normal _ _ s (setReconnectAttempts (S (reconnectAttempts s)) s))
    by reflexivity.
  unfold notifyListeners at 1.
  destruct (forEach_quiet connect_error (ErrorData m) (listeners s connect_error)
              (setReconnectAttempts (S (reconnectAttempts s)) s) Hq) as (a' & Ha').
  exists a'. unfold andThen at 1. simpl listeners. rewrite Ha'. reflexivity.
Qed.

Lemma receive_retrying L i n m (s : Service) :
  (forall d, quiet d L) -> retrying L i n s -> (S n < MAX_RECONNECT_ATTEMPTS)%nat ->
  exists s', receive i (OnConnectError m) s = Some (s', Normal) /\
             retrying L i (S n) s'.
Proof.
  intros Hq (Hs & Hi & Hn & HL) Hlt. unfold receive. rewrite Hi. simpl.
  destruct (onConnectError_quiet m s) as (a' & Ha'); [rewrite HL; apply Hq|].
  rewrite Ha'. rewrite Hn. rewrite bool_decide_false by (unfold MAX_RECONNECT_ATTEMPTS in *; lia).
  eexists. split; [reflexivity|]. repeat split; simpl; assumption.
Qed.

Lemma receive_last L i n m (s : Service) :
  (forall d, quiet d L) -> retrying L i n s -> (MAX_RECONNECT_ATTEMPTS <= S n)%nat ->
  exists s', receive i (OnConnectError m) s = Some (s', Normal) /\
             tornDown i s' /\ reconnectAttempts s' = S n.
Proof.
  intros Hq (Hs & Hi & Hn & HL) Hge. unfold receive. rewrite Hi. simpl.
  destruct (onConnectError_quiet m s) as (a' & Ha'); [rewrite HL; apply Hq|].
  rewrite Ha'. rewrite Hn. cbv zeta. rewrite bool_decide_true by assumption.
  rewrite (disconnect_not_connected _ i) by
    (try exact Hs; unfold socketConnected; simpl; now rewrite Hs, Hi).
  eexists. split; [reflexivity|]. unfold released. simpl.
  repeat split. simpl. rewrite list_lookup_alter_eq, Hi. reflexivity.
Qed.

Lemma receiveAll_app i evs1 evs2 (s s1 : Service) :
  receiveAll i evs1 s = Some s1 ->
  receiveAll i (evs1 ++ evs2) s = receiveAll i evs2 s1.
Proof.
  revert s. induction evs1 as [|ev evs1 IH]; intros s H; simpl in *.
  - congruence.
  - destruct (receive i ev s) as [r|]; [|discriminate]. now apply IH.
Qed.

Lemma receiveAll_retrying L i n ms (s : Service) :
  (forall d, quiet d L) -> retrying L i n s ->
  (n + length ms < MAX_RECONNECT_ATTEMPTS)%nat ->
  exists s', receiveAll i (OnConnectError <$> ms) s = Some s' /\
             retrying L i (n + length ms) s'.
Proof.
  intros Hq. revert n s. induction ms as [|m ms IH]; intros n s Hr Hlt; simpl in *.
  - exists s. split; [reflexivity|]. now rewrite Nat.add_0_r.
  - destruct (receive_retrying L i n m s Hq Hr) as (s1 & H1 & Hr1); [lia|].
    rewrite H1. simpl.
    destruct (IH (S n) s1 Hr1) as (s' & H' & Hr'); [lia|].
    exists s'. split; [exact H'|]. now replace (n + S (length ms))%nat with (S n + length ms)%nat by lia.
Qed.

Lemma connect_retrying (s0 : Service) :
  socketConnected s0 = false -> isConnecting s0 = false ->
  retrying (listeners s0 connect_error) (length (sockets s0))
    (reconnectAttempts s0) (connect s0) /\
  isConnecting (connect s0) = true.
Proof.
  intros Hc Hi. unfold connect. rewrite Hc, Hi. simpl.
  repeat split. simpl. rewrite lookup_app_r by lia. now rewrite Nat.sub_diag.
Qed.

(** C2 (amended). A service that is neither connected nor connecting and
    has counted no error calls [connect()]; its new socket then reports
    five connection errors in a row (no 'connect' in between).  Provided
    the listeners of 'connect_error' return normally, all five are
    handled; before the fifth the service still holds the socket, which
    keeps retrying; the fifth tears the socket down and releases it, and
    the closed socket reports nothing any more: there is no sixth attempt,
    and the service never asked the socket to connect again.  (The
    handler notifies the listeners before it compares the counter with the
    maximum and catches nothing: a listener that throws keeps it from
    tearing the socket down.) *)
Theorem connect_error_bounded_reconnection (s0 : Service) (messages : list string) :
  socketConnected s0 = false ->
  isConnecting s0 = false ->
  reconnectAttempts s0 = 0%nat ->
  (forall d, quiet d (listeners s0 connect_error)) ->
  length messages = MAX_RECONNECT_ATTEMPTS ->
  let i := length (sockets s0) in
  (forall k, (k < MAX_RECONNECT_ATTEMPTS)%nat ->
     exists sk, receiveAll i (OnConnectError <$> take k messages) (connect s0) = Some sk /\
                socket sk = Some i /\ sockets sk !! i = Some freshSocket /\
                reconnectAttempts sk = k) /\
  exists s5,
    receiveAll i (OnConnectError <$> messages) (connect s0) = Some s5 /\
    socket s5 = None /\ isConnecting s5 = false /\
    sockets s5 !! i = Some {| connected := false; closed := true; connectCalls := 0 |} /\
    reconnectAttempts s5 = MAX_RECONNECT_ATTEMPTS /\
    forall ev, receive i ev s5 = None.
Proof.
  intros Hc Hi Hn Hq Hlen i.
  destruct (connect_retrying s0 Hc Hi) as (Hr & _). rewrite Hn in Hr. fold i in Hr.
  assert (Hpre : forall k, (k < MAX_RECONNECT_ATTEMPTS)%nat ->
            exists sk, receiveAll i (OnConnectError <$> take k messages) (connect s0) = Some sk /\
                       retrying (listeners s0 connect_error) i k sk).
  { intros k Hk.
    destruct (receiveAll_retrying _ i 0 (take k messages) _ Hq Hr) as (sk & Hsk & Hrk).
    - rewrite length_take. lia.
    - exists sk. split; [exact Hsk|].
      rewrite length_take in Hrk.
      now replace (0 + k `min` length messages)%nat with k in Hrk by lia. }
  split.
  - intros k Hk. destruct (Hpre k Hk) as (sk & Hsk & (H1 & H2 & H3 & _)).
    exists sk. auto.
  - destruct (Hpre 4%nat) as (s4 & H4 & Hr4); [unfold MAX_RECONNECT_ATTEMPTS; lia|].
    destruct (drop 4 messages) as [|m5 rest] eqn:Hd.
    { apply (f_equal length) in Hd. rewrite length_drop in Hd. simpl in Hd.
      unfold MAX_RECONNECT_ATTEMPTS in Hlen. lia. }
    assert (rest = []) as ->.
    { apply (f_equal length) in Hd. rewrite length_drop in Hd. simpl in Hd.
      unfold MAX_RECONNECT_ATTEMPTS in Hlen. destruct rest; [reflexivity|simpl in Hd; lia]. }
    destruct (receive_last _ i 4 m5 s4 Hq Hr4) as (s5 & H5 & (Hs & Hic & Hso) & Hcount);
      [unfold MAX_RECONNECT_ATTEMPTS; lia|].
    exists s5. rewrite <- (take_drop 4 messages), Hd, fmap_app.
    rewrite (receiveAll_app _ _ _ _ _ H4). simpl. rewrite H5. simpl.
    repeat split; try assumption.
    intros ev. unfold receive. now rewrite Hso.
Qed.

(** *** C3: a round of notifications *)

(** C3 (amended). [notifyListeners] calls the listeners of the event in
    subscription order and has no handler for their exceptions: when
    the listeners [before] return normally and the next one, if there
    is one, throws, exactly [before] and that next listener are called,
    in this order; the round completes normally only when nobody threw,
    and the listeners subscribed after the one that threw are not
    called. *)
Theorem notifyListeners_until_first_throw event data
    (before rest : list Callback) (s : Service) :
  listeners s event = before ++ rest ->
  quiet data before ->
  (forall l, head rest = Some l -> forall a, (call l data a).2 <> Normal) ->
  let r := notifyListeners event data s in
  delivered r.1 = delivered s ++ entries event data (before ++ take 1 rest) /\
  (r.2 = Normal <-> rest = []).
Proof.
  intros HL Hq Hrest r. subst r. unfold notifyListeners. rewrite HL.
  destruct rest as [|l after].
  - rewrite app_nil_r. destruct (forEach_quiet event data before s Hq) as (a' & Ha').
    rewrite Ha'. simpl. rewrite app_nil_r. split; [reflexivity|]. split; reflexivity.
  - destruct (forEach_stops event data before after l s Hq) as (a' & e & Ha').
    { apply Hrest. reflexivity. }
    rewrite Ha'. simpl. rewrite take_0. split; [reflexivity|].
    split; intros H; discriminate H.
Qed.

(** *** C7: disconnect *)

Lemma connect_reconnectAttempts (s : Service) :
  reconnectAttempts (connect s) = reconnectAttempts s.
Proof.
  unfold connect. destruct (socketConnected s || isConnecting s); reflexivity.
Qed.

Lemma onConnect_reconnectAttempts (s : Service) :
  reconnectAttempts (onConnect s).1 = 0%nat.
Proof.
  unfold onConnect.
  rewrite (andThen_normal _ _ s (setReconnectAttempts 0 s)) by reflexivity.
  rewrite (andThen_normal _ _ _ (setIsConnecting false (setReconnectAttempts 0 s)))
    by reflexivity.
  unfold notifyListeners.
  destruct (forEach_prefix connect_ev NoData
              (listeners (setIsConnecting false (setReconnectAttempts 0 s)) connect_ev)
              (setIsConnecting false (setReconnectAttempts 0 s))) as (a' & n & H).
  rewrite H. reflexivity.
Qed.

(** C7 (amended). [disconnect()] closes the socket the service holds, and
    the service no longer counts as connecting.  The socket is released
    when the call returns normally, which it does when the socket was not
    connected or the listeners of 'disconnect' return normally: on a
    connected socket, socket.io emits 'disconnect' inside the call, and a
    listener that throws aborts [disconnect()] before the socket field is
    cleared.  The listeners and the attempt counter are left as they were,
    also across the next [connect()]; the counter goes back to zero in the
    handler of 'connect'. *)
Theorem disconnect_releases_socket_keeps_counter (s : Service) :
  let r := disconnect s in
  (r.2 = Normal -> socket r.1 = None) /\
  (r.2 <> Normal -> socket r.1 = socket s /\ socketConnected s = true) /\
  (socketConnected s = false \/ quiet NoData (listeners s disconnect_ev) ->
   r.2 = Normal) /\
  (forall i, socket s = Some i ->
             isConnecting r.1 = false /\
             sockets r.1 !! i = close <$> sockets s !! i) /\
  listeners r.1 = listeners s /\
  reconnectAttempts r.1 = reconnectAttempts s /\
  reconnectAttempts (connect r.1) = reconnectAttempts s /\
  reconnectAttempts (onConnect s).1 = 0%nat.
Proof.
  cbv zeta. destruct (socket s) as [i|] eqn:Hs.
  - destruct (disconnect_shape s i Hs) as (a' & log & c & Hd & Hoff & _ & Hq).
    rewrite Hd. cbn [fst snd].
    split; [intros ->; reflexivity|].
    split.
    { intros Hc. destruct c as [|e]; [congruence|]. split; [exact Hs|].
      destruct (socketConnected s); [reflexivity|].
      destruct Hoff as (Hoff & _); [reflexivity|discriminate Hoff]. }
    split.
    { intros [Hc|Hquiet]; [apply Hoff, Hc | apply Hq, Hquiet]. }
    split.
    { intros j [= <-]. destruct c; split; try reflexivity; apply list_lookup_alter_eq. }
    split; [destruct c; reflexivity|].
    split; [destruct c; reflexivity|].
    split; [|apply onConnect_reconnectAttempts].
    rewrite connect_reconnectAttempts. destruct c; reflexivity.
  - unfold disconnect. rewrite Hs. cbn [fst snd].
    split; [intros _; exact Hs|].
    split; [intros Hc; congruence|].
    split; [reflexivity|].
    split; [intros i [=]|].
    split; [reflexivity|]. split; [reflexivity|].
    split; [apply connect_reconnectAttempts | apply onConnect_reconnectAttempts].
Qed.

(** *** C8: subscribing *)

Lemma deliveriesTo_app (l : Callback) log1 log2 :
  deliveriesTo l (log1 ++ log2) = deliveriesTo l log1 ++ deliveriesTo l log2.
Proof. unfold deliveriesTo. apply omap_app. Qed.

Lemma deliveriesTo_others (l : Callback) event data (ls : list Callback) :
  hasListener l ls = false -> deliveriesTo l (entries event data ls) = [].
Proof.
  unfold hasListener. rewrite bool_decide_eq_false.
  induction ls as [|l' ls IH]; intros Hnot; [reflexivity|].
  simpl in *. rewrite bool_decide_false.
  - apply IH. intros Hin. apply Hnot. now right.
  - intros Heq. apply Hnot. rewrite Heq. left.
Qed.

Lemma deliveriesTo_self (l : Callback) event data :
  deliveriesTo l (entries event data [l]) = [(event, data)].
Proof. simpl. now rewrite bool_decide_true. Qed.

Lemma forEach_quiet_snoc event data (ls : list Callback) (l : Callback) (s : Service) :
  quiet data ls ->
  exists a',
    (forEach event data (ls ++ [l]) s).1 =
      afterCallbacks s a' (entries event data (ls ++ [l])).
Proof.
  revert s. induction ls as [|b ls IH]; intros s Hq; simpl.
  - unfold andThen. rewrite invoke_shape.
    destruct (call l data (app s)) as [a2 [|e]]; simpl; exists a2; reflexivity.
  - unfold andThen. rewrite invoke_shape.
    assert (Hb : (call b data (app s)).2 = Normal) by (apply Hq; left).
    destruct (call b data (app s)) as [a2 c]; simpl in *; subst c.
    destruct (IH (afterCallbacks s a2 [(lid b, event, data)])) as (a3 & H3).
    { intros l' Hl'. apply Hq. now right. }
    exists a3. rewrite H3, afterCallbacks_twice. reflexivity.
Qed.

(** C8 (amended). Subscribing only adds the callback to the set of its
    event: nothing is delivered at that time and the application state
    is untouched, whatever snapshots were pushed before.  A callback
    that was not subscribed yet goes to the end of the set, and the next
    snapshot pushed is delivered to it once, provided the listeners
    subscribed before it return normally. *)
Theorem addListener_delivers_nothing event (l : Callback) (s : Service) :
  let s' := addListener event l s in
  delivered s' = delivered s /\
  app s' = app s /\
  hasListener l (listeners s' event) = true /\
  (hasListener l (listeners s event) = false ->
   listeners s' event = listeners s event ++ [l]) /\
  (forall state,
     event = scene_state ->
     hasListener l (listeners s event) = false ->
     quiet (SceneData state) (listeners s event) ->
     deliveriesTo l (delivered (onSceneState state s').1) =
       deliveriesTo l (delivered s) ++ [(scene_state, SceneData state)]).
Proof.
  cbv zeta. split; [reflexivity|]. split; [reflexivity|].
  assert (Hls : listeners (addListener event l s) event = setAdd l (listeners s event)).
  { simpl. now rewrite bool_decide_true. }
  split; [|split].
  - rewrite Hls. unfold setAdd.
    destruct (hasListener l (listeners s event)) eqn:E; [exact E|].
    unfold hasListener. apply bool_decide_eq_true.
    rewrite fmap_app. apply elem_of_app. right. simpl. left.
  - intros Hnew. rewrite Hls. unfold setAdd. now rewrite Hnew.
  - intros state -> Hnew Hq.
    unfold onSceneState, notifyListeners. rewrite Hls. unfold setAdd. rewrite Hnew.
    destruct (forEach_quiet_snoc scene_state (SceneData state) (listeners s scene_state)
                l (addListener scene_state l s) Hq) as (a2 & H2).
    rewrite H2. simpl.
    unfold entries. rewrite fmap_app. rewrite !deliveriesTo_app.
    fold (entries scene_state (SceneData state) (listeners s scene_state)).
    rewrite (deliveriesTo_others l _ _ _ Hnew). simpl.
    now rewrite bool_decide_true.
Qed.

End WithApplication.


(** *** Concrete runs *)

(** The service as the status indicator uses it. *)
Definition presenterService : SocketService.t ConnectionManager.t :=
  ConnectionManager.setupEventListeners (initial ConnectionManager.initial).

Definition fiveErrors : list string :=
  ["xhr poll error"; "xhr poll error"; "timeout"; "xhr poll error"; "timeout"].

Lemma presenterService_quiet d :
  quiet d (listeners presenterService connect_error).
Proof.
  intros l Hl a. change (listeners presenterService connect_error)
    with [ConnectionManager.onConnectError] in Hl.
  apply list_elem_of_singleton in Hl. subst l. reflexivity.
Qed.

Lemma connect_error_bounded_reconnection_witness :
  (socketConnected presenterService = false /\
   isConnecting presenterService = false /\
   reconnectAttempts presenterService = 0%nat /\
   length fiveErrors = MAX_RECONNECT_ATTEMPTS) /\
  exists s5,
    receiveAll 0 (OnConnectError <$> fiveErrors) (connect presenterService) = Some s5 /\
    socket s5 = None /\ isConnecting s5 = false /\
    sockets s5 !! 0%nat = Some {| connected := false; closed := true; connectCalls := 0 |} /\
    reconnectAttempts s5 = MAX_RECONNECT_ATTEMPTS /\
    forall ev, receive 0 ev s5 = None.
Proof.
  split; [repeat split; reflexivity|].
  destruct (connect_error_bounded_reconnection presenterService fiveErrors
              eq_refl eq_refl eq_refl presenterService_quiet eq_refl) as [_ H].
  exact H.
Defined.

(** A listener that fails, for the service of the status indicator. *)
Definition faultyIndicatorListener : SocketService.Listener ConnectionManager.t :=
  {| lid := 9;
     call := fun _ c => (c, Throw (ListenerError "listener failed")) |}.

(** The status indicator and a failing listener of 'connect_error'. *)
Definition faultyPresenter : SocketService.t ConnectionManager.t :=
  addListener connect_error faultyIndicatorListener presenterService.

(** C2, counterexample: a listener of 'connect_error' throws.  The handler
    counts the error and notifies; the exception leaves the handler before
    the counter is compared with the maximum, so [disconnect()] is never
    called: after five errors in a row the service still holds the socket,
    which was not closed, and a sixth error is handled and counted. *)
Lemma connect_error_listener_throws_no_teardown :
  exists s5 s6,
    (socketConnected faultyPresenter = false /\
     isConnecting faultyPresenter = false /\
     reconnectAttempts faultyPresenter = 0%nat) /\
    receiveAll 0 (OnConnectError <$> fiveErrors) (connect faultyPresenter) = Some s5 /\
    socket s5 = Some 0%nat /\
    sockets s5 !! 0%nat = Some freshSocket /\
    reconnectAttempts s5 = MAX_RECONNECT_ATTEMPTS /\
    receive 0 (OnConnectError "timeout") s5 =
      Some (s6, Throw (ListenerError "listener failed")) /\
    socket s6 = Some 0%nat /\
    reconnectAttempts s6 = 6%nat.
Proof.
  do 2 eexists. split; [repeat apply conj; reflexivity|].
  repeat apply conj; vm_compute; reflexivity.
Qed.

(** A failing listener subscribed before the one of the EventManager. *)
Definition faultyFirst : SocketService.t World :=
  EventManager.setupEventListeners
    (addListener scene_state Samples.faultyListener (initial StateManager.initial)).

(** C3, counterexample: the first listener throws, the listener of the
    EventManager is subscribed to the same event and is not called; the
    snapshot never reaches the StateManager. *)
Lemma notifyListeners_no_isolation :
  let r := notifyListeners scene_state (SceneData Samples.snapshotB) faultyFirst in
  listeners faultyFirst scene_state =
    [Samples.faultyListener; EventManager.handleSceneStateUpdate] /\
  r.2 = Throw (ListenerError "listener failed") /\
  deliveriesTo EventManager.handleSceneStateUpdate (delivered r.1) = [] /\
  currentState (app r.1) = None.
Proof. repeat split. Qed.

(** Three listeners: a quiet one, the failing one, the EventManager. *)
Definition faultySecond : SocketService.t World :=
  EventManager.setupEventListeners
    (addListener scene_state Samples.faultyListener
       (addListener scene_state Samples.lateListener (initial StateManager.initial))).

Lemma notifyListeners_until_first_throw_witness :
  let r := notifyListeners scene_state (SceneData Samples.snapshotB) faultySecond in
  delivered r.1 = [(8%nat, scene_state, SceneData Samples.snapshotB);
                   (7%nat, scene_state, SceneData Samples.snapshotB)] /\
  (r.2 = Normal <->
   [Samples.faultyListener; EventManager.handleSceneStateUpdate] = []).
Proof.
  apply (notifyListeners_until_first_throw scene_state (SceneData Samples.snapshotB)
           [Samples.lateListener]
           [Samples.faultyListener; EventManager.handleSceneStateUpdate] faultySecond).
  - reflexivity.
  - intros l Hl a. apply list_elem_of_singleton in Hl. subst l. reflexivity.
  - intros l [= <-] a. discriminate.
Defined.

(** The state after [connect()] and two connection errors. *)
Definition afterTwoErrors : SocketService.t ConnectionManager.t :=
  default presenterService
    (receiveAll 0 [OnConnectError "xhr poll error"; OnConnectError "timeout"]
       (connect presenterService)).

(** C7, counterexample: two errors were counted when [disconnect()] is
    called; the socket is released and the counter still reads two. *)
Lemma disconnect_keeps_reconnectAttempts :
  socket afterTwoErrors = Some 0%nat /\
  reconnectAttempts afterTwoErrors = 2%nat /\
  socket (disconnect afterTwoErrors).1 = None /\
  reconnectAttempts (disconnect afterTwoErrors).1 = 2%nat /\
  ~ (socket (disconnect afterTwoErrors).1 = None /\
     reconnectAttempts (disconnect afterTwoErrors).1 = 0%nat).
Proof.
  repeat apply conj; try (vm_compute; reflexivity).
  intros [_ H]. vm_compute in H. discriminate H.
Qed.

Lemma disconnect_releases_socket_keeps_counter_witness :
  (disconnect afterTwoErrors).2 = Normal /\
  socket (disconnect afterTwoErrors).1 = None /\
  reconnectAttempts (disconnect afterTwoErrors).1 = 2%nat.
Proof.
  pose proof (disconnect_releases_socket_keeps_counter afterTwoErrors) as H.
  cbv zeta in H. destruct H as (Hnone & _ & Hquiet & _ & _ & Hcount & _).
  assert (Hn : (disconnect afterTwoErrors).2 = Normal).
  { apply Hquiet. left. vm_compute. reflexivity. }
  split; [exact Hn|]. split; [exact (Hnone Hn)|].
  rewrite Hcount. vm_compute. reflexivity.
Defined.

(** The status indicator and a failing listener of 'disconnect', after
    [connect()] and a successful connection. *)
Definition connectedFaulty : SocketService.t ConnectionManager.t :=
  default presenterService
    (receiveAll 0 [OnConnect]
       (connect (addListener disconnect_ev faultyIndicatorListener presenterService))).

(** [disconnect()] on a connected socket with a listener of 'disconnect'
    that throws: the socket is closed, the call is aborted and the
    service still refers to the closed socket. *)
Example disconnect_aborted_by_listener :
  socketConnected connectedFaulty = true /\
  (disconnect connectedFaulty).2 = Throw (ListenerError "listener failed") /\
  socket (disconnect connectedFaulty).1 = Some 0%nat /\
  sockets (disconnect connectedFaulty).1 !! 0%nat =
    Some {| connected := false; closed := true; connectCalls := 0 |} /\
  (forall ev, receive 0 ev (disconnect connectedFaulty).1 = None).
Proof.
  repeat apply conj; vm_compute; reflexivity.
Qed.

(** After the retries were used up, [connect()] makes a new socket, and
    its first connection error already tears that socket down. *)
Example connect_after_exhaustion_has_one_attempt :
  exists s5 s6,
    receiveAll 0 (OnConnectError <$> fiveErrors) (connect presenterService) = Some s5 /\
    socket (connect s5) = Some 1%nat /\
    receive 1 (OnConnectError "timeout") (connect s5) = Some (s6, Normal) /\
    socket s6 = None /\ reconnectAttempts s6 = 6%nat.
Proof. do 2 eexists. repeat apply conj; vm_compute; reflexivity. Qed.

(** The application with the EventManager subscribed, after [connect()],
    a successful connection and one pushed snapshot. *)
Definition afterSnapshotB : SocketService.t World :=
  default (initial StateManager.initial)
    (receiveAll 0 [OnConnect; OnSceneState Samples.snapshotB]
       (connect (EventManager.setupEventListeners (initial StateManager.initial)))).

(** C8, counterexample: snapshot B is held by the StateManager when a
    second listener subscribes to 'scene_state'; nothing is delivered to
    it, where a replay on attach would deliver snapshot B once. *)
Lemma addListener_no_replay :
  let s' := addListener scene_state Samples.lateListener afterSnapshotB in
  currentState (app afterSnapshotB) = Some Samples.snapshotB /\
  listeners s' scene_state =
    [EventManager.handleSceneStateUpdate; Samples.lateListener] /\
  deliveriesTo Samples.lateListener (delivered s') = [] /\
  deliveriesTo Samples.lateListener (delivered s')
    <> [(scene_state, SceneData Samples.snapshotB)].
Proof.
  cbv zeta. split; [vm_compute; reflexivity|].
  split; [reflexivity|].
  split; [vm_compute; reflexivity|].
  intros H. vm_compute in H. discriminate H.
Qed.

Lemma addListener_delivers_nothing_witness :
  let s' := addListener scene_state Samples.lateListener (initial StateManager.initial) in
  hasListener Samples.lateListener
    (listeners (initial StateManager.initial) scene_state) = false /\
  delivered s' = [] /\
  deliveriesTo Samples.lateListener
    (delivered (onSceneState Samples.snapshotB s').1) =
    [(scene_state, SceneData Samples.snapshotB)].
Proof.
  destruct (addListener_delivers_nothing scene_state Samples.lateListener
              (initial StateManager.initial)) as (Hd & _ & _ & _ & Hnext).
  split; [reflexivity|]. split; [exact Hd|].
  apply (Hnext Samples.snapshotB eq_refl eq_refl).
  intros l Hl. inversion Hl.
Defined.

End Transport.

(** ** C5: the history cursor *)

Module HistoryCursor.

Import HistoryManager.

Lemma world_eta (w : World) :
  withHistory (fun _ => historyManager w) w = w.
Proof. destruct w. reflexivity. Qed.

(** C5. For every cursor index [i] and direction [d] of +1 or -1,
    [navigateHistory d] moves the cursor to [i + d] exactly when
    [0 <= i + d < messageCount] for the frozen log, and then emits
    'historyNavigate' for the new index.  Otherwise the HistoryManager is
    unchanged (no wraparound), no event is emitted and the invalid move is
    signalled once: one warning, followed by one flash of the navigation
    button of that direction when the controls show it; nothing else in
    the scene changes.  In particular [navigateHistory 1] at the tail
    leaves the cursor at the tail.  The log and the mode are never
    touched. *)
Theorem navigateHistory_bounds (h : HistoryManager.t) (d : Z)
    (controls : option (list Button)) :
  d = 1 \/ d = -1 ->
  let i := currentHistoryIndex h in
  let r := navigateHistory d controls h in
  conversationHistory r.1 = conversationHistory h /\
  historyMode r.1 = historyMode h /\
  (currentHistoryIndex r.1 = i + d <-> 0 <= i + d < lengthZ h) /\
  (0 <= i + d < lengthZ h -> r.2 = [EmitHistoryNavigate (i + d)]) /\
  (~ (0 <= i + d < lengthZ h) ->
     r.1 = h /\
     (exists flash,
        r.2 = WarnInvalidIndex (i + d) :: flash /\
        (length flash <= 1)%nat /\
        (forall sig, sig ∈ flash -> exists p b, sig = FlashButton p b) /\
        (controls = Some [prev; next] ->
         flash = [if d =? -1 then FlashButton 0 prev else FlashButton 1 next])) /\
     (forall w, historyManager w = h ->
                GameEvents.historyNavigateTo d controls w = (w, Normal))) /\
  (d = 1 -> i = lengthZ h - 1 -> currentHistoryIndex r.1 = i).
Proof.
  intros Hd i r. subst r. unfold navigateHistory. fold i.
  destruct ((0 <=? i + d) && (i + d <? lengthZ h)) eqn:E.
  - apply andb_true_iff in E. destruct E as [E1 E2].
    apply Z.leb_le in E1. apply Z.ltb_lt in E2. simpl.
    repeat split; try tauto; try lia.
  - assert (Hout : ~ (0 <= i + d < lengthZ h)).
    { apply andb_false_iff in E.
      destruct E as [E|E]; [apply Z.leb_gt in E | apply Z.ltb_ge in E]; lia. }
    simpl. split; [reflexivity|]. split; [reflexivity|].
    split; [split; [lia | tauto]|]. split; [tauto|]. split; [|lia].
    intros _. split; [reflexivity|]. split.
    + eexists. split; [reflexivity|]. split; [|split].
      * destruct controls as [bs|]; simpl; [|lia].
        destruct (bs !! _); simpl; lia.
      * intros sig Hsig. destruct controls as [bs|]; [|inversion Hsig].
        destruct (bs !! _) eqn:Eb; [|inversion Hsig].
        apply list_elem_of_singleton in Hsig. eauto.
      * intros ->. destruct Hd as [-> | ->]; reflexivity.
    + intros w Hw. unfold GameEvents.historyNavigateTo, GameEvents.runHistory,
        handleHistoryNavigateTo, navigateHistory.
      rewrite Hw. fold i. rewrite E. simpl.
      destruct controls as [bs|]; simpl.
      * destruct (bs !! _); simpl; unfold andThen; simpl; rewrite <- Hw;
          now rewrite world_eta.
      * unfold andThen; simpl. rewrite <- Hw. now rewrite world_eta.
Qed.

(** The cursor at the head of a log of three messages, in history mode. *)
Definition atHead : HistoryManager.t :=
  {| historyMode := true; currentHistoryIndex := 0;
     conversationHistory := Samples.threeMessages |}.

Lemma navigateHistory_bounds_witness :
  let r := navigateHistory (-1) (Some [prev; next]) atHead in
  r.1 = atHead /\ r.2 = [WarnInvalidIndex (-1); FlashButton 0 prev].
Proof.
  destruct (navigateHistory_bounds atHead (-1) (Some [prev; next]))
    as (_ & _ & _ & _ & Hout & _); [right; reflexivity|].
  destruct Hout as (Hsame & (flash & Hsig & _ & _ & Hflash) & _).
  { simpl. lia. }
  split; [exact Hsame|]. cbv zeta. rewrite Hsig, (Hflash eq_refl). reflexivity.
Defined.

(** The scenario of the specification: three messages, entering history
    mode puts the cursor on index 2, two steps back reach index 0 and the
    third is rejected. *)
Example three_messages_scenario :
  let h0 := onSceneStateUpdate (Samples.scene [] Samples.threeMessages) initial in
  let h1 := (handleEnterHistoryMode h0).1 in
  let h2 := (navigateHistory (-1) (Some [prev; next]) h1).1 in
  let h3 := (navigateHistory (-1) (Some [prev; next]) h2).1 in
  let r4 := navigateHistory (-1) (Some [prev; next]) h3 in
  currentHistoryIndex h1 = 2 /\ currentHistoryIndex h2 = 1 /\
  currentHistoryIndex h3 = 0 /\ currentHistoryIndex r4.1 = 0 /\
  r4.2 = [WarnInvalidIndex (-1); FlashButton 0 prev].
Proof. repeat split. Qed.

End HistoryCursor.

(** ** Effect derivation: the speech bubbles (C4, C9, C10) *)

Module SpeechEffects.

Import SpeechBubbleManager.

Lemma assoc_unique {V : Type} (l : list (string * V)) (k : string) (v1 v2 : V) :
  NoDup l.*1 -> (k, v1) ∈ l -> (k, v2) ∈ l -> v1 = v2.
Proof.
  induction l as [|[k' v'] l IH]; simpl; intros Hnd H1 H2.
  - inversion H1.
  - apply NoDup_cons in Hnd. destruct Hnd as [Hnotin Hnd].
    apply elem_of_cons in H1. apply elem_of_cons in H2.
    destruct H1 as [H1|H1], H2 as [H2|H2].
    + congruence.
    + exfalso. apply Hnotin. injection H1 as <- _.
      apply (list_elem_of_fmap_2 fst) in H2. exact H2.
    + exfalso. apply Hnotin. injection H2 as <- _.
      apply (list_elem_of_fmap_2 fst) in H1. exact H1.
    + now apply IH.
Qed.

(** The bubble [b] is the one derived for the entry [(key, value)]: the
    character is marked as speaking, it is registered with the
    CharacterManager, and its latest message has the non-empty text shown. *)
Definition derived (cm : CharacterManager.t) (s : Scene.SceneState)
    (key : string) (value : Scene.CharacterState) (b : SpeechBubble) : Prop :=
  Scene.action value = Scene.speaking /\
  exists ch m txt,
    CharacterManager.getCharacter key cm = Some ch /\
    Scene.latestMessageOf key s = Some m /\
    Scene.content m = Some txt /\ txt <> "" /\
    b = {| text := txt;
           nameText := Scene.name value;
           nameColor := characterColor (Some ch);
           moodText := Scene.mood_emoji m;
           progressBar := progressFor (Some (Scene.calculated_speaking_time m));
           anchorX := CharacterManager.x (CharacterManager.sprite ch);
           anchorY := CharacterManager.y (CharacterManager.sprite ch) |}.

Lemma bubbleFor_lookup cm s key value (sbm : t) (k : string) (b : SpeechBubble) :
  activeBubbles (bubbleFor cm s (key, value) sbm).1 !! k = Some b ->
  activeBubbles sbm !! k = Some b \/ (k = key /\ derived cm s key value b).
Proof.
  unfold bubbleFor.
  destruct (bool_decide (Scene.action value = Scene.speaking)) eqn:Ea; [|auto].
  apply bool_decide_eq_true in Ea.
  destruct (CharacterManager.getCharacter key cm) as [ch|] eqn:Ec; [|auto].
  destruct (Scene.latestMessageOf key s) as [m|] eqn:Em; [|auto].
  destruct (Scene.content m) as [txt|] eqn:Et; [|auto].
  destruct (Scene.truthy (Some txt)) eqn:Etr; [|auto].
  unfold createSpeechBubble. simpl. rewrite Ec.
  destruct (decide (k = key)) as [->|Hne].
  - rewrite lookup_insert_eq. intros [= <-]. right. split; [reflexivity|].
    split; [exact Ea|]. exists ch, m, txt. repeat split; try assumption.
    simpl in Etr. apply negb_true_iff in Etr. now apply String.eqb_neq in Etr.
  - rewrite lookup_insert_ne by congruence. auto.
Qed.

Lemma forEntries_lookup cm s (es : list (string * Scene.CharacterState)) (sbm : t)
    (k : string) (b : SpeechBubble) :
  activeBubbles (forEntries cm s es sbm).1 !! k = Some b ->
  activeBubbles sbm !! k = Some b \/
  exists value, (k, value) ∈ es /\ derived cm s k value b.
Proof.
  revert sbm. induction es as [|[key value] es IH]; intros sbm; simpl; [auto|].
  unfold andThen.
  destruct (bubbleFor cm s (key, value) sbm) as [sbm1 c] eqn:E1.
  assert (H1 : forall b', activeBubbles sbm1 !! k = Some b' ->
            activeBubbles sbm !! k = Some b' \/ (k = key /\ derived cm s key value b')).
  { intros b' Hb'. apply (bubbleFor_lookup cm s key value sbm k b'). now rewrite E1. }
  destruct c as [|e]; simpl.
  - intros H. destruct (IH sbm1 H) as [Hin | (v & Hv & Hd)].
    + destruct (H1 b Hin) as [H0 | [-> Hd]]; [auto|].
      right. exists value. split; [left | exact Hd].
    + right. exists v. split; [now right | exact Hd].
  - intros H. destruct (H1 b H) as [H0 | [-> Hd]]; [auto|].
    right. exists value. split; [left | exact Hd].
Qed.

Lemma updateBubbles_lookup cm s (sbm : t) (k : string) (b : SpeechBubble) :
  activeBubbles (updateBubbles cm s sbm).1 !! k = Some b ->
  exists value, (k, value) ∈ Scene.characters s /\ derived cm s k value b.
Proof.
  unfold updateBubbles.
  rewrite (andThen_normal _ _ sbm (clearBubbles sbm)) by reflexivity.
  intros H. apply forEntries_lookup in H. destruct H as [H|H]; [|exact H].
  simpl in H. rewrite lookup_empty in H. discriminate H.
Qed.

(** C9. After [updateBubbles] ran on a snapshot, whether it completed or
    threw, no bubble is stored under the id of a character whose action in
    that snapshot is not 'speaking'. *)
Theorem updateBubbles_no_bubble_for_non_speakers (cm : CharacterManager.t)
    (s : Scene.SceneState) (sbm : t) (key : string) (value : Scene.CharacterState) :
  Scene.wf s ->
  (key, value) ∈ Scene.characters s ->
  Scene.action value <> Scene.speaking ->
  activeBubbles (updateBubbles cm s sbm).1 !! key = None.
Proof.
  intros Hwf Hin Hact.
  destruct (activeBubbles (updateBubbles cm s sbm).1 !! key) as [b|] eqn:E; [|reflexivity].
  apply updateBubbles_lookup in E. destruct E as (v & Hv & Hsp & _).
  rewrite (assoc_unique _ _ _ _ Hwf Hin Hv) in Hact. contradiction.
Qed.

(** C10. When a character is marked as speaking and its latest own message
    has null or empty content, the step of [updateBubbles] for that
    character returns normally and stores nothing, and after the run no
    bubble is stored under its id.  For every snapshot, a bubble stored
    under an id after the run shows the non-empty content of the latest
    message of that character. *)
Theorem updateBubbles_pending_turn (cm : CharacterManager.t) (s : Scene.SceneState)
    (sbm : t) (key : string) (value : Scene.CharacterState) (m : Scene.Message) :
  Scene.wf s ->
  (key, value) ∈ Scene.characters s ->
  Scene.action value = Scene.speaking ->
  Scene.latestMessageOf key s = Some m ->
  Scene.content m = None \/ Scene.content m = Some "" ->
  (forall sbm', bubbleFor cm s (key, value) sbm' = (sbm', Normal)) /\
  activeBubbles (updateBubbles cm s sbm).1 !! key = None /\
  (forall s' k b,
     activeBubbles (updateBubbles cm s' sbm).1 !! k = Some b ->
     exists m', Scene.latestMessageOf k s' = Some m' /\
                Scene.content m' = Some (text b) /\ text b <> "").
Proof.
  intros Hwf Hin Hact Hm Hc. split; [|split].
  - intros sbm'. unfold bubbleFor. rewrite Hact, Hm. simpl.
    destruct (CharacterManager.getCharacter key cm); [|reflexivity].
    destruct Hc as [-> | ->]; reflexivity.
  - destruct (activeBubbles (updateBubbles cm s sbm).1 !! key) as [b|] eqn:E; [|reflexivity].
    apply updateBubbles_lookup in E.
    destruct E as (v & Hv & _ & ch & m' & txt & _ & Hm' & Htxt & Hne & _).
    rewrite Hm in Hm'. injection Hm' as <-.
    destruct Hc as [Hc | Hc]; rewrite Hc in Htxt; congruence.
  - intros s' k b E. apply updateBubbles_lookup in E.
    destruct E as (v & Hv & _ & ch & m' & txt & _ & Hm' & Htxt & Hne & ->).
    exists m'. simpl. auto.
Qed.

Lemma snapshotB_wf : Scene.wf Samples.snapshotB.
Proof.
  unfold Scene.wf. simpl. apply NoDup_cons. split; [|apply NoDup_singleton].
  intros H. apply list_elem_of_singleton in H. discriminate H.
Qed.

Lemma pendingTurn_wf : Scene.wf Samples.pendingTurn.
Proof.
  unfold Scene.wf. simpl. apply NoDup_cons. split; [|apply NoDup_singleton].
  intros H. apply list_elem_of_singleton in H. discriminate H.
Qed.

Lemma updateBubbles_no_bubble_for_non_speakers_witness :
  activeBubbles
    (updateBubbles (CharacterManager.updateCharacters Samples.snapshotB
                      CharacterManager.initial)
       Samples.snapshotB SpeechBubbleManager.initial).1 !! "alice" = None.
Proof.
  apply (updateBubbles_no_bubble_for_non_speakers _ Samples.snapshotB _ "alice"
           (Samples.character "alice" "Alice" 500 Scene.idle)).
  - exact snapshotB_wf.
  - right. left.
  - discriminate.
Defined.

Lemma updateBubbles_pending_turn_witness :
  let cm := CharacterManager.updateCharacters Samples.pendingTurn CharacterManager.initial in
  Scene.latestMessageOf "bob" Samples.pendingTurn = Some (Samples.says "bob" None 0) /\
  updateBubbles cm Samples.pendingTurn SpeechBubbleManager.initial
    = (SpeechBubbleManager.initial, Normal) /\
  activeBubbles (updateBubbles cm Samples.pendingTurn SpeechBubbleManager.initial).1
    !! "bob" = None.
Proof.
  cbv zeta.
  destruct (updateBubbles_pending_turn
              (CharacterManager.updateCharacters Samples.pendingTurn CharacterManager.initial)
              Samples.pendingTurn SpeechBubbleManager.initial "bob"
              (Samples.character "bob" "Bob" 200 Scene.speaking)
              (Samples.says "bob" None 0)) as (_ & Hnone & _).
  - exact pendingTurn_wf.
  - left.
  - reflexivity.
  - vm_compute. reflexivity.
  - left. reflexivity.
  - split; [vm_compute; reflexivity|]. split; [vm_compute; reflexivity | exact Hnone].
Defined.

(** The scenario of the specification: snapshot A has bob idle, snapshot B
    has bob speaking with the message "hello" of four seconds.  After B the
    bubble of bob holds "hello" and a progress bar of four seconds; alice
    has none. *)
Example snapshotB_scenario :
  let w := (StateManager.updateState Samples.snapshotB
              (StateManager.updateState Samples.snapshotA StateManager.initial).1) in
  w.2 = Normal /\
  (text <$> activeBubbles (speechBubbleManager w.1) !! "bob") = Some "hello" /\
  (progressBar <$> activeBubbles (speechBubbleManager w.1) !! "bob") = Some (Some 4) /\
  activeBubbles (speechBubbleManager w.1) !! "alice" = None.
Proof. cbv zeta. repeat apply conj; vm_compute; reflexivity. Qed.

(** *** C4: a speaking character without a message *)

Lemma updateCharacter_keeps (cm : CharacterManager.t)
    (e : string * Scene.CharacterState) (k : string) :
  is_Some (CharacterManager.characters cm !! k) ->
  is_Some (CharacterManager.characters (CharacterManager.updateCharacter cm e) !! k).
Proof.
  destruct e as [key charData]. unfold CharacterManager.updateCharacter. simpl.
  intros H. destruct (decide (key = k)) as [->|Hne].
  - rewrite lookup_insert_eq. eauto.
  - now rewrite lookup_insert_ne.
Qed.

Lemma updateCharacters_keeps (es : list (string * Scene.CharacterState))
    (cm : CharacterManager.t) (k : string) :
  is_Some (CharacterManager.characters cm !! k) ->
  is_Some (CharacterManager.characters (foldl CharacterManager.updateCharacter cm es) !! k).
Proof.
  revert cm. induction es as [|e es IH]; intros cm H; simpl; [exact H|].
  apply IH. now apply updateCharacter_keeps.
Qed.

(** [updateCharacters] registers every character of the snapshot. *)
Lemma updateCharacters_registers (s : Scene.SceneState) (cm : CharacterManager.t)
    (key : string) (value : Scene.CharacterState) :
  (key, value) ∈ Scene.characters s ->
  is_Some (CharacterManager.getCharacter key (CharacterManager.updateCharacters s cm)).
Proof.
  unfold CharacterManager.updateCharacters, CharacterManager.getCharacter.
  generalize (Scene.characters s). intros es. revert cm.
  induction es as [|e es IH]; intros cm Hin; [inversion Hin|].
  apply elem_of_cons in Hin. destruct Hin as [<- | Hin]; simpl.
  - apply updateCharacters_keeps. unfold CharacterManager.updateCharacter. simpl.
    rewrite lookup_insert_eq. eauto.
  - now apply IH.
Qed.

Lemma bubbleFor_throws cm s key value (sbm : t) e :
  (bubbleFor cm s (key, value) sbm).2 = Throw e ->
  e = TypeError "message is undefined".
Proof.
  unfold bubbleFor.
  destruct (bool_decide _); [|discriminate].
  destruct (CharacterManager.getCharacter key cm); [|discriminate].
  destruct (Scene.latestMessageOf key s) as [m|]; [|simpl; congruence].
  destruct (Scene.content m) as [txt|]; [|discriminate].
  destruct (Scene.truthy _); discriminate.
Qed.

Lemma forEntries_throws cm s (es : list (string * Scene.CharacterState)) (sbm : t)
    (key : string) (value : Scene.CharacterState) :
  (key, value) ∈ es ->
  (forall sbm', (bubbleFor cm s (key, value) sbm').2 <> Normal) ->
  (forEntries cm s es sbm).2 = Throw (TypeError "message is undefined").
Proof.
  revert sbm. induction es as [|[k v] es IH]; intros sbm Hin Hthrow; [inversion Hin|].
  simpl. unfold andThen.
  destruct (bubbleFor cm s (k, v) sbm) as [sbm1 [|e]] eqn:E1.
  - apply elem_of_cons in Hin. destruct Hin as [Heq | Hin].
    + injection Heq as -> ->. specialize (Hthrow sbm). rewrite E1 in Hthrow.
      simpl in Hthrow. congruence.
    + now apply IH.
  - simpl. f_equal. apply (bubbleFor_throws cm s k v sbm). now rewrite E1.
Qed.

(** In live mode, a snapshot with a speaking character that has no message
    in the log makes [updateState] throw. *)
Lemma updateState_throws_without_message (w : World) (s : Scene.SceneState)
    (key : string) (value : Scene.CharacterState) :
  isInHistoryMode w = false ->
  (key, value) ∈ Scene.characters s ->
  Scene.action value = Scene.speaking ->
  Scene.latestMessageOf key s = None ->
  (StateManager.updateState s w).2 = Throw (TypeError "message is undefined").
Proof.
  intros Hlive Hin Hact Hm. unfold StateManager.updateState.
  rewrite (andThen_normal _ _ w (StateManager.setCurrentState s w)) by reflexivity.
  simpl isInHistoryMode. rewrite Hlive.
  rewrite (andThen_normal _ _ _
             (withCharacters (CharacterManager.updateCharacters s)
                (StateManager.setCurrentState s w))) by reflexivity.
  unfold andThen at 1. unfold StateManager.updateBubbles at 1, withBubbles. simpl.
  set (cm' := CharacterManager.updateCharacters s (characterManager w)).
  assert (Ht : (updateBubbles cm' s (speechBubbleManager w)).2 =
                 Throw (TypeError "message is undefined")).
  { unfold updateBubbles.
    rewrite (andThen_normal _ _ _ (clearBubbles (speechBubbleManager w))) by reflexivity.
    apply (forEntries_throws cm' s _ _ key value Hin).
    intros sbm'. unfold bubbleFor. rewrite Hact, Hm. simpl.
    destruct (updateCharacters_registers s (characterManager w) key value Hin) as [ch Hch].
    fold cm' in Hch. rewrite Hch. discriminate. }
  destruct (updateBubbles cm' s (speechBubbleManager w)) as [sbm1 c]. simpl in *.
  subst c. reflexivity.
Qed.

(** C4, the failing input: bob is marked as speaking and has no message.
    [updateState] throws a TypeError at [message.content]; the bubble of
    alice, who comes after bob and has a message, is not created and the
    'sceneStateUpdate' event is not emitted, so the HistoryManager keeps its
    empty log. *)
Theorem updateBubbles_throws_without_message :
  let r := StateManager.updateState Samples.speakingWithoutMessage StateManager.initial in
  r.2 = Throw (TypeError "message is undefined") /\
  activeBubbles (speechBubbleManager r.1) !! "alice" = None /\
  HistoryManager.conversationHistory (historyManager r.1) = [].
Proof. cbv zeta. repeat apply conj; vm_compute; reflexivity. Qed.

End SpeechEffects.

(** ** Entering and leaving history mode: what the scene shows *)

Module ModeToggle.

Import CharacterManager.

(** What the scene shows of a character: its sprite (position, texture,
    animation, tint), the state and colour the bubbles read, whether the
    bounce tween runs and whether the thinking indicator is up. *)
Record View := {
  shownId : string;
  shownState : Scene.CharacterState;
  shownSprite : Sprite;
  shownColor : option string;
  bouncing : bool;
  thinkingShown : bool;
}.

Definition view (c : Character) : View :=
  {| shownId := id c;
     shownState := state c;
     shownSprite := sprite c;
     shownColor := color c;
     bouncing := match activeTween c with
                 | Some tw => running tw
                 | None => false
                 end;
     thinkingShown := match thinkingSprite c with
                      | Some _ => true
                      | None => false
                      end |}.

(** Two character objects that differ at most in their tween and their
    thinking sprite. *)
Definition sim (c c' : Character) : Prop :=
  id c = id c' /\ state c = state c' /\ sprite c = sprite c' /\ color c = color c'.

Definition simOpt (o o' : option Character) : Prop :=
  match o, o' with
  | Some c, Some c' => sim c c'
  | None, None => True
  | _, _ => False
  end.

Definition simAt (a b : CharacterManager.t) (k : string) : Prop :=
  simOpt (characters a !! k) (characters b !! k).

Lemma sim_refl c : sim c c.
Proof. repeat split. Qed.

Lemma simOpt_refl o : simOpt o o.
Proof. destruct o; simpl; [apply sim_refl | exact I]. Qed.

Lemma view_sim c c' : view c = view c' -> sim c c'.
Proof. intros H. injection H as H1 H2 H3 H4 _ _. repeat split; assumption. Qed.

Lemma sim_clearAnimations c c' : sim c c' -> sim c (clearAnimations c').
Proof. intros H. exact H. Qed.

(** Clearing the animations keeps every character and touches only tweens
    and thinking sprites. *)
Lemma clearCharactersAnimations_sim (cm : CharacterManager.t) (k : string) :
  simAt cm (clearCharactersAnimations cm) k.
Proof.
  unfold clearCharactersAnimations. revert k.
  apply (map_fold_weak_ind
           (fun (r : CharacterManager.t) (_ : gmap string Character) =>
              forall k, simAt cm r k)).
  - intros k. apply simOpt_refl.
  - intros i x m r _ IH k. specialize (IH k). unfold simAt in *. simpl.
    rewrite lookup_alter. destruct (decide (id x = k)) as [->|Hne]; [|exact IH].
    destruct (characters cm !! k), (characters r !! k); simpl in *; try contradiction;
      [apply sim_clearAnimations; exact IH | exact I].
Qed.

(** The callback of [updateCharacters] shows the same from similar objects. *)
Lemma updatedCharacter_view a key charData (o o' : option Character) :
  simOpt o o' ->
  view (updatedCharacter a key charData o) = view (updatedCharacter a key charData o').
Proof.
  destruct o as [c|], o' as [c'|]; simpl; try contradiction; [|reflexivity].
  intros (Hid & Hst & Hsp & Hcol).
  unfold updatedCharacter, updateCharacterState, view. simpl.
  rewrite Hid, Hst, Hsp.
  destruct (bool_decide (Scene.action charData = Scene.idle)); simpl.
  - destruct (Scene.startsWithThinking (Scene.action charData)); [|reflexivity].
    destruct (thinkingSprite c), (thinkingSprite c'); reflexivity.
  - destruct (negb (bool_decide (Scene.action charData = Scene.action (state c')))); simpl.
    + unfold createBounceTween. simpl.
      destruct (Scene.startsWithThinking (Scene.action charData)); [|reflexivity].
      destruct (thinkingSprite c), (thinkingSprite c'); reflexivity.
    + destruct (Scene.startsWithThinking (Scene.action charData));
        destruct (activeTween c), (activeTween c'); simpl; try reflexivity;
        destruct (thinkingSprite c), (thinkingSprite c'); reflexivity.
Qed.

Lemma updateCharacter_sim (a b : CharacterManager.t) (e : string * Scene.CharacterState) :
  assets a = assets b ->
  (forall k, simAt a b k) -> forall k, simAt (updateCharacter a e) (updateCharacter b e) k.
Proof.
  intros Ha H k. unfold simAt, updateCharacter. simpl.
  destruct (decide (e.1 = k)) as [<-|Hne].
  - rewrite !lookup_insert_eq. simpl. rewrite Ha. apply view_sim, updatedCharacter_view, H.
  - rewrite !lookup_insert_ne by assumption. apply H.
Qed.

Lemma foldl_updateCharacter_assets (es : list (string * Scene.CharacterState))
    (a : CharacterManager.t) :
  assets (foldl updateCharacter a es) = assets a.
Proof.
  revert a. induction es as [|e es IH]; intros a; simpl; [reflexivity|].
  now rewrite IH.
Qed.


Lemma updateCharacters_sim (es : list (string * Scene.CharacterState))
    (a b : CharacterManager.t) :
  assets a = assets b ->
  (forall k, simAt a b k) ->
  forall k, simAt (foldl updateCharacter a es) (foldl updateCharacter b es) k.
Proof.
  revert a b. induction es as [|e es IH]; intros a b Ha H; simpl; [exact H|].
  apply IH; [exact Ha | now apply updateCharacter_sim].
Qed.

(** The bubbles read the sprite and the colour of a character only. *)
Lemma bubbleFor_sim (a b : CharacterManager.t) (s : Scene.SceneState)
    (e : string * Scene.CharacterState) (sbm : SpeechBubbleManager.t) :
  (forall k, simAt a b k) ->
  SpeechBubbleManager.bubbleFor a s e sbm = SpeechBubbleManager.bubbleFor b s e sbm.
Proof.
  intros H. destruct e as [key value]. unfold SpeechBubbleManager.bubbleFor.
  destruct (bool_decide _); [|reflexivity].
  specialize (H key). unfold simAt in H. unfold getCharacter.
  unfold SpeechBubbleManager.createSpeechBubble, getCharacter.
  destruct (characters a !! key) as [c|], (characters b !! key) as [c'|];
    simpl in H; try contradiction; [|reflexivity].
  destruct H as (_ & _ & Hsp & Hcol).
  destruct (Scene.latestMessageOf key s) as [m|]; [|reflexivity].
  destruct (Scene.content m) as [txt|]; [|reflexivity].
  destruct (Scene.truthy (Some txt)); [|reflexivity].
  simpl. now rewrite Hsp, Hcol.
Qed.

Lemma forEntries_sim (a b : CharacterManager.t) (s : Scene.SceneState)
    (es : list (string * Scene.CharacterState)) (sbm : SpeechBubbleManager.t) :
  (forall k, simAt a b k) ->
  SpeechBubbleManager.forEntries a s es sbm = SpeechBubbleManager.forEntries b s es sbm.
Proof.
  intros H. revert sbm. induction es as [|e es IH]; intros sbm; simpl; [reflexivity|].
  unfold andThen. rewrite (bubbleFor_sim a b s e sbm H).
  destruct (SpeechBubbleManager.bubbleFor b s e sbm) as [sbm1 [|err]]; [apply IH|reflexivity].
Qed.

Lemma updateBubbles_sim (a b : CharacterManager.t) (s : Scene.SceneState)
    (sbm sbm' : SpeechBubbleManager.t) :
  (forall k, simAt a b k) ->
  SpeechBubbleManager.updateBubbles a s sbm = SpeechBubbleManager.updateBubbles b s sbm'.
Proof.
  intros H. unfold SpeechBubbleManager.updateBubbles, andThen, pureStep. simpl.
  apply forEntries_sim, H.
Qed.

(** Live mode after snapshots A and B. *)
Definition liveAfterB : World :=
  (StateManager.updateState Samples.snapshotB
     (StateManager.updateState Samples.snapshotA StateManager.initial).1).1.

(** The toggle on that state: bob's bubble is back with its text and its
    four seconds of progress bar, and bob does not bounce, as after pushing
    snapshot B a second time. *)
Example toggle_after_snapshotB :
  let back := (GameEvents.exitHistoryMode (GameEvents.enterHistoryMode liveAfterB).1).1 in
  (SpeechBubbleManager.text <$>
     SpeechBubbleManager.activeBubbles (speechBubbleManager back) !! "bob") = Some "hello" /\
  (SpeechBubbleManager.progressBar <$>
     SpeechBubbleManager.activeBubbles (speechBubbleManager back) !! "bob") = Some (Some 4) /\
  (bouncing ∘ view <$> characters (characterManager back) !! "bob") = Some false /\
  (bouncing ∘ view <$> characters (characterManager liveAfterB) !! "bob") = Some true.
Proof. cbv zeta. repeat apply conj; vm_compute; reflexivity. Qed.

End ModeToggle.

(** * Further properties of the transport channel *)

Module Channel.

Import SocketService.

Section WithApplication.

Context {A : Type}.

Local Abbreviation Service := (SocketService.t A).
Local Abbreviation Callback := (SocketService.Listener A).

(** ** connect() *)

(** [connect()] is idempotent: a second call finds the service connecting
    and returns at once, so repeated calls make at most one socket. *)
Theorem connect_idempotent (s : Service) :
  connect (connect s) = connect s /\
  (length (sockets (connect (connect s))) <= S (length (sockets s)))%nat.
Proof.
  assert (H : connect (connect s) = connect s).
  { unfold connect at 2 3.
    destruct (socketConnected s || isConnecting s) eqn:E.
    - unfold connect. now rewrite E.
    - unfold connect. simpl. now rewrite orb_true_r. }
  split; [exact H|]. rewrite H. unfold connect.
  destruct (socketConnected s || isConnecting s); simpl; [lia|].
  rewrite length_app. simpl. lia.
Qed.

(** ** The attempt counter counts the errors since the last 'connect' *)

(** Socket [i] is held by the service and was not closed. *)
Definition holding (i : nat) (s : Service) : Prop :=
  socket s = Some i /\ exists so, sockets s !! i = Some so /\ closed so = false.

Lemma onConnect_quiet (s : Service) :
  Transport.quiet NoData (listeners s connect_ev) ->
  exists a',
    onConnect s =
      (Transport.afterCallbacks (setIsConnecting false (setReconnectAttempts 0 s)) a'
         (Transport.entries connect_ev NoData (listeners s connect_ev)), Normal).
Proof.
  intros Hq. unfold onConnect, andThen, pureStep, notifyListeners. simpl.
  destruct (Transport.forEach_quiet connect_ev NoData (listeners s connect_ev)
              (setIsConnecting false (setReconnectAttempts 0 s)) Hq) as (a' & Ha').
  exists a'. exact Ha'.
Qed.

Lemma receive_error_holding (L : list Callback) (i n : nat) (m : string) (s : Service) :
  (forall d, Transport.quiet d L) ->
  holding i s -> reconnectAttempts s = n -> listeners s connect_error = L ->
  ((MAX_RECONNECT_ATTEMPTS <= S n)%nat ->
   socketConnected s = false \/ Transport.quiet NoData (listeners s disconnect_ev)) ->
  exists s', receive i (OnConnectError m) s = Some (s', Normal) /\
             reconnectAttempts s' = S n /\ listeners s' = listeners s /\
             if bool_decide (MAX_RECONNECT_ATTEMPTS <= S n)%nat
             then socket s' = None /\ isConnecting s' = false /\
                  exists so, sockets s' !! i = Some so /\ closed so = true
             else holding i s' /\ sockets s' = sockets s.
Proof.
  intros Hq (Hs & so & Hi & Hopen) Hn HL Hfinal. unfold receive. rewrite Hi, Hopen. simpl.
  destruct (Transport.onConnectError_quiet m s) as (a' & Ha'); [rewrite HL; apply Hq|].
  rewrite Ha', Hn. cbv zeta.
  destruct (bool_decide (MAX_RECONNECT_ATTEMPTS <= S n)%nat) eqn:E.
  - apply bool_decide_eq_true in E.
    set (s1 := Transport.afterCallbacks (setReconnectAttempts (S n) s) a' _).
    destruct (Transport.disconnect_shape s1 i Hs) as (b' & log & c & Hd & Hoff & _ & Hquiet).
    assert (Hc : c = Normal).
    { destruct (Hfinal E) as [Hc|Hc]; [apply Hoff, Hc | apply Hquiet, Hc]. }
    subst c. rewrite Hd. eexists. split; [reflexivity|]. simpl.
    split; [reflexivity|]. split; [reflexivity|]. split; [reflexivity|].
    split; [reflexivity|]. exists (close so). rewrite list_lookup_alter_eq, Hi. auto.
  - eexists. split; [reflexivity|]. simpl. split; [reflexivity|]. split; [reflexivity|].
    split; [|reflexivity]. split; [exact Hs|]. exists so. auto.
Qed.

Lemma receiveAll_errors_holding (L : list Callback) (i n : nat) (ms : list string)
    (s : Service) :
  (forall d, Transport.quiet d L) ->
  holding i s -> reconnectAttempts s = n -> listeners s connect_error = L ->
  (n + length ms < MAX_RECONNECT_ATTEMPTS)%nat ->
  exists s', receiveAll i (OnConnectError <$> ms) s = Some s' /\
             holding i s' /\ reconnectAttempts s' = (n + length ms)%nat /\
             listeners s' = listeners s /\ sockets s' = sockets s.
Proof.
  intros Hq. revert n s. induction ms as [|m ms IH]; intros n s Hh Hn HL Hlt; simpl in *.
  - exists s. rewrite Nat.add_0_r. auto.
  - destruct (receive_error_holding L i n m s Hq Hh Hn HL) as (s1 & H1 & Hn1 & HL1 & Hc);
      [lia|].
    rewrite bool_decide_false in Hc by lia. destruct Hc as (Hh1 & Hso1).
    rewrite H1. simpl.
    destruct (IH (S n) s1 Hh1 Hn1) as (s' & H' & Hh' & Hn' & HL' & Hso');
      [now rewrite HL1 | lia|].
    exists s'. split; [exact H'|]. split; [exact Hh'|]. split; [lia|].
    split; congruence.
Qed.

(** 'disconnect' reported by a socket the service holds: the socket stays
    with the service, not connected, whatever the listeners do. *)
Lemma receive_disconnect_holding (i : nat) (reason : string) (s : Service) :
  holding i s ->
  exists s' c, receive i (OnDisconnect reason) s = Some (s', c) /\
               holding i s' /\ socketConnected s' = false /\
               reconnectAttempts s' = reconnectAttempts s /\
               listeners s' = listeners s.
Proof.
  intros (Hs & so & Hi & Hopen). unfold receive. rewrite Hi, Hopen. simpl.
  set (s1 := setSockets (alter (markConnected false) i (sockets s)) s).
  rewrite (andThen_normal _ _ s s1) by reflexivity.
  unfold onDisconnect.
  rewrite (andThen_normal _ _ s1 (setIsConnecting false s1)) by reflexivity.
  unfold notifyListeners at 1. unfold andThen at 1.
  destruct (Transport.forEach_prefix disconnect_ev NoData
              (listeners (setIsConnecting false s1) disconnect_ev)
              (setIsConnecting false s1)) as (a' & n & Hn).
  destruct (forEach disconnect_ev NoData
              (listeners (setIsConnecting false s1) disconnect_ev)
              (setIsConnecting false s1)) as [s2 c].
  simpl in Hn. subst s2.
  assert (Hi1 : alter (markConnected false) i (sockets s) !! i
                = Some (markConnected false so))
    by (rewrite list_lookup_alter_eq, Hi; reflexivity).
  destruct c as [|e].
  - unfold pureStep. destruct (String.eqb reason "io server disconnect").
    + eexists _, Normal. split; [reflexivity|]. simpl. rewrite Hs. simpl.
      split.
      { split; [exact Hs|]. exists (reopen (markConnected false so)).
        simpl. rewrite list_lookup_alter_eq, Hi1. auto. }
      split; [|auto].
      unfold socketConnected. simpl. rewrite Hs, list_lookup_alter_eq, Hi1. reflexivity.
    + eexists _, Normal. split; [reflexivity|]. simpl.
      split; [split; [exact Hs|]; exists (markConnected false so); auto|].
      split; [|auto]. unfold socketConnected. simpl. now rewrite Hs, Hi1.
  - eexists _, (Throw e). split; [reflexivity|]. simpl.
    split; [split; [exact Hs|]; exists (markConnected false so); auto|].
    split; [|auto]. unfold socketConnected. simpl. now rewrite Hs, Hi1.
Qed.

(** A successful connection gives the full number of attempts back.  The
    service holds an open socket and has counted any number of errors; the
    socket reports 'connect' and later connection errors (listeners of
    'connect' and 'connect_error' returning normally).  After 'connect'
    and four errors the service still holds the socket and has counted
    four.  The fifth error releases the socket: always when the connection
    was lost in between ('disconnect' for whatever reason, as socket.io
    reports it before it retries), and, should the errors follow 'connect'
    directly, when the listeners of 'disconnect' return normally, since
    [disconnect()] then runs on a connected socket. *)
Theorem connect_event_restores_attempts (s : Service) (i : nat) (messages : list string) :
  holding i s ->
  Transport.quiet NoData (listeners s connect_ev) ->
  (forall d, Transport.quiet d (listeners s connect_error)) ->
  length messages = MAX_RECONNECT_ATTEMPTS ->
  (exists s4,
     receiveAll i (OnConnect :: (OnConnectError <$> take 4 messages)) s = Some s4 /\
     holding i s4 /\ reconnectAttempts s4 = 4%nat) /\
  (forall reason, exists s5,
     receiveAll i (OnConnect :: OnDisconnect reason :: (OnConnectError <$> messages)) s
       = Some s5 /\
     socket s5 = None /\ reconnectAttempts s5 = MAX_RECONNECT_ATTEMPTS) /\
  (Transport.quiet NoData (listeners s disconnect_ev) ->
   exists s5,
     receiveAll i (OnConnect :: (OnConnectError <$> messages)) s = Some s5 /\
     socket s5 = None /\ reconnectAttempts s5 = MAX_RECONNECT_ATTEMPTS).
Proof.
  intros (Hs & so & Hi & Hopen) Hqc Hqe Hlen.
  assert (H0 : exists s0, receive i OnConnect s = Some (s0, Normal) /\
                 holding i s0 /\ reconnectAttempts s0 = 0%nat /\
                 listeners s0 = listeners s).
  { unfold receive. rewrite Hi, Hopen. simpl. unfold andThen, pureStep.
    destruct (onConnect_quiet
                (setSockets (alter (markConnected true) i (sockets s)) s) Hqc) as (a' & Ha').
    rewrite Ha'. eexists. split; [reflexivity|]. simpl.
    split; [|auto]. split; [exact Hs|].
    exists (markConnected true so). simpl. rewrite list_lookup_alter_eq, Hi. auto. }
  destruct H0 as (s0 & H0 & Hh0 & Hn0 & HL0).
  assert (Hmsgs : exists m5, messages = take 4 messages ++ [m5]).
  { destruct (drop 4 messages) as [|m5 rest] eqn:Hd.
    { apply (f_equal length) in Hd. rewrite length_drop in Hd. simpl in Hd.
      unfold MAX_RECONNECT_ATTEMPTS in Hlen. lia. }
    assert (rest = []) as ->.
    { apply (f_equal length) in Hd. rewrite length_drop in Hd. simpl in Hd.
      unfold MAX_RECONNECT_ATTEMPTS in Hlen. destruct rest; [reflexivity|simpl in Hd; lia]. }
    exists m5. now rewrite <- Hd, take_drop. }
  destruct Hmsgs as (m5 & Hm5).
  (* five errors from a state with the counter at zero *)
  assert (Hfive : forall t0 : Service,
            holding i t0 -> reconnectAttempts t0 = 0%nat -> listeners t0 = listeners s ->
            socketConnected t0 = false \/ Transport.quiet NoData (listeners s disconnect_ev) ->
            exists s5, receiveAll i (OnConnectError <$> messages) t0 = Some s5 /\
                       socket s5 = None /\ reconnectAttempts s5 = MAX_RECONNECT_ATTEMPTS).
  { intros t0 Ht0 Hn Hl Hsilent.
    destruct (receiveAll_errors_holding _ i 0 (take 4 messages) t0 Hqe Ht0 Hn)
      as (t4 & H4 & Hh4 & Hn4 & HL4 & Hso4).
    { now rewrite Hl. }
    { rewrite length_take. unfold MAX_RECONNECT_ATTEMPTS. lia. }
    rewrite length_take in Hn4.
    assert (Hn4' : reconnectAttempts t4 = 4%nat)
      by (unfold MAX_RECONNECT_ATTEMPTS in Hlen; lia).
    destruct (receive_error_holding _ i 4 m5 t4 Hqe Hh4 Hn4')
      as (s5 & H5 & Hn5 & _ & Hc).
    { now rewrite HL4, Hl. }
    { intros _. destruct Hsilent as [Hoff|Hquiet].
      - left. unfold socketConnected in *.
        destruct Hh4 as (Hs4 & _), Ht0 as (Hst0 & _).
        rewrite Hs4, Hso4. rewrite Hst0 in Hoff. exact Hoff.
      - right. now rewrite HL4, Hl. }
    rewrite bool_decide_true in Hc by (unfold MAX_RECONNECT_ATTEMPTS; lia).
    exists s5. rewrite Hm5, fmap_app.
    rewrite (Transport.receiveAll_app _ _ _ _ _ H4). simpl. rewrite H5. simpl.
    destruct Hc as (Hnone & _). auto. }
  split; [|split].
  - destruct (receiveAll_errors_holding _ i 0 (take 4 messages) s0 Hqe Hh0 Hn0)
      as (s4 & H4 & Hh4 & Hn4 & _).
    { now rewrite HL0. }
    { rewrite length_take. unfold MAX_RECONNECT_ATTEMPTS. lia. }
    rewrite length_take in Hn4.
    exists s4. simpl. rewrite H0. simpl.
    split; [exact H4|]. split; [exact Hh4|].
    unfold MAX_RECONNECT_ATTEMPTS in Hlen. lia.
  - intros reason.
    destruct (receive_disconnect_holding i reason s0 Hh0) as (s1 & c & H1 & Hh1 & Hoff & Hn1 & HL1).
    destruct (Hfive s1 Hh1) as (s5 & H5 & Hr5); [congruence | congruence | now left|].
    exists s5. simpl. rewrite H0. simpl. rewrite H1. simpl. auto.
  - intros Hquiet.
    destruct (Hfive s0 Hh0 Hn0 HL0) as (s5 & H5 & Hr5); [now right|].
    exists s5. simpl. rewrite H0. simpl. auto.
Qed.

(** ** 'disconnect' *)

(** A disconnect that the server initiated makes the service call
    [socket.connect()] once on the socket it holds, and no other reason
    does; the attempt counter is not touched either way, and the service no
    longer counts as connecting (listeners of 'disconnect' returning
    normally). *)
Theorem server_disconnect_reconnects_once (s : Service) (i : nat) (so : Socket)
    (reason : string) :
  socket s = Some i ->
  sockets s !! i = Some so ->
  closed so = false ->
  Transport.quiet NoData (listeners s disconnect_ev) ->
  exists s',
    receive i (OnDisconnect reason) s = Some (s', Normal) /\
    socket s' = Some i /\
    isConnecting s' = false /\
    reconnectAttempts s' = reconnectAttempts s /\
    sockets s' !! i =
      Some {| connected := false; closed := false;
              connectCalls := if String.eqb reason "io server disconnect"
                              then S (connectCalls so) else connectCalls so |}.
Proof.
  intros Hs Hi Hopen Hq. unfold receive. rewrite Hi, Hopen. simpl.
  unfold andThen at 1. unfold pureStep at 1.
  unfold onDisconnect, andThen, pureStep, notifyListeners. simpl.
  destruct (Transport.forEach_quiet disconnect_ev NoData (listeners s disconnect_ev)
              (setIsConnecting false
                 (setSockets (alter (markConnected false) i (sockets s)) s)) Hq)
    as (a' & Ha').
  rewrite Ha'. eexists. split; [reflexivity|].
  destruct (String.eqb reason "io server disconnect"); simpl; rewrite ?Hs; simpl.
  - repeat split; try exact Hs. rewrite !list_lookup_alter_eq, Hi. simpl.
    unfold reopen, markConnected. simpl. now rewrite Hopen.
  - repeat split; try exact Hs. rewrite list_lookup_alter_eq, Hi. simpl.
    unfold markConnected. now rewrite Hopen.
Qed.

(** ** The listener sets *)

Lemma lids_filter (P : Callback -> Prop) `{forall l, Decision (P l)}
    (ls : list Callback) (n : nat) :
  n ∈ lid <$> filter P ls -> n ∈ lid <$> ls.
Proof.
  intros Hin. apply list_elem_of_fmap in Hin. destruct Hin as (l & -> & Hl).
  apply list_elem_of_filter in Hl. destruct Hl as [_ Hl].
  apply list_elem_of_fmap. eauto.
Qed.

Lemma lids_filter_NoDup (P : Callback -> Prop) `{forall l, Decision (P l)}
    (ls : list Callback) :
  NoDup (lid <$> ls) -> NoDup (lid <$> filter P ls).
Proof.
  induction ls as [|l ls IH]; simpl; intros Hnd; [constructor|].
  apply NoDup_cons in Hnd. destruct Hnd as [Hnotin Hnd].
  rewrite filter_cons. destruct (decide (P l)); [|now apply IH].
  simpl. apply NoDup_cons. split; [|now apply IH].
  intros Hin. apply Hnotin. now apply (lids_filter P).
Qed.

Lemma hasListener_setDelete (l : Callback) (ls : list Callback) :
  hasListener l (setDelete l ls) = false.
Proof.
  unfold hasListener, setDelete. apply bool_decide_eq_false.
  intros Hin. apply list_elem_of_fmap in Hin. destruct Hin as (l' & Heq & Hl').
  apply list_elem_of_filter in Hl'. destruct Hl' as [Hne _]. congruence.
Qed.

Lemma hasListener_take (l : Callback) (ls : list Callback) (n : nat) :
  hasListener l ls = false -> hasListener l (take n ls) = false.
Proof.
  unfold hasListener. rewrite !bool_decide_eq_false. intros Hnot Hin. apply Hnot.
  apply list_elem_of_fmap in Hin. destruct Hin as (l' & -> & Hl').
  apply list_elem_of_fmap. exists l'. split; [reflexivity|].
  apply elem_of_take in Hl'. destruct Hl' as (j & Hj & _).
  apply list_elem_of_lookup. eauto.
Qed.

Lemma filter_all (P : Callback -> Prop) `{forall l, Decision (P l)}
    (ls : list Callback) :
  (forall l, l ∈ ls -> P l) -> filter P ls = ls.
Proof.
  induction ls as [|l ls IH]; intros Hall; [reflexivity|].
  rewrite filter_cons. destruct (decide (P l)) as [_|Hn].
  - f_equal. apply IH. intros l' Hl'. apply Hall. now right.
  - exfalso. apply Hn, Hall. left.
Qed.

(** [delete] after [add] of a callback that was not a member. *)
Lemma setDelete_setAdd (l : Callback) (ls : list Callback) :
  hasListener l ls = false -> setDelete l (setAdd l ls) = ls.
Proof.
  intros Hnew.
  unfold setAdd. rewrite Hnew. unfold setDelete. rewrite filter_app.
  rewrite (filter_cons _ l []). destruct (decide (lid l <> lid l)) as [Hne|_];
    [contradiction|].
  rewrite filter_nil, app_nil_r. apply filter_all.
  intros l' Hl' Heq. unfold hasListener in Hnew. apply bool_decide_eq_false in Hnew.
  apply Hnew. rewrite <- Heq. apply list_elem_of_fmap. eauto.
Qed.

(** Subscribing a new callback and removing it again gives the listener
    sets back as they were, in content and in order. *)
Theorem removeListener_addListener (event : EventKind) (l : Callback) (s : Service) :
  hasListener l (listeners s event) = false ->
  forall e, listeners (removeListener event l (addListener event l s)) e = listeners s e.
Proof.
  intros Hnew e. simpl.
  destruct (bool_decide (e = event)) eqn:E; [|reflexivity].
  apply bool_decide_eq_true in E. subst e.
  now apply setDelete_setAdd.
Qed.

(** After [removeListener] the callback is no longer in the set of the
    event, a round of notifications does not reach it, and the
    subscription of every other callback is as before. *)
Theorem removeListener_stops_delivery (event : EventKind) (l : Callback)
    (data : Payload) (s : Service) :
  let s' := removeListener event l s in
  hasListener l (listeners s' event) = false /\
  deliveriesTo l (delivered (notifyListeners event data s').1) =
    deliveriesTo l (delivered s) /\
  (forall l', lid l' <> lid l ->
     hasListener l' (listeners s' event) = hasListener l' (listeners s event)).
Proof.
  cbv zeta.
  assert (Hls : listeners (removeListener event l s) event =
                  setDelete l (listeners s event)).
  { simpl. now rewrite bool_decide_true. }
  split; [|split].
  - rewrite Hls. apply hasListener_setDelete.
  - unfold notifyListeners.
    destruct (Transport.forEach_prefix event data
                (listeners (removeListener event l s) event)
                (removeListener event l s)) as (a' & n & Hn).
    rewrite Hn. simpl. rewrite Transport.deliveriesTo_app.
    rewrite Transport.deliveriesTo_others; [now rewrite app_nil_r|].
    apply hasListener_take. rewrite bool_decide_true by reflexivity.
    apply hasListener_setDelete.
  - intros l' Hne. rewrite Hls. unfold hasListener, setDelete.
    apply bool_decide_ext. split.
    + apply lids_filter.
    + intros Hin. apply list_elem_of_fmap in Hin. destruct Hin as (l2 & Heq & Hl2).
      apply list_elem_of_fmap. exists l2. split; [exact Heq|].
      apply list_elem_of_filter. split; [congruence | exact Hl2].
Qed.

(** No callback is in a set twice. *)
Definition distinct (s : Service) : Prop :=
  forall e, NoDup (lid <$> listeners s e).

Lemma deliveriesTo_distinct (l : Callback) event data (ls : list Callback) :
  NoDup (lid <$> ls) ->
  (length (deliveriesTo l (Transport.entries event data ls)) <= 1)%nat.
Proof.
  induction ls as [|l' ls IH]; simpl; intros Hnd; [lia|].
  apply NoDup_cons in Hnd. destruct Hnd as [Hnotin Hnd].
  destruct (bool_decide (lid l' = lid l)) eqn:E.
  - apply bool_decide_eq_true in E.
    fold (Transport.entries event data ls).
    rewrite Transport.deliveriesTo_others; [simpl; lia|].
    unfold hasListener. apply bool_decide_eq_false. now rewrite <- E.
  - now apply IH.
Qed.

(** The sets are real sets: starting from sets without duplicates,
    [addListener] and [removeListener] keep them so (adding a callback a
    second time changes nothing), and one round of notifications calls a
    callback at most once. *)
Theorem listeners_distinct (event : EventKind) (l : Callback) (s : Service) :
  distinct s ->
  distinct (addListener event l s) /\
  distinct (removeListener event l s) /\
  (forall e, listeners (addListener event l (addListener event l s)) e =
             listeners (addListener event l s) e) /\
  (forall data,
     length (deliveriesTo l (delivered (notifyListeners event data s).1))
     <= S (length (deliveriesTo l (delivered s))))%nat.
Proof.
  intros Hd. split; [|split; [|split]].
  - intros e. simpl. destruct (bool_decide (e = event)); [|apply Hd].
    unfold setAdd. destruct (hasListener l (listeners s e)) eqn:E; [apply Hd|].
    rewrite fmap_app. apply NoDup_app. split; [apply Hd|]. split; [|apply NoDup_singleton].
    intros n Hn Hn'. apply list_elem_of_singleton in Hn'. subst n.
    unfold hasListener in E. apply bool_decide_eq_false in E. contradiction.
  - intros e. simpl. destruct (bool_decide (e = event)); [|apply Hd].
    unfold setDelete. apply lids_filter_NoDup, Hd.
  - intros e. simpl. destruct (bool_decide (e = event)) eqn:E; [|reflexivity].
    unfold setAdd at 1.
    assert (H : hasListener l (setAdd l (listeners s e)) = true).
    { unfold setAdd. destruct (hasListener l (listeners s e)) eqn:E'; [exact E'|].
      unfold hasListener. apply bool_decide_eq_true.
      rewrite fmap_app. apply elem_of_app. right. left. }
    now rewrite H.
  - intros data. unfold notifyListeners.
    destruct (Transport.forEach_prefix event data (listeners s event) s) as (a' & n & Hn).
    rewrite Hn. simpl. rewrite Transport.deliveriesTo_app, length_app.
    assert (H : (length (deliveriesTo l
                   (Transport.entries event data (take n (listeners s event)))) <= 1)%nat).
    { apply deliveriesTo_distinct. rewrite fmap_take.
      apply (sublist_NoDup _ (lid <$> listeners s event)); [apply Hd | apply sublist_take]. }
    lia.
Qed.

End WithApplication.

End Channel.

(** * Tearing the listeners down (EventManager.destroy, ConnectionManager.destroy) *)

Module Teardown.

Import SocketService.

(** [this.handleSceneStateUpdate.bind(this)]: each evaluation of the
    expression makes a new function object with the same behaviour; [n]
    tells the objects apart.  The object subscribed by
    [EventManager.setupEventListeners] is number 0. *)
Definition boundHandleSceneStateUpdate (n : nat) : Listener World :=
  {| lid := n; call := call EventManager.handleSceneStateUpdate |}.

(** EventManager.destroy, the part that unsubscribes from the socket: the
    argument of [removeListener] is a newly bound function. *)
Definition eventManagerDestroy (n : nat) (s : SocketService.t World)
  : SocketService.t World :=
  removeListener scene_state (boundHandleSceneStateUpdate n) s.

(** ConnectionManager.destroy: the three callbacks are the arrow functions
    stored in the fields of the manager, the very objects subscribed. *)
Definition connectionManagerDestroy (s : SocketService.t ConnectionManager.t)
  : SocketService.t ConnectionManager.t :=
  removeListener connect_error ConnectionManager.onConnectError
    (removeListener disconnect_ev ConnectionManager.onDisconnect
       (removeListener connect_ev ConnectionManager.onConnect s)).

(** EventManager.destroy does not unsubscribe the EventManager: the function
    it passes to [removeListener] is a new object, which is in no listener
    set, so the listener sets stay as they are and a snapshot pushed after
    [destroy] still reaches [StateManager.updateState]. *)
Theorem eventManagerDestroy_keeps_listener (n : nat) (s : SocketService.t World)
    (state : Scene.SceneState) :
  n <> 0%nat ->
  listeners s scene_state = [] ->
  let s' := eventManagerDestroy n (EventManager.setupEventListeners s) in
  (forall e, listeners s' e = listeners (EventManager.setupEventListeners s) e) /\
  listeners s' scene_state = [EventManager.handleSceneStateUpdate] /\
  currentState (app (onSceneState state s').1) = Some state.
Proof.
  intros Hn Hempty. cbv zeta.
  assert (Hls : forall e, listeners (eventManagerDestroy n (EventManager.setupEventListeners s)) e
                          = listeners (EventManager.setupEventListeners s) e).
  { intros e. unfold eventManagerDestroy, EventManager.setupEventListeners. simpl.
    destruct (bool_decide (e = scene_state)) eqn:E; [|reflexivity].
    apply bool_decide_eq_true in E. subst e. rewrite Hempty. simpl.
    change (setAdd EventManager.handleSceneStateUpdate [])
      with [EventManager.handleSceneStateUpdate].
    unfold setDelete. rewrite filter_cons. simpl.
    destruct (decide (0%nat <> n)) as [_|Hc]; [reflexivity|].
    exfalso. apply Hc. congruence. }
  assert (Hone : listeners (eventManagerDestroy n (EventManager.setupEventListeners s))
                   scene_state = [EventManager.handleSceneStateUpdate]).
  { rewrite Hls. unfold EventManager.setupEventListeners. simpl. now rewrite Hempty. }
  split; [exact Hls|]. split; [exact Hone|].
  unfold onSceneState, notifyListeners. rewrite Hone. cbn [forEach]. unfold andThen.
  rewrite Transport.invoke_shape.
  set (s1 := eventManagerDestroy n (EventManager.setupEventListeners s)).
  change (call EventManager.handleSceneStateUpdate (SceneData state) (app s1))
    with (StateManager.updateState state (app s1)).
  pose proof (LastWriteWins.updateState_currentState state (app s1)) as Hcur.
  destruct (StateManager.updateState state (app s1)) as [w' [|e]]; simpl in *; exact Hcur.
Qed.

Lemma eventManagerDestroy_keeps_listener_witness :
  let s' := eventManagerDestroy 1 (EventManager.setupEventListeners
                                     (initial StateManager.initial)) in
  listeners s' scene_state = [EventManager.handleSceneStateUpdate] /\
  currentState (app (onSceneState Samples.snapshotB s').1) = Some Samples.snapshotB.
Proof.
  destruct (eventManagerDestroy_keeps_listener 1 (initial StateManager.initial)
              Samples.snapshotB) as (_ & H1 & H2); [lia | reflexivity |].
  split; [exact H1 | exact H2].
Defined.

(** ConnectionManager.destroy undoes ConnectionManager.setupEventListeners:
    when its three callbacks were not subscribed before, the listener sets
    after set-up and destroy are the ones before set-up. *)
Theorem connectionManagerDestroy_setup (s : SocketService.t ConnectionManager.t) :
  hasListener ConnectionManager.onConnect (listeners s connect_ev) = false ->
  hasListener ConnectionManager.onDisconnect (listeners s disconnect_ev) = false ->
  hasListener ConnectionManager.onConnectError (listeners s connect_error) = false ->
  forall e,
    listeners (connectionManagerDestroy (ConnectionManager.setupEventListeners s)) e =
    listeners s e.
Proof.
  intros H1 H2 H3 e.
  pose proof (Channel.setDelete_setAdd _ _ H1) as R1.
  pose proof (Channel.setDelete_setAdd _ _ H2) as R2.
  pose proof (Channel.setDelete_setAdd _ _ H3) as R3.
  unfold connectionManagerDestroy, ConnectionManager.setupEventListeners.
  destruct e; simpl in *.
  - reflexivity.
  - exact R1.
  - exact R2.
  - exact R3.
Qed.

Lemma connectionManagerDestroy_setup_witness :
  listeners (connectionManagerDestroy
               (ConnectionManager.setupEventListeners
                  (initial ConnectionManager.initial))) connect_error = [].
Proof.
  exact (connectionManagerDestroy_setup (initial ConnectionManager.initial)
           eq_refl eq_refl eq_refl connect_error).
Defined.

End Teardown.

(** * The connection-status indicator (ConnectionManager.ts) *)

Module Indicator.

Import SocketService.

(** The three texts of [updateConnectionStatus]: "Connected",
    "Reconnecting (n/5)..." and "Disconnected". *)
Inductive Status :=
| Connected
| Reconnecting (attempt : nat)
| Disconnected.

Definition status (c : ConnectionManager.t) : Status :=
  if ConnectionManager.isConnected c then Connected
  else if (0 <? ConnectionManager.reconnectAttempt c)%nat
       then Reconnecting (ConnectionManager.reconnectAttempt c)
       else Disconnected.

(** What reaches the service: calls of its methods and events of sockets. *)
Inductive Action :=
| CallConnect
| CallDisconnect
| Emit (i : nat) (ev : SocketEvent).

(** An event of a socket that cannot emit any more does not happen. *)
Definition perform (a : Action) (s : SocketService.t ConnectionManager.t)
  : SocketService.t ConnectionManager.t :=
  match a with
  | CallConnect => connect s
  | CallDisconnect => (disconnect s).1
  | Emit i ev => match receive i ev s with
                 | Some r => r.1
                 | None => s
                 end
  end.

Definition performAll (acts : list Action) (s : SocketService.t ConnectionManager.t)
  : SocketService.t ConnectionManager.t :=
  foldl (fun s a => perform a s) s acts.

(** The listeners are those of [ConnectionManager.setupEventListeners]. *)
Definition wired (s : SocketService.t ConnectionManager.t) : Prop :=
  listeners s connect_ev = [ConnectionManager.onConnect] /\
  listeners s disconnect_ev = [ConnectionManager.onDisconnect] /\
  listeners s connect_error = [ConnectionManager.onConnectError] /\
  listeners s scene_state = [].

(** The indicator shows the counter of the service. *)
Definition inStep (s : SocketService.t ConnectionManager.t) : Prop :=
  wired s /\ ConnectionManager.reconnectAttempt (app s) = reconnectAttempts s.

Lemma disconnect_inStep (s : SocketService.t ConnectionManager.t) :
  inStep s -> inStep (disconnect s).1 /\ (disconnect s).2 = Normal.
Proof.
  intros ((H1 & H2 & H3 & H4) & Hc). unfold disconnect.
  destruct (socket s) as [i|] eqn:Hs; [|repeat split; assumption].
  unfold socketDisconnect, andThen.
  destruct (sockets s !! i) as [so|] eqn:Hi; [destruct (connected so) eqn:Hcon|].
  - unfold onDisconnect, andThen, pureStep, notifyListeners. simpl. rewrite H2. simpl.
    repeat split; assumption.
  - repeat split; assumption.
  - repeat split; assumption.
Qed.

Lemma handler_inStep (i : nat) (ev : SocketEvent) (s : SocketService.t ConnectionManager.t) :
  inStep s -> inStep (handler i ev s).1 /\ (handler i ev s).2 = Normal.
Proof.
  intros ((H1 & H2 & H3 & H4) & Hc). destruct ev; simpl.
  - unfold onConnect, andThen, pureStep, notifyListeners. simpl. rewrite H1. simpl.
    unfold andThen. simpl. repeat split; assumption.
  - unfold onConnectError, andThen, pureStep, notifyListeners. simpl. rewrite H3. simpl.
    unfold andThen. simpl.
    destruct (bool_decide (MAX_RECONNECT_ATTEMPTS <= S (reconnectAttempts s))%nat).
    + apply disconnect_inStep. repeat split; try assumption. simpl. now rewrite Hc.
    + simpl. repeat split; try assumption. now rewrite Hc.
  - unfold onDisconnect, andThen, pureStep, notifyListeners. simpl. rewrite H2. simpl.
    unfold andThen. simpl.
    destruct (String.eqb reason "io server disconnect"); simpl.
    + destruct (socket s); simpl; repeat split; assumption.
    + repeat split; assumption.
  - unfold onError, pureStep. simpl. repeat split; assumption.
  - unfold onSceneState, notifyListeners. rewrite H4. simpl. repeat split; assumption.
Qed.

Lemma perform_inStep (a : Action) (s : SocketService.t ConnectionManager.t) :
  inStep s -> inStep (perform a s).
Proof.
  intros H. destruct a as [| |i ev]; simpl.
  - destruct H as ((H1 & H2 & H3 & H4) & Hc). unfold connect.
    destruct (socketConnected s || isConnecting s); repeat split; assumption.
  - now apply disconnect_inStep.
  - unfold receive. destruct (sockets s !! i) as [so|]; [|exact H].
    destruct (closed so); [exact H|]. simpl. now apply handler_inStep.
Qed.

(** The attempt number of the indicator is the attempt counter of the
    service, after every sequence of [connect()], [disconnect()] and socket
    events, once the ConnectionManager has subscribed its listeners. *)
Theorem indicator_shows_reconnectAttempts (acts : list Action)
    (s : SocketService.t ConnectionManager.t) :
  inStep s ->
  ConnectionManager.reconnectAttempt (app (performAll acts s)) =
    reconnectAttempts (performAll acts s).
Proof.
  intros H.
  assert (Hall : inStep (performAll acts s)).
  { unfold performAll. revert s H. induction acts as [|a acts IH]; intros s H; simpl.
    - exact H.
    - apply IH. now apply perform_inStep. }
  exact (proj2 Hall).
Qed.

Lemma presenterService_inStep : inStep Transport.presenterService.
Proof. repeat split. Qed.

Lemma indicator_shows_reconnectAttempts_witness :
  let s := performAll [CallConnect; Emit 0 (OnConnectError "timeout");
                       Emit 0 OnConnect; Emit 0 (OnDisconnect "transport close");
                       Emit 0 (OnConnectError "timeout");
                       Emit 0 (OnConnectError "timeout")]
             Transport.presenterService in
  ConnectionManager.reconnectAttempt (app s) = reconnectAttempts s.
Proof.
  exact (indicator_shows_reconnectAttempts _ Transport.presenterService
           presenterService_inStep).
Defined.

Lemma wired_quiet (s : SocketService.t ConnectionManager.t) :
  wired s -> forall d, Transport.quiet d (listeners s connect_error).
Proof.
  intros (_ & _ & H3 & _) d l Hl a. rewrite H3 in Hl.
  apply list_elem_of_singleton in Hl. subst l. reflexivity.
Qed.

Lemma receiveAll_inStep (i : nat) (evs : list SocketEvent)
    (s s' : SocketService.t ConnectionManager.t) :
  inStep s -> receiveAll i evs s = Some s' -> inStep s'.
Proof.
  revert s. induction evs as [|ev evs IH]; intros s H Hrun; simpl in Hrun.
  - now injection Hrun as <-.
  - destruct (receive i ev s) as [r|] eqn:Er; [|discriminate].
    apply (IH r.1); [|exact Hrun].
    unfold receive in Er. destruct (sockets s !! i) as [so|]; [|discriminate].
    destruct (closed so); [discriminate|]. injection Er as <-.
    now apply handler_inStep.
Qed.

Lemma disconnect_isConnected (s : SocketService.t ConnectionManager.t) :
  wired s -> ConnectionManager.isConnected (app s) = false ->
  ConnectionManager.isConnected (app (disconnect s).1) = false.
Proof.
  intros (H1 & H2 & H3 & H4) Hoff. unfold disconnect.
  destruct (socket s) as [i|] eqn:Hs; [|exact Hoff].
  unfold socketDisconnect, andThen.
  destruct (sockets s !! i) as [so|] eqn:Hi; [destruct (connected so) eqn:Hcon|];
    try exact Hoff.
  unfold onDisconnect, andThen, pureStep, notifyListeners. simpl. rewrite H2. reflexivity.
Qed.

Lemma receiveAll_errors_isConnected (i : nat) (ms : list string)
    (s s' : SocketService.t ConnectionManager.t) :
  inStep s -> receiveAll i (OnConnectError <$> ms) s = Some s' ->
  ConnectionManager.isConnected (app s) = false ->
  ConnectionManager.isConnected (app s') = false.
Proof.
  revert s. induction ms as [|m ms IH]; intros s H Hrun Hoff; simpl in Hrun.
  - now injection Hrun as <-.
  - destruct (receive i (OnConnectError m) s) as [r|] eqn:Er; [|discriminate].
    unfold receive in Er. destruct (sockets s !! i) as [so|]; [|discriminate].
    destruct (closed so); [discriminate|]. injection Er as <-.
    apply (IH _ (proj1 (handler_inStep i (OnConnectError m) s H)) Hrun).
    destruct H as ((H1 & H2 & H3 & H4) & Hc). simpl.
    unfold onConnectError, andThen, pureStep, notifyListeners. simpl. rewrite H3. simpl.
    unfold andThen. simpl.
    destruct (bool_decide (MAX_RECONNECT_ATTEMPTS <= S (reconnectAttempts s))%nat);
      [|exact Hoff].
    apply disconnect_isConnected; [repeat split; assumption | exact Hoff].
Qed.

(** When the attempts are used up the indicator keeps the text
    "Reconnecting (5/5)...": a service that was not connected calls
    [connect()] and its socket reports five connection errors; the service
    then holds no socket, and the status shown is not "Disconnected" but the
    fifth attempt. *)
Theorem indicator_after_exhaustion (s : SocketService.t ConnectionManager.t)
    (messages : list string) :
  inStep s ->
  socketConnected s = false ->
  isConnecting s = false ->
  reconnectAttempts s = 0%nat ->
  ConnectionManager.isConnected (app s) = false ->
  length messages = MAX_RECONNECT_ATTEMPTS ->
  exists s5,
    receiveAll (length (sockets s)) (OnConnectError <$> messages) (connect s) = Some s5 /\
    socket s5 = None /\
    status (app s5) = Reconnecting MAX_RECONNECT_ATTEMPTS.
Proof.
  intros Hin Hc Hi Hn Hdis Hlen.
  assert (Hin' : inStep (connect s)) by apply (perform_inStep CallConnect s Hin).
  assert (Hq : forall d, Transport.quiet d (listeners (connect s) connect_error))
    by apply wired_quiet, Hin'.
  assert (Hh : Channel.holding (length (sockets s)) (connect s)).
  { unfold connect. rewrite Hc, Hi. simpl. split; [reflexivity|].
    exists Transport.freshSocket. split; [|reflexivity]. simpl.
    rewrite lookup_app_r by lia. now rewrite Nat.sub_diag. }
  assert (Hn' : reconnectAttempts (connect s) = 0%nat).
  { unfold connect. now destruct (socketConnected s || isConnecting s). }
  destruct (Channel.receiveAll_errors_holding _ (length (sockets s)) 0 (take 4 messages)
              (connect s) Hq Hh Hn' eq_refl) as (s4 & H4 & Hh4 & Hn4 & HL4 & Hso4).
  { rewrite length_take. unfold MAX_RECONNECT_ATTEMPTS. lia. }
  rewrite length_take in Hn4.
  assert (Hn4' : reconnectAttempts s4 = 4%nat)
    by (unfold MAX_RECONNECT_ATTEMPTS in Hlen; lia).
  destruct (drop 4 messages) as [|m5 rest] eqn:Hd.
  { apply (f_equal length) in Hd. rewrite length_drop in Hd. simpl in Hd.
    unfold MAX_RECONNECT_ATTEMPTS in Hlen. lia. }
  assert (rest = []) as ->.
  { apply (f_equal length) in Hd. rewrite length_drop in Hd. simpl in Hd.
    unfold MAX_RECONNECT_ATTEMPTS in Hlen. destruct rest; [reflexivity|simpl in Hd; lia]. }
  destruct (Channel.receive_error_holding _ (length (sockets s)) 4 m5 s4 Hq Hh4 Hn4')
    as (s5 & H5 & Hn5 & _ & Hc5).
  { now rewrite HL4. }
  { intros _. right. rewrite HL4. intros l Hl a.
    rewrite (proj1 (proj2 (proj1 Hin'))) in Hl.
    apply list_elem_of_singleton in Hl. subst l. reflexivity. }
  rewrite bool_decide_true in Hc5 by (unfold MAX_RECONNECT_ATTEMPTS; lia).
  assert (Hrun : receiveAll (length (sockets s)) (OnConnectError <$> messages) (connect s)
                   = Some s5).
  { rewrite <- (take_drop 4 messages), Hd, fmap_app.
    rewrite (Transport.receiveAll_app _ _ _ _ _ H4). simpl. now rewrite H5. }
  exists s5. split; [exact Hrun|]. split; [exact (proj1 Hc5)|].
  pose proof (receiveAll_inStep _ _ _ _ Hin' Hrun) as (_ & Hcount).
  assert (Hconn : ConnectionManager.isConnected (app s5) = false).
  { apply (receiveAll_errors_isConnected _ _ _ _ Hin' Hrun).
    unfold connect. now destruct (socketConnected s || isConnecting s). }
  unfold status. now rewrite Hconn, Hcount, Hn5.
Qed.

Lemma indicator_after_exhaustion_witness :
  exists s5,
    receiveAll 0 (OnConnectError <$> Transport.fiveErrors)
      (connect Transport.presenterService) = Some s5 /\
    socket s5 = None /\
    status (app s5) = Reconnecting MAX_RECONNECT_ATTEMPTS.
Proof.
  exact (indicator_after_exhaustion Transport.presenterService Transport.fiveErrors
           presenterService_inStep eq_refl eq_refl eq_refl eq_refl eq_refl).
Defined.

End Indicator.

(** * Runs of the transport channel with the status indicator subscribed *)

Module ChannelRuns.

Import SocketService.

(** The service after [connect()]. *)
Definition connecting : SocketService.t ConnectionManager.t :=
  connect Transport.presenterService.

Lemma connecting_holding : Channel.holding 0 connecting.
Proof. split; [reflexivity|]. exists Transport.freshSocket. split; reflexivity. Qed.

Lemma connecting_quiet (e : EventKind) (d : Payload) :
  Transport.quiet d (listeners connecting e).
Proof.
  intros l Hl a. destruct e;
    [ change (listeners connecting scene_state) with (@nil (Listener ConnectionManager.t)) in Hl
    | change (listeners connecting connect_ev) with [ConnectionManager.onConnect] in Hl
    | change (listeners connecting disconnect_ev) with [ConnectionManager.onDisconnect] in Hl
    | change (listeners connecting connect_error) with [ConnectionManager.onConnectError] in Hl ];
    [ inversion Hl | | | ];
    apply list_elem_of_singleton in Hl; subst l; reflexivity.
Qed.

Lemma connect_event_restores_attempts_witness :
  (exists s4,
     receiveAll 0 (OnConnect :: (OnConnectError <$> take 4 Transport.fiveErrors)) connecting
       = Some s4 /\
     Channel.holding 0 s4 /\ reconnectAttempts s4 = 4%nat) /\
  (exists s5,
     receiveAll 0 (OnConnect :: OnDisconnect "transport close"
                     :: (OnConnectError <$> Transport.fiveErrors)) connecting
       = Some s5 /\
     socket s5 = None /\ reconnectAttempts s5 = MAX_RECONNECT_ATTEMPTS) /\
  (exists s5,
     receiveAll 0 (OnConnect :: (OnConnectError <$> Transport.fiveErrors)) connecting
       = Some s5 /\
     socket s5 = None /\ reconnectAttempts s5 = MAX_RECONNECT_ATTEMPTS).
Proof.
  destruct (Channel.connect_event_restores_attempts connecting 0 Transport.fiveErrors)
    as (H4 & Hlost & Hdirect).
  - exact connecting_holding.
  - apply connecting_quiet.
  - intros d. apply connecting_quiet.
  - reflexivity.
  - split; [exact H4|]. split; [exact (Hlost "transport close")|].
    apply Hdirect, connecting_quiet.
Defined.

Lemma server_disconnect_reconnects_once_witness :
  exists s',
    receive 0 (OnDisconnect "io server disconnect") connecting = Some (s', Normal) /\
    socket s' = Some 0%nat /\
    isConnecting s' = false /\
    reconnectAttempts s' = 0%nat /\
    sockets s' !! 0%nat =
      Some {| connected := false; closed := false; connectCalls := 1 |}.
Proof.
  apply (Channel.server_disconnect_reconnects_once connecting 0 Transport.freshSocket
           "io server disconnect").
  - reflexivity.
  - reflexivity.
  - reflexivity.
  - apply connecting_quiet.
Defined.

Lemma removeListener_addListener_witness :
  listeners (removeListener connect_ev ConnectionManager.onDisconnect
               (addListener connect_ev ConnectionManager.onDisconnect connecting))
    connect_ev =
  listeners connecting connect_ev.
Proof.
  apply (Channel.removeListener_addListener connect_ev ConnectionManager.onDisconnect
           connecting).
  reflexivity.
Defined.

Lemma removeListener_stops_delivery_witness :
  let s' := removeListener connect_error ConnectionManager.onConnectError connecting in
  hasListener ConnectionManager.onConnectError (listeners s' connect_error) = false /\
  deliveriesTo ConnectionManager.onConnectError
    (delivered (notifyListeners connect_error (ErrorData "timeout") s').1) = [].
Proof.
  destruct (Channel.removeListener_stops_delivery connect_error
              ConnectionManager.onConnectError (ErrorData "timeout") connecting)
    as (H1 & H2 & _).
  split; [exact H1 | exact H2].
Defined.

Lemma connecting_distinct : Channel.distinct connecting.
Proof.
  intros e. destruct e; simpl; try apply NoDup_singleton. constructor.
Qed.

Lemma listeners_distinct_witness :
  Channel.distinct (addListener connect_error ConnectionManager.onConnectError connecting) /\
  (length (deliveriesTo ConnectionManager.onConnectError
             (delivered (notifyListeners connect_error (ErrorData "timeout") connecting).1))
   <= 1)%nat.
Proof.
  destruct (Channel.listeners_distinct connect_error ConnectionManager.onConnectError
              connecting connecting_distinct) as (H1 & _ & _ & H4).
  split; [exact H1 | exact (H4 (ErrorData "timeout"))].
Defined.

End ChannelRuns.

(** * Further properties of the scene managers *)

Module Playback.

Import LastWriteWins.

(** ** What the handlers do to the managers *)

Lemma updateState_in_history (s : Scene.SceneState) (w : World) :
  isInHistoryMode w = true ->
  StateManager.updateState s w = (StateManager.setCurrentState s w, Normal).
Proof.
  intros H. unfold StateManager.updateState, andThen, pureStep. simpl. now rewrite H.
Qed.

Lemma updateState_live (s : Scene.SceneState) (w : World) :
  isInHistoryMode w = false ->
  let cm := CharacterManager.updateCharacters s (characterManager w) in
  let r := SpeechBubbleManager.updateBubbles cm s (speechBubbleManager w) in
  StateManager.updateState s w =
    ({| currentState := Some s; isInHistoryMode := false;
        characterManager := cm;
        speechBubbleManager := r.1;
        historyManager := match r.2 with
                          | Normal => HistoryManager.onSceneStateUpdate s (historyManager w)
                          | Throw _ => historyManager w
                          end |}, r.2).
Proof.
  intros H. cbv zeta. unfold StateManager.updateState, andThen, pureStep. simpl. rewrite H.
  unfold StateManager.updateBubbles, withBubbles. simpl.
  destruct (SpeechBubbleManager.updateBubbles _ s (speechBubbleManager w)) as [sbm [|e]];
    reflexivity.
Qed.

Lemma enterHistoryMode_with_state (w : World) (S : Scene.SceneState) :
  currentState w = Some S ->
  let cm := CharacterManager.clearCharactersAnimations (characterManager w) in
  let r := SpeechBubbleManager.showHistoricalBubble cm (last (Scene.messages S))
             (speechBubbleManager w) in
  GameEvents.enterHistoryMode w =
    ({| currentState := Some S; isInHistoryMode := true;
        characterManager := cm;
        speechBubbleManager := r.1;
        historyManager := (HistoryManager.handleEnterHistoryMode (historyManager w)).1 |},
     r.2).
Proof.
  intros HS. cbv zeta. unfold GameEvents.enterHistoryMode, GameEvents.runHistory. simpl.
  unfold GameEvents.historyModeChange, StateManager.historyModeChange.
  unfold andThen, pureStep. simpl. rewrite HS.
  unfold StateManager.showHistoricalBubble, withBubbles. simpl.
  destruct (SpeechBubbleManager.showHistoricalBubble _ _ _) as [sbm [|e]];
    simpl; rewrite ?HS; reflexivity.
Qed.

Lemma enterHistoryMode_without_state (w : World) :
  currentState w = None ->
  GameEvents.enterHistoryMode w =
    ({| currentState := None; isInHistoryMode := true;
        characterManager :=
          CharacterManager.clearCharactersAnimations (characterManager w);
        speechBubbleManager := speechBubbleManager w;
        historyManager := (HistoryManager.handleEnterHistoryMode (historyManager w)).1 |},
     Normal).
Proof.
  intros HS. unfold GameEvents.enterHistoryMode, GameEvents.runHistory. simpl.
  unfold GameEvents.historyModeChange, StateManager.historyModeChange.
  unfold andThen, pureStep. simpl. rewrite HS.
  unfold StateManager.setHistoryMode, withCharacters, withHistory. simpl.
  rewrite ?HS. reflexivity.
Qed.

Lemma exitHistoryMode_with_state (w : World) (S : Scene.SceneState) :
  currentState w = Some S ->
  let cm := CharacterManager.updateCharacters S (characterManager w) in
  let r := SpeechBubbleManager.updateBubbles cm S (speechBubbleManager w) in
  GameEvents.exitHistoryMode w =
    ({| currentState := Some S; isInHistoryMode := false;
        characterManager := cm;
        speechBubbleManager := r.1;
        historyManager := (HistoryManager.handleExitHistoryMode (historyManager w)).1 |},
     r.2).
Proof.
  intros HS. cbv zeta. unfold GameEvents.exitHistoryMode, GameEvents.runHistory. simpl.
  unfold GameEvents.historyModeChange, StateManager.historyModeChange.
  unfold andThen, pureStep. simpl. rewrite HS.
  unfold StateManager.updateBubbles, withBubbles. simpl.
  destruct (SpeechBubbleManager.updateBubbles _ S (speechBubbleManager w)) as [sbm [|e]];
    simpl; rewrite ?HS; reflexivity.
Qed.

Lemma exitHistoryMode_without_state (w : World) :
  currentState w = None ->
  GameEvents.exitHistoryMode w =
    ({| currentState := None; isInHistoryMode := false;
        characterManager := characterManager w;
        speechBubbleManager := speechBubbleManager w;
        historyManager := (HistoryManager.handleExitHistoryMode (historyManager w)).1 |},
     Normal).
Proof.
  intros HS. unfold GameEvents.exitHistoryMode, GameEvents.runHistory. simpl.
  unfold GameEvents.historyModeChange, StateManager.historyModeChange.
  unfold andThen, pureStep. simpl. rewrite HS.
  unfold StateManager.setHistoryMode, withCharacters, withHistory. simpl.
  rewrite ?HS. reflexivity.
Qed.

(** ** The two mode flags *)

(** The flag of the StateManager and the flag of the HistoryManager. *)
Definition flagsAgree (w : World) : Prop :=
  isInHistoryMode w = HistoryManager.historyMode (historyManager w).

Lemma navigateHistory_flags (i : Z) (w : World) :
  isInHistoryMode (StateManager.navigateHistory i w).1 = isInHistoryMode w /\
  historyManager (StateManager.navigateHistory i w).1 = historyManager w.
Proof.
  unfold StateManager.navigateHistory.
  destruct (currentState w); [|auto]. destruct (isInHistoryMode w) eqn:E; [|auto].
  destruct (StateManager.at_index _ _); [|auto].
  unfold StateManager.showHistoricalBubble, withBubbles. simpl. auto.
Qed.

Lemma step_flagsAgree (i : Input) (w : World) :
  flagsAgree w -> flagsAgree (step i w).1.
Proof.
  unfold flagsAgree. intros H. destruct i as [s| | |d c|d]; simpl; [| | | |exact H].
  - unfold GameEvents.handleSceneStateUpdate.
    destruct (isInHistoryMode w) eqn:E.
    + rewrite (updateState_in_history s w E). simpl. congruence.
    + rewrite (updateState_live s w E). simpl.
      destruct (SpeechBubbleManager.updateBubbles _ s _).2; simpl; [|exact H].
      unfold HistoryManager.onSceneStateUpdate. rewrite <- H. reflexivity.
  - destruct (currentState w) as [S|] eqn:ES.
    + now rewrite (enterHistoryMode_with_state w S ES).
    + now rewrite (enterHistoryMode_without_state w ES).
  - destruct (currentState w) as [S|] eqn:ES.
    + now rewrite (exitHistoryMode_with_state w S ES).
    + now rewrite (exitHistoryMode_without_state w ES).
  - unfold GameEvents.historyNavigateTo, GameEvents.runHistory,
      HistoryManager.handleHistoryNavigateTo, HistoryManager.navigateHistory.
    destruct ((0 <=? _) && (_ <? _)); simpl.
    + unfold andThen, GameEvents.historyNavigate.
      match goal with |- context [StateManager.navigateHistory ?i ?w0] =>
        pose proof (navigateHistory_flags i w0) as (Hf & Hh);
        destruct (StateManager.navigateHistory i w0) as [w1 [|e]] end;
        simpl in *; rewrite Hf, Hh; simpl; exact H.
    + unfold andThen. simpl.
      destruct c as [bs|]; [destruct (bs !! _)|]; simpl; exact H.
Qed.

(** The two managers never disagree about the mode: when their flags are
    equal, they are equal after every sequence of snapshots, mode toggles,
    navigation steps and frames, also when handlers on the way throw. *)
Theorem mode_flags_agree (inputs : list Input) (w : World) :
  flagsAgree w -> flagsAgree (run inputs w).
Proof.
  unfold run. revert w. induction inputs as [|i inputs IH]; intros w H; simpl.
  - exact H.
  - apply IH. now apply step_flagsAgree.
Qed.

Lemma mode_flags_agree_witness :
  flagsAgree (run [SnapshotPushed Samples.snapshotA; EnterHistory;
                   SnapshotPushed Samples.snapshotB; NavigateTo (-1) None; ExitHistory]
                StateManager.initial).
Proof. apply mode_flags_agree. reflexivity. Defined.

(** ** Snapshots that arrive in history mode *)

Lemma pushes_in_history (snaps : list Scene.SceneState) (w : World) :
  isInHistoryMode w = true ->
  let w' := run (SnapshotPushed <$> snaps) w in
  isInHistoryMode w' = true /\
  characterManager w' = characterManager w /\
  speechBubbleManager w' = speechBubbleManager w /\
  historyManager w' = historyManager w /\
  currentState w' = from_option Some (currentState w) (last snaps).
Proof.
  cbv zeta. revert w.
  induction snaps as [|s snaps IH]; intros w H; [simpl; auto|].
  change (run (SnapshotPushed <$> s :: snaps) w)
    with (run (SnapshotPushed <$> snaps) (StateManager.updateState s w).1).
  rewrite (updateState_in_history s w H). cbn [fst].
  destruct (IH (StateManager.setCurrentState s w) H) as (H1 & H2 & H3 & H4 & H5).
  split; [exact H1|]. split; [exact H2|]. split; [exact H3|]. split; [exact H4|].
  rewrite H5. simpl. destruct snaps as [|s' snaps']; [reflexivity|].
  change (last (s :: s' :: snaps')) with (last (s' :: snaps')).
  destruct (last (s' :: snaps')) eqn:El; [reflexivity|].
  apply last_None in El. discriminate El.
Qed.

(** Snapshots pushed while history mode is on are held back: whatever their
    number, characters, bubbles, history log and cursor stay as they were.
    Leaving history mode then renders the last snapshot pushed, with
    [updateCharacters] and [updateBubbles] as in live mode; the log of the
    HistoryManager is still the one from before, until the next push. *)
Theorem snapshots_held_back_in_history_mode (w : World)
    (snaps : list Scene.SceneState) (S : Scene.SceneState) :
  isInHistoryMode w = true ->
  let w' := run (SnapshotPushed <$> (snaps ++ [S])) w in
  let back := GameEvents.exitHistoryMode w' in
  (characterManager w' = characterManager w /\
   speechBubbleManager w' = speechBubbleManager w /\
   historyManager w' = historyManager w) /\
  characterManager back.1 =
    CharacterManager.updateCharacters S (characterManager w) /\
  (speechBubbleManager back.1, back.2) =
    SpeechBubbleManager.updateBubbles (characterManager back.1) S
      (speechBubbleManager w) /\
  isInHistoryMode back.1 = false /\
  HistoryManager.conversationHistory (historyManager back.1) =
    HistoryManager.conversationHistory (historyManager w).
Proof.
  intros H. cbv zeta.
  destruct (pushes_in_history (snaps ++ [S]) w H) as (H1 & H2 & H3 & H4 & H5).
  rewrite last_snoc in H5. simpl in H5.
  split; [auto|].
  rewrite (exitHistoryMode_with_state _ S H5). simpl. rewrite H2, H3, H4.
  repeat split.
  now destruct (SpeechBubbleManager.updateBubbles _ S (speechBubbleManager w)).
Qed.

(** ** Entering history mode *)

(** Entering history mode completes normally unless the snapshot held has an
    empty message log; then [showHistoricalBubble] is handed [undefined]
    and throws a TypeError after it cleared the bubbles.  In every case both
    managers are in history mode afterwards and the cursor is at the tail of
    the log of the HistoryManager. *)
Theorem enterHistoryMode_completion (w : World) :
  let r := GameEvents.enterHistoryMode w in
  (r.2 = Normal <-> forall S, currentState w = Some S -> Scene.messages S <> []) /\
  (r.2 <> Normal ->
   r.2 = Throw (TypeError "message is undefined") /\
   SpeechBubbleManager.activeBubbles (speechBubbleManager r.1) = ∅) /\
  isInHistoryMode r.1 = true /\
  HistoryManager.historyMode (historyManager r.1) = true /\
  HistoryManager.currentHistoryIndex (historyManager r.1) =
    HistoryManager.lengthZ (historyManager w) - 1.
Proof.
  cbv zeta. destruct (currentState w) as [S|] eqn:HS.
  - rewrite (enterHistoryMode_with_state w S HS). simpl.
    unfold SpeechBubbleManager.showHistoricalBubble.
    destruct (last (Scene.messages S)) as [m|] eqn:Hl; simpl.
    + assert (Hne : Scene.messages S <> [])
        by (intros Hnil; rewrite Hnil in Hl; discriminate Hl).
      destruct (CharacterManager.getCharacter _ _); simpl;
        (split; [split; [intros _ S' [= <-]; exact Hne | reflexivity]|]);
        (split; [intros Hc; contradiction|]); auto.
    + apply last_None in Hl.
      split; [split; [discriminate | intros Hall; exfalso; now apply (Hall S)]|].
      split; [auto|]. auto.
  - rewrite (enterHistoryMode_without_state w HS). simpl.
    split; [split; [intros _ S [=] | reflexivity]|].
    split; [intros Hc; contradiction|]. auto.
Qed.

Lemma enterHistoryMode_completion_witness :
  (GameEvents.enterHistoryMode
     (StateManager.updateState Samples.snapshotA StateManager.initial).1).2
  = Throw (TypeError "message is undefined").
Proof.
  destruct (enterHistoryMode_completion
              (StateManager.updateState Samples.snapshotA StateManager.initial).1)
    as (Hiff & Hthrow & _).
  apply Hthrow. intros Hn.
  apply (proj1 Hiff Hn Samples.snapshotA); reflexivity.
Defined.

(** ** Navigating in history mode *)

(** A committed navigation step shows the message under the new cursor.
    In history mode, when the log of the snapshot held by the StateManager
    extends the log frozen in the HistoryManager, a step onto index [i + d]
    of the frozen log completes normally, moves the cursor there, leaves
    the characters alone and replaces all bubbles by the single bubble of
    that message: its content (the empty text for a pending turn), the name
    and colour of its character, and no progress bar.  Nothing is shown when
    the CharacterManager does not know the character. *)
Theorem historyNavigateTo_shows_message (w : World) (S : Scene.SceneState) (d : Z)
    (controls : option (list HistoryManager.Button)) (m : Scene.Message) :
  isInHistoryMode w = true ->
  currentState w = Some S ->
  HistoryManager.conversationHistory (historyManager w) `prefix_of` Scene.messages S ->
  let i := HistoryManager.currentHistoryIndex (historyManager w) in
  0 <= i + d ->
  HistoryManager.conversationHistory (historyManager w) !! Z.to_nat (i + d) = Some m ->
  let r := GameEvents.historyNavigateTo d controls w in
  r.2 = Normal /\
  HistoryManager.currentHistoryIndex (historyManager r.1) = i + d /\
  characterManager r.1 = characterManager w /\
  SpeechBubbleManager.activeBubbles (speechBubbleManager r.1) =
    match CharacterManager.getCharacter (Scene.character m) (characterManager w) with
    | Some ch =>
        {[ Scene.character m :=
             {| SpeechBubbleManager.text := default "" (Scene.content m);
                SpeechBubbleManager.nameText := Scene.name (CharacterManager.state ch);
                SpeechBubbleManager.nameColor :=
                  SpeechBubbleManager.characterColor (Some ch);
                SpeechBubbleManager.moodText := Scene.mood_emoji m;
                SpeechBubbleManager.progressBar := None;
                SpeechBubbleManager.anchorX :=
                  CharacterManager.x (CharacterManager.sprite ch);
                SpeechBubbleManager.anchorY :=
                  CharacterManager.y (CharacterManager.sprite ch) |} ]}
    | None => ∅
    end.
Proof.
  intros Hmode HS Hpre i Hge Hm. cbv zeta.
  assert (Hlt : i + d < HistoryManager.lengthZ (historyManager w)).
  { apply lookup_lt_Some in Hm. unfold HistoryManager.lengthZ. lia. }
  unfold GameEvents.historyNavigateTo, GameEvents.runHistory,
    HistoryManager.handleHistoryNavigateTo, HistoryManager.navigateHistory.
  fold i.
  assert (E : (0 <=? i + d) && (i + d <? HistoryManager.lengthZ (historyManager w)) = true).
  { apply andb_true_iff. split; [now apply Z.leb_le | now apply Z.ltb_lt]. }
  rewrite E. simpl. unfold andThen, GameEvents.historyNavigate, StateManager.navigateHistory.
  simpl. rewrite HS, Hmode. unfold StateManager.at_index.
  assert (E0 : (0 <=? i + d) = true) by now apply Z.leb_le.
  rewrite E0. rewrite (prefix_lookup_Some _ _ _ _ Hm Hpre).
  unfold StateManager.showHistoricalBubble, withBubbles,
    SpeechBubbleManager.showHistoricalBubble. simpl.
  destruct (CharacterManager.getCharacter (Scene.character m) (characterManager w))
    as [ch|] eqn:Ech; simpl.
  - repeat split. unfold SpeechBubbleManager.createSpeechBubble. simpl.
    rewrite Ech. apply insert_empty.
  - repeat split.
Qed.

(** History mode entered after snapshots A and B. *)
Definition historyAfterB : World :=
  (GameEvents.enterHistoryMode ModeToggle.liveAfterB).1.

Lemma snapshots_held_back_in_history_mode_witness :
  let w' := run (SnapshotPushed <$> ([Samples.snapshotA] ++ [Samples.pendingTurn]))
              historyAfterB in
  speechBubbleManager w' = speechBubbleManager historyAfterB /\
  characterManager (GameEvents.exitHistoryMode w').1 =
    CharacterManager.updateCharacters Samples.pendingTurn (characterManager historyAfterB).
Proof.
  assert (H : isInHistoryMode historyAfterB = true) by (vm_compute; reflexivity).
  destruct (snapshots_held_back_in_history_mode historyAfterB [Samples.snapshotA]
              Samples.pendingTurn H) as ((_ & H2 & _) & H3 & _).
  split; [exact H2 | exact H3].
Defined.

(** History mode entered on a snapshot with three messages. *)
Definition historyOfThree : World :=
  (GameEvents.enterHistoryMode
     (StateManager.updateState
        (Samples.scene [("bob", Samples.character "bob" "Bob" 200 Scene.idle);
                        ("alice", Samples.character "alice" "Alice" 500 Scene.idle)]
           Samples.threeMessages)
        StateManager.initial).1).1.

Lemma historyNavigateTo_shows_message_witness :
  let r := GameEvents.historyNavigateTo (-1) None historyOfThree in
  r.2 = Normal /\
  HistoryManager.currentHistoryIndex (historyManager r.1) = 1 /\
  (SpeechBubbleManager.text <$>
     SpeechBubbleManager.activeBubbles (speechBubbleManager r.1) !! "alice") = Some "two".
Proof.
  assert (H1 : isInHistoryMode historyOfThree = true) by (vm_compute; reflexivity).
  assert (H2 : currentState historyOfThree =
                 Some (Samples.scene
                         [("bob", Samples.character "bob" "Bob" 200 Scene.idle);
                          ("alice", Samples.character "alice" "Alice" 500 Scene.idle)]
                         Samples.threeMessages)) by (vm_compute; reflexivity).
  assert (H3 : HistoryManager.conversationHistory (historyManager historyOfThree)
                 = Samples.threeMessages) by (vm_compute; reflexivity).
  assert (H4 : HistoryManager.currentHistoryIndex (historyManager historyOfThree) = 2)
    by (vm_compute; reflexivity).
  destruct (historyNavigateTo_shows_message historyOfThree _ (-1) None
              (Samples.says "alice" (Some "two") 2) H1 H2) as (Hn & Hi & _ & Hb).
  - rewrite H3. exists []. reflexivity.
  - rewrite H4. lia.
  - rewrite H3, H4. reflexivity.
  - cbv zeta. split; [exact Hn|]. split; [rewrite Hi, H4; reflexivity|].
    rewrite Hb. vm_compute. reflexivity.
Defined.

End Playback.

(** * Further properties of the history cursor (HistoryManager.ts) *)

Module Cursor.

Import HistoryManager.

(** What reaches the HistoryManager: the four events it listens to. *)
Inductive Input :=
| Update (s : Scene.SceneState)
| Enter
| Exit
| Navigate (direction : Z) (controls : option (list Button)).

Definition step (i : Input) (h : HistoryManager.t) : HistoryManager.t :=
  match i with
  | Update s => onSceneStateUpdate s h
  | Enter => (handleEnterHistoryMode h).1
  | Exit => (handleExitHistoryMode h).1
  | Navigate d c => (handleHistoryNavigateTo d c h).1
  end.

Definition run (inputs : list Input) (h : HistoryManager.t) : HistoryManager.t :=
  foldl (fun h i => step i h) h inputs.

(** The cursor is on a message of the log, or at -1 when the log is empty. *)
Definition onMessage (h : HistoryManager.t) : Prop :=
  (conversationHistory h = [] /\ currentHistoryIndex h = -1) \/
  0 <= currentHistoryIndex h < lengthZ h.

Lemma tail_onMessage (b : bool) (log : list Scene.Message) :
  onMessage {| historyMode := b;
               currentHistoryIndex := Z.of_nat (length log) - 1;
               conversationHistory := log |}.
Proof.
  unfold onMessage, lengthZ. simpl. destruct log as [|m log]; [left; auto|].
  right. simpl length. lia.
Qed.

Lemma step_onMessage (i : Input) (h : HistoryManager.t) :
  onMessage h -> onMessage (step i h).
Proof.
  intros H. destruct i as [s| | |d c]; simpl.
  - unfold onSceneStateUpdate. destruct (historyMode h); [exact H|]. apply tail_onMessage.
  - apply tail_onMessage.
  - apply tail_onMessage.
  - unfold handleHistoryNavigateTo, navigateHistory.
    destruct ((0 <=? currentHistoryIndex h + d)
              && (currentHistoryIndex h + d <? lengthZ h)) eqn:E; simpl; [|exact H].
    apply andb_true_iff in E. destruct E as [E1 E2].
    apply Z.leb_le in E1. apply Z.ltb_lt in E2. right. unfold lengthZ in *. simpl. lia.
Qed.

(** The cursor never leaves the log: for every sequence of snapshot
    updates, mode toggles and navigation steps of any size, the cursor
    stays on a message of the log held (or at -1 while the log is empty),
    so [messages[currentIndex]] is defined whenever the log is not empty. *)
Theorem cursor_stays_on_message (inputs : list Input) (h : HistoryManager.t) :
  onMessage h ->
  onMessage (run inputs h) /\
  (conversationHistory (run inputs h) <> [] ->
   is_Some (conversationHistory (run inputs h)
              !! Z.to_nat (currentHistoryIndex (run inputs h)))).
Proof.
  intros H.
  assert (Hall : onMessage (run inputs h)).
  { unfold run. revert h H. induction inputs as [|i inputs IH]; intros h H; simpl.
    - exact H.
    - apply IH. now apply step_onMessage. }
  split; [exact Hall|]. intros Hne.
  destruct Hall as [[Hnil _] | Hin]; [contradiction|].
  apply lookup_lt_is_Some. unfold lengthZ in Hin. lia.
Qed.

Lemma cursor_stays_on_message_witness :
  onMessage (run [Update (Samples.scene [] Samples.threeMessages); Enter;
                  Navigate (-5) None; Navigate (-1) None; Navigate 7 None; Exit]
               initial).
Proof.
  apply (cursor_stays_on_message _ initial). left. split; reflexivity.
Defined.

(** A step and the step back: when the cursor is on a message and a step of
    one in direction [d] is committed, the step in the other direction is
    committed too and gives back the HistoryManager as it was. *)
Theorem navigateHistory_there_and_back (h : HistoryManager.t) (d : Z)
    (controls controls' : option (list Button)) :
  d = 1 \/ d = -1 ->
  0 <= currentHistoryIndex h < lengthZ h ->
  0 <= currentHistoryIndex h + d < lengthZ h ->
  (navigateHistory (- d) controls' (navigateHistory d controls h).1).1 = h /\
  (navigateHistory (- d) controls' (navigateHistory d controls h).1).2 =
    [EmitHistoryNavigate (currentHistoryIndex h)].
Proof.
  intros Hd Hin Hnext. unfold navigateHistory at 2 4.
  assert (E : (0 <=? currentHistoryIndex h + d)
              && (currentHistoryIndex h + d <? lengthZ h) = true).
  { apply andb_true_iff. split; [apply Z.leb_le | apply Z.ltb_lt]; lia. }
  rewrite E. simpl. unfold navigateHistory. simpl.
  replace (currentHistoryIndex h + d + - d) with (currentHistoryIndex h) by lia.
  unfold lengthZ in *. simpl.
  assert (E' : (0 <=? currentHistoryIndex h)
               && (currentHistoryIndex h <? Z.of_nat (length (conversationHistory h))) = true).
  { apply andb_true_iff. split; [apply Z.leb_le | apply Z.ltb_lt]; lia. }
  rewrite E'. simpl. split; [destruct h; reflexivity | reflexivity].
Qed.

Lemma navigateHistory_there_and_back_witness :
  (navigateHistory 1 None (navigateHistory (-1) None
     {| historyMode := true; currentHistoryIndex := 2;
        conversationHistory := Samples.threeMessages |}).1).1 =
  {| historyMode := true; currentHistoryIndex := 2;
     conversationHistory := Samples.threeMessages |}.
Proof.
  apply (navigateHistory_there_and_back
           {| historyMode := true; currentHistoryIndex := 2;
              conversationHistory := Samples.threeMessages |} (-1) None None).
  - right. reflexivity.
  - simpl. unfold lengthZ. simpl. lia.
  - simpl. unfold lengthZ. simpl. lia.
Defined.

(** [k] presses of the same arrow. *)
Definition press (d : Z) (controls : option (list Button)) (k : nat)
    (h : HistoryManager.t) : HistoryManager.t :=
  Nat.iter k (fun h => (navigateHistory d controls h).1) h.

Lemma press_step (d : Z) (controls : option (list Button)) (k : nat)
    (h : HistoryManager.t) :
  d = 1 \/ d = -1 ->
  0 <= currentHistoryIndex h < lengthZ h ->
  conversationHistory (press d controls k h) = conversationHistory h /\
  historyMode (press d controls k h) = historyMode h /\
  currentHistoryIndex (press d controls k h) =
    Z.max 0 (Z.min (lengthZ h - 1) (currentHistoryIndex h + d * Z.of_nat k)).
Proof.
  intros Hd Hin. induction k as [|k IH].
  - simpl. repeat split. lia.
  - destruct IH as (Hlog & Hmode & Hidx).
    change (press d controls (S k) h)
      with (navigateHistory d controls (press d controls k h)).1.
    unfold navigateHistory. unfold lengthZ in *. rewrite Hlog, Hidx.
    destruct ((0 <=? _) && (_ <? _)) eqn:E; simpl.
    + apply andb_true_iff in E. destruct E as [E1 E2].
      apply Z.leb_le in E1. apply Z.ltb_lt in E2.
      repeat split; try assumption. destruct Hd; subst d; lia.
    + apply andb_false_iff in E.
      repeat split; try assumption. rewrite Hidx.
      destruct E as [E|E]; [apply Z.leb_gt in E | apply Z.ltb_ge in E];
        destruct Hd; subst d; lia.
Qed.

(** Repeated steps stop at the ends of the log: from a cursor on message
    [i] of [n], [k] steps back end on message [max 0 (i - k)] and [k] steps
    forward on message [min (n - 1) (i + k)]; the log and the mode are
    unchanged. *)
Theorem navigateHistory_saturates (h : HistoryManager.t)
    (controls : option (list Button)) (k : nat) :
  0 <= currentHistoryIndex h < lengthZ h ->
  currentHistoryIndex (press (-1) controls k h) =
    Z.max 0 (currentHistoryIndex h - Z.of_nat k) /\
  currentHistoryIndex (press 1 controls k h) =
    Z.min (lengthZ h - 1) (currentHistoryIndex h + Z.of_nat k) /\
  conversationHistory (press (-1) controls k h) = conversationHistory h /\
  conversationHistory (press 1 controls k h) = conversationHistory h.
Proof.
  intros Hin.
  destruct (press_step (-1) controls k h (or_intror eq_refl) Hin) as (L1 & _ & I1).
  destruct (press_step 1 controls k h (or_introl eq_refl) Hin) as (L2 & _ & I2).
  repeat split; try assumption; lia.
Qed.

Lemma navigateHistory_saturates_witness :
  currentHistoryIndex
    (press (-1) (Some [prev; next]) 5
       {| historyMode := true; currentHistoryIndex := 2;
          conversationHistory := Samples.threeMessages |}) = 0.
Proof.
  destruct (navigateHistory_saturates
              {| historyMode := true; currentHistoryIndex := 2;
                 conversationHistory := Samples.threeMessages |}
              (Some [prev; next]) 5) as (H & _).
  - simpl. unfold lengthZ. simpl. lia.
  - rewrite H. reflexivity.
Defined.

End Cursor.

(** * Further properties of the CharacterManager *)

Module Rendering.

Import CharacterManager.

Lemma lookup_updateCharacter (cm : CharacterManager.t)
    (e : string * Scene.CharacterState) (k : string) :
  characters (updateCharacter cm e) !! k =
    if decide (e.1 = k)
    then Some (updatedCharacter (assets cm) e.1 e.2 (characters cm !! e.1))
    else characters cm !! k.
Proof.
  unfold updateCharacter. simpl. destruct (decide (e.1 = k)) as [<-|Hne].
  - apply lookup_insert_eq.
  - now apply lookup_insert_ne.
Qed.

Lemma foldl_updateCharacter_other (es : list (string * Scene.CharacterState))
    (cm : CharacterManager.t) (k : string) :
  k ∉ es.*1 ->
  characters (foldl updateCharacter cm es) !! k = characters cm !! k.
Proof.
  revert cm. induction es as [|e es IH]; intros cm Hnot; simpl; [reflexivity|].
  simpl in Hnot. apply not_elem_of_cons in Hnot. destruct Hnot as [Hne Hnot].
  rewrite (IH _ Hnot), lookup_updateCharacter.
  destruct (decide (e.1 = k)); [congruence | reflexivity].
Qed.

Lemma foldl_updateCharacter_unique (es : list (string * Scene.CharacterState))
    (cm : CharacterManager.t) (k : string) (v : Scene.CharacterState) :
  NoDup es.*1 -> (k, v) ∈ es ->
  characters (foldl updateCharacter cm es) !! k =
    Some (updatedCharacter (assets cm) k v (characters cm !! k)).
Proof.
  revert cm. induction es as [|e es IH]; intros cm Hnd Hin; [inversion Hin|].
  simpl in Hnd. apply NoDup_cons in Hnd. destruct Hnd as [Hnotin Hnd].
  apply elem_of_cons in Hin. simpl. destruct Hin as [<- | Hin].
  - rewrite (foldl_updateCharacter_other es _ k Hnotin), lookup_updateCharacter.
    simpl. destruct (decide (k = k)); [reflexivity | contradiction].
  - rewrite (IH _ Hnd Hin), lookup_updateCharacter. simpl.
    destruct (decide (e.1 = k)) as [Heq|Hne]; [|reflexivity].
    exfalso. apply Hnotin. rewrite Heq.
    apply (list_elem_of_fmap_2 fst) in Hin. exact Hin.
Qed.

(** ** What [updateCharacters] leaves for one entry *)

(** The integer part of a number, rounded towards zero. *)
Definition truncate (q : Qc) : Qc := pixels (Z.quot (Qnum q) (Zpos (Qden q))).

(** [y - (y % 1)] *)
Lemma minus_rem1 (q : Qc) : (q - rem1 q)%Qc = truncate q.
Proof. unfold rem1, truncate. ring. Qed.

(** Where the sprite of an entry stands after the update: at the position
    of the snapshot, the fraction of [y] cut off when the character is
    idle. *)
Definition restY (value : Scene.CharacterState) : Qc :=
  if bool_decide (Scene.action value = Scene.idle)
  then truncate (Scene.y (Scene.position value))
  else Scene.y (Scene.position value).

(** The sprite after the update, from the sprite that was found or made. *)
Definition rendered (a : Assets) (key : string) (value : Scene.CharacterState)
    (sp0 : Sprite) : Sprite :=
  {| x := Scene.x (Scene.position value);
     y := restY value;
     texture := texture sp0;
     anim := if bool_decide (idleAnim key (Scene.direction value) ∈ anims a)
             then Some (idleAnim key (Scene.direction value))
             else anim sp0;
     tint := if bool_decide (Scene.action value = Scene.idle)
             then INACTIVE_TINT else ACTIVE_TINT |}.

(** The bounce [createBounceTween] starts for an entry. *)
Definition bounceOf (value : Scene.CharacterState) : Tween :=
  {| fromY := Scene.y (Scene.position value);
     toY := (Scene.y (Scene.position value) - BOUNCE_HEIGHT)%Qc;
     running := true |}.

(** The thinking sprite [createThinkingSprite] makes for an entry. *)
Definition thinkingOf (a : Assets) (value : Scene.CharacterState) : Sprite :=
  play a (Scene.actionKey (Scene.action value))
    (newSprite a (Scene.x (Scene.position value))
       (Scene.y (Scene.position value) + THINKING_OFFSET_Y)%Qc
       (Scene.actionKey (Scene.action value))).

Lemma updatedCharacter_sprite (a : Assets) (key : string) (value : Scene.CharacterState)
    (o : option Character) :
  sprite (updatedCharacter a key value o) =
    rendered a key value
      match o with
      | Some c => sprite c
      | None => newSprite a (Scene.x (Scene.position value))
                  (Scene.y (Scene.position value)) key
      end.
Proof.
  assert (H : forall sp0 : Sprite,
            (if bool_decide (Scene.action value = Scene.idle)
             then
               let sp := setTint INACTIVE_TINT
                           (play a (idleAnim key (Scene.direction value))
                              (setPosition (Scene.x (Scene.position value))
                                 (Scene.y (Scene.position value)) sp0)) in
               setY (y sp - rem1 (y sp))%Qc sp
             else
               setTint ACTIVE_TINT
                 (play a (idleAnim key (Scene.direction value))
                    (setPosition (Scene.x (Scene.position value))
                       (Scene.y (Scene.position value)) sp0)))
            = rendered a key value sp0).
  { intros sp0. unfold rendered, restY, play.
    destruct (bool_decide (Scene.action value = Scene.idle));
      destruct (bool_decide (idleAnim key (Scene.direction value) ∈ anims a));
      simpl; rewrite ?minus_rem1; reflexivity. }
  rewrite <- H. unfold updatedCharacter, updateCharacterState.
  destruct o as [old|]; cbn [sprite state activeTween thinkingSprite color id];
    destruct (bool_decide (Scene.action value = Scene.idle)); cbn zeta;
    try reflexivity;
    match goal with
    | |- context [if negb ?b then _ else _] => destruct b; reflexivity
    end.
Qed.

Lemma updatedCharacter_state (a : Assets) (key : string) (value : Scene.CharacterState)
    (o : option Character) :
  state (updatedCharacter a key value o) = value /\
  color (updatedCharacter a key value o) = Some (Scene.color value) /\
  id (updatedCharacter a key value o) = match o with Some c => id c | None => key end.
Proof.
  unfold updatedCharacter, updateCharacterState.
  destruct o as [old|]; simpl; repeat (case_bool_decide; simpl); auto.
Qed.

Lemma updatedCharacter_tween (a : Assets) (key : string) (value : Scene.CharacterState)
    (o : option Character) :
  activeTween (updatedCharacter a key value o) =
    if bool_decide (Scene.action value = Scene.idle) then None
    else match o with
         | Some old =>
             if bool_decide (Scene.action value = Scene.action (state old))
             then stop <$> activeTween old
             else Some (bounceOf value)
         | None => None
         end.
Proof.
  unfold updatedCharacter, updateCharacterState, bounceOf, createBounceTween, play.
  destruct o as [old|]; simpl; repeat (case_bool_decide; simpl);
    try reflexivity; congruence.
Qed.

Lemma updatedCharacter_thinkingSprite (a : Assets) (key : string)
    (value : Scene.CharacterState) (o : option Character) :
  thinkingSprite (updatedCharacter a key value o) =
    if Scene.startsWithThinking (Scene.action value)
    then Some (default (thinkingOf a value) (o ≫= thinkingSprite))
    else None.
Proof.
  unfold updatedCharacter, updateCharacterState, thinkingOf, createThinkingSprite.
  destruct o as [old|]; simpl.
  - destruct (bool_decide (Scene.action value = Scene.idle)) eqn:Eidle; simpl.
    + apply bool_decide_eq_true in Eidle. rewrite Eidle. reflexivity.
    + destruct (negb (bool_decide (Scene.action value = Scene.action (state old))));
        simpl; destruct (Scene.startsWithThinking (Scene.action value)); try reflexivity;
        destruct (thinkingSprite old); simpl; try reflexivity;
        unfold play; simpl; repeat (case_bool_decide; simpl); reflexivity.
  - destruct (bool_decide (Scene.action value = Scene.idle)) eqn:Eidle; simpl.
    + apply bool_decide_eq_true in Eidle. rewrite Eidle. reflexivity.
    + rewrite (bool_decide_true (Scene.action value = Scene.action value)) by reflexivity.
      simpl. destruct (Scene.startsWithThinking (Scene.action value)); [|reflexivity].
      simpl. unfold play. simpl. repeat (case_bool_decide; simpl); reflexivity.
Qed.

(** A second update with the same entry finds the sprite as it leaves it. *)
Lemma rendered_idempotent (a : Assets) (key : string) (value : Scene.CharacterState)
    (sp0 : Sprite) :
  rendered a key value (rendered a key value sp0) = rendered a key value sp0.
Proof.
  unfold rendered. simpl. case_bool_decide; reflexivity.
Qed.


(** [updateCharacters] makes the scene show the snapshot.  For a snapshot
    with distinct keys, every character of the snapshot is registered under
    its key afterwards with the state and colour of the snapshot; its sprite
    stands at the position of the snapshot, the fraction of [y] cut off
    when the character is idle, and is tinted inactive exactly when idle;
    it plays the idle animation of its direction when an animation of that
    key exists, and otherwise keeps the animation it had (none for a new
    sprite); the texture is the one it was made with, the placeholder when
    no texture is named after the character; the thinking indicator is up
    exactly when the action starts with 'thinking'; and a bounce tween runs
    exactly when the character is not idle and was known before with
    another action (a character that appears for the first time does not
    bounce). *)
Theorem updateCharacters_shows_snapshot (s : Scene.SceneState) (cm : CharacterManager.t)
    (key : string) (value : Scene.CharacterState) :
  Scene.wf s ->
  (key, value) ∈ Scene.characters s ->
  exists c,
    getCharacter key (updateCharacters s cm) = Some c /\
    state c = value /\
    color c = Some (Scene.color value) /\
    x (sprite c) = Scene.x (Scene.position value) /\
    y (sprite c) = (if bool_decide (Scene.action value = Scene.idle)
                    then truncate (Scene.y (Scene.position value))
                    else Scene.y (Scene.position value)) /\
    anim (sprite c) =
      (if bool_decide (idleAnim key (Scene.direction value) ∈ anims (assets cm))
       then Some (idleAnim key (Scene.direction value))
       else old ← getCharacter key cm; anim (sprite old)) /\
    texture (sprite c) =
      match getCharacter key cm with
      | Some old => texture (sprite old)
      | None => if bool_decide (key ∈ textures (assets cm)) then key else "__MISSING"
      end /\
    tint (sprite c) = (if bool_decide (Scene.action value = Scene.idle)
                       then INACTIVE_TINT else ACTIVE_TINT) /\
    (is_Some (thinkingSprite c) <-> Scene.startsWithThinking (Scene.action value) = true) /\
    ((exists tw, activeTween c = Some tw /\ running tw = true) <->
     Scene.action value <> Scene.idle /\
     exists old, getCharacter key cm = Some old /\
                 Scene.action (state old) <> Scene.action value).
Proof.
  intros Hwf Hin. unfold getCharacter, updateCharacters.
  rewrite (foldl_updateCharacter_unique _ cm key value Hwf Hin).
  eexists. split; [reflexivity|].
  destruct (updatedCharacter_state (assets cm) key value (characters cm !! key))
    as (H1 & H2 & _).
  split; [exact H1|]. split; [exact H2|].
  rewrite updatedCharacter_sprite, updatedCharacter_thinkingSprite, updatedCharacter_tween.
  unfold rendered, restY. simpl.
  split; [reflexivity|]. split; [reflexivity|].
  split; [destruct (characters cm !! key); reflexivity|].
  split; [destruct (characters cm !! key); reflexivity|].
  split; [reflexivity|]. split.
  - destruct (Scene.startsWithThinking (Scene.action value)); split; intros H.
    + reflexivity.
    + eauto.
    + destruct H as [? H]. discriminate H.
    + discriminate H.
  - case_bool_decide as Eidle.
    + split; [intros (tw & H & _); discriminate H | intros (Hc & _); contradiction].
    + destruct (characters cm !! key) as [old|].
      * case_bool_decide as Ech.
        -- split.
           ++ intros (tw & Htw & Hrun). destruct (activeTween old); simpl in Htw;
                [injection Htw as <-; discriminate Hrun | discriminate Htw].
           ++ intros (_ & old' & Heq & Hne). injection Heq as <-. congruence.
        -- split.
           ++ intros _. split; [exact Eidle|]. exists old. split; [reflexivity | congruence].
           ++ intros _. eexists. split; reflexivity.
      * split; [intros (tw & H & _); discriminate H
               | intros (_ & old & Heq & _); discriminate Heq].
Qed.

(** carol has an id of her own, half a pixel below line 300, and is idle. *)
Definition carol : Scene.CharacterState :=
  {| Scene.id := "carol"; Scene.name := "Carol"; Scene.color := "#cc3366";
     Scene.position := {| Scene.x := pixels 100; Scene.y := Q2Qc (601 # 2) |};
     Scene.direction := Scene.front; Scene.current_mood := "calm";
     Scene.action := Scene.idle |}.

Lemma updateCharacters_shows_snapshot_witness :
  exists c,
    getCharacter "carol" (updateCharacters (Samples.scene [("carol", carol)] []) ready)
      = Some c /\
    y (sprite c) = pixels 300 /\
    anim (sprite c) = None /\
    texture (sprite c) = "__MISSING" /\
    tint (sprite c) = INACTIVE_TINT.
Proof.
  destruct (updateCharacters_shows_snapshot (Samples.scene [("carol", carol)] []) ready
              "carol" carol)
    as (c & Hc & _ & _ & _ & Hy & Ha & Ht & Htint & _).
  - unfold Scene.wf. simpl. apply NoDup_singleton.
  - left.
  - exists c. split; [exact Hc|]. split; [|split; [|split]].
    + rewrite Hy. apply Qc_is_canon. reflexivity.
    + rewrite Ha. vm_compute. reflexivity.
    + rewrite Ht. vm_compute. reflexivity.
    + exact Htint.
Defined.

(** After [preload] and [create], bob is shown with his texture and plays
    the idle animation of his direction. *)
Example bob_plays_idle_animation :
  (anim ∘ sprite <$> getCharacter "bob" (updateCharacters Samples.snapshotB ready))
    = Some (Some "bob_idle_front") /\
  (texture ∘ sprite <$> getCharacter "bob" (updateCharacters Samples.snapshotB ready))
    = Some "bob".
Proof. split; vm_compute; reflexivity. Qed.

(** [updateCharacters] never removes a character: whoever was registered
    stays registered, and a character whose key is not in the snapshot is
    left exactly as it was. *)
Theorem updateCharacters_keeps_others (s : Scene.SceneState) (cm : CharacterManager.t)
    (key : string) :
  (is_Some (getCharacter key cm) ->
   is_Some (getCharacter key (updateCharacters s cm))) /\
  (key ∉ (Scene.characters s).*1 ->
   getCharacter key (updateCharacters s cm) = getCharacter key cm).
Proof.
  split.
  - apply SpeechEffects.updateCharacters_keeps.
  - apply foldl_updateCharacter_other.
Qed.

Lemma updateCharacters_keeps_others_witness :
  getCharacter "bob" (updateCharacters (Samples.scene [] [])
                        (updateCharacters Samples.snapshotB initial)) =
  getCharacter "bob" (updateCharacters Samples.snapshotB initial).
Proof.
  apply (updateCharacters_keeps_others (Samples.scene [] [])
           (updateCharacters Samples.snapshotB initial) "bob").
  simpl. apply not_elem_of_nil.
Defined.

(** ** Characters are stored under their own id *)

Definition keyed (cm : CharacterManager.t) : Prop :=
  forall k c, characters cm !! k = Some c -> id c = k.

Lemma updatedCharacter_id (a : Assets) (key : string) (value : Scene.CharacterState)
    (o : option Character) :
  id (updatedCharacter a key value o) = match o with Some c => id c | None => key end.
Proof. apply updatedCharacter_state. Qed.

Lemma updateCharacter_keyed (cm : CharacterManager.t) (e : string * Scene.CharacterState) :
  keyed cm -> keyed (updateCharacter cm e).
Proof.
  intros H k c. rewrite lookup_updateCharacter.
  destruct (decide (e.1 = k)) as [<-|Hne]; [|apply H].
  intros [= <-]. rewrite updatedCharacter_id.
  destruct (characters cm !! e.1) eqn:E; [now apply H | reflexivity].
Qed.

Lemma clearCharactersAnimations_lookup (cm : CharacterManager.t) :
  keyed cm ->
  forall k, characters (clearCharactersAnimations cm) !! k =
            clearAnimations <$> characters cm !! k.
Proof.
  intros Hk.
  assert (H : (forall k c, characters cm !! k = Some c -> id c = k) ->
              forall k, characters (clearCharactersAnimations cm) !! k =
                        match characters cm !! k with
                        | Some _ => clearAnimations <$> characters cm !! k
                        | None => characters cm !! k
                        end).
  { unfold clearCharactersAnimations.
    apply (map_fold_weak_ind
             (fun (r : CharacterManager.t) (m : gmap string Character) =>
                (forall k c, m !! k = Some c -> id c = k) ->
                forall k, characters r !! k =
                          match m !! k with
                          | Some _ => clearAnimations <$> characters cm !! k
                          | None => characters cm !! k
                          end)).
    - intros _ k. now rewrite lookup_empty.
    - intros i c m r Hnone IH Hkeyed k.
      assert (Hid : id c = i) by (apply Hkeyed; apply lookup_insert_eq).
      assert (IH' : forall k, characters r !! k =
                      match m !! k with
                      | Some _ => clearAnimations <$> characters cm !! k
                      | None => characters cm !! k
                      end).
      { apply IH. intros k' c' Hk'. apply Hkeyed.
        rewrite lookup_insert_ne; [exact Hk'|]. intros ->. congruence. }
      simpl. rewrite Hid, lookup_alter.
      destruct (decide (i = k)) as [->|Hne].
      + rewrite lookup_insert_eq, IH', Hnone. reflexivity.
      + rewrite lookup_insert_ne by assumption. apply IH'. }
  intros k. rewrite (H Hk k). now destruct (characters cm !! k).
Qed.

Lemma updateCharacters_keyed (s : Scene.SceneState) (cm : CharacterManager.t) :
  keyed cm -> keyed (updateCharacters s cm).
Proof.
  unfold updateCharacters. generalize (Scene.characters s). intros es.
  revert cm. induction es as [|e es IH]; intros cm Hk; simpl; [exact Hk|].
  apply IH. now apply updateCharacter_keyed.
Qed.

(** Characters are stored under their own id, and [updateCharacters] keeps
    it so; then [clearCharactersAnimations] (entering history mode) reaches
    every character: afterwards nobody has a tween or a thinking sprite,
    and state, sprite and colour of everybody are as before. *)
Theorem clearCharactersAnimations_clears_all (s : Scene.SceneState)
    (cm : CharacterManager.t) :
  keyed cm ->
  keyed (updateCharacters s cm) /\
  keyed (clearCharactersAnimations cm) /\
  forall k c,
    getCharacter k (clearCharactersAnimations cm) = Some c ->
    activeTween c = None /\ thinkingSprite c = None /\
    exists c0, getCharacter k cm = Some c0 /\
               state c = state c0 /\ sprite c = sprite c0 /\ color c = color c0.
Proof.
  intros Hk. split; [|split].
  - now apply updateCharacters_keyed.
  - intros k c. rewrite (clearCharactersAnimations_lookup cm Hk).
    destruct (characters cm !! k) as [c0|] eqn:E; simpl; [|discriminate].
    intros [= <-]. simpl. now apply Hk.
  - intros k c. unfold getCharacter. rewrite (clearCharactersAnimations_lookup cm Hk).
    destruct (characters cm !! k) as [c0|] eqn:E; simpl; [|discriminate].
    intros [= <-]. simpl. split; [reflexivity|]. split; [reflexivity|].
    exists c0. auto.
Qed.

Lemma initial_keyed : keyed initial.
Proof. intros k c H. unfold initial in H. simpl in H. rewrite lookup_empty in H. discriminate H. Qed.

Lemma clearCharactersAnimations_clears_all_witness :
  keyed (updateCharacters Samples.snapshotB initial) /\
  keyed (clearCharactersAnimations (updateCharacters Samples.snapshotB initial)).
Proof.
  pose proof (proj1 (clearCharactersAnimations_clears_all Samples.snapshotB initial
                       initial_keyed)) as Hk.
  split; [exact Hk|].
  exact (proj1 (proj2 (clearCharactersAnimations_clears_all Samples.snapshotB _ Hk))).
Defined.

(** ** The same snapshot twice *)

(** A snapshot pushed a second time in live mode (distinct keys) gives the
    same bubbles, the same completion, the same history log and cursor as
    the first push, and every character of the snapshot keeps state, sprite,
    colour and thinking sprite; its bounce tween is the one of the first
    push, stopped: a repeated snapshot stops the bounce. *)
Theorem updateState_twice (w : World) (s : Scene.SceneState) :
  isInHistoryMode w = false ->
  Scene.wf s ->
  let first := StateManager.updateState s w in
  let second := StateManager.updateState s first.1 in
  second.2 = first.2 /\
  speechBubbleManager second.1 = speechBubbleManager first.1 /\
  historyManager second.1 = historyManager first.1 /\
  currentState second.1 = currentState first.1 /\
  forall key value,
    (key, value) ∈ Scene.characters s ->
    exists c1 c2,
      getCharacter key (characterManager first.1) = Some c1 /\
      getCharacter key (characterManager second.1) = Some c2 /\
      state c2 = state c1 /\ sprite c2 = sprite c1 /\ color c2 = color c1 /\
      thinkingSprite c2 = thinkingSprite c1 /\
      activeTween c2 = stop <$> activeTween c1.
Proof.
  intros Hlive Hwf. cbv zeta.
  rewrite (Playback.updateState_live s w Hlive). cbn [fst snd].
  set (cm1 := updateCharacters s (characterManager w)).
  set (r1 := SpeechBubbleManager.updateBubbles cm1 s (speechBubbleManager w)).
  match goal with |- context [StateManager.updateState s ?w1] =>
    rewrite (Playback.updateState_live s w1 eq_refl) end.
  cbn [fst snd characterManager speechBubbleManager historyManager currentState].
  fold cm1.
  set (cm2 := updateCharacters s cm1).
  assert (Ha1 : assets cm1 = assets (characterManager w))
    by apply ModeToggle.foldl_updateCharacter_assets.
  assert (Hchar : forall key value, (key, value) ∈ Scene.characters s ->
            exists c1 c2,
              characters cm1 !! key = Some c1 /\ characters cm2 !! key = Some c2 /\
              id c2 = id c1 /\
              state c2 = state c1 /\ sprite c2 = sprite c1 /\ color c2 = color c1 /\
              thinkingSprite c2 = thinkingSprite c1 /\
              activeTween c2 = stop <$> activeTween c1).
  { intros key value Hin. unfold cm2, updateCharacters.
    rewrite (foldl_updateCharacter_unique _ cm1 key value Hwf Hin), Ha1.
    unfold cm1, updateCharacters.
    rewrite (foldl_updateCharacter_unique _ (characterManager w) key value Hwf Hin).
    eexists. eexists. split; [reflexivity|]. split; [reflexivity|].
    set (a := assets (characterManager w)).
    generalize (characters (characterManager w) !! key). intros o.
    destruct (updatedCharacter_state a key value o) as (H1 & H2 & H3).
    destruct (updatedCharacter_state a key value (Some (updatedCharacter a key value o)))
      as (H1' & H2' & H3').
    split; [exact H3'|]. split; [congruence|]. split.
    { rewrite (updatedCharacter_sprite a key value (Some _)), updatedCharacter_sprite.
      apply rendered_idempotent. }
    split; [congruence|]. split.
    - rewrite (updatedCharacter_thinkingSprite a key value (Some _)).
      rewrite (updatedCharacter_thinkingSprite a key value o). simpl.
      rewrite (updatedCharacter_thinkingSprite a key value o).
      destruct (Scene.startsWithThinking (Scene.action value)); reflexivity.
    - rewrite (updatedCharacter_tween a key value (Some _)), H1.
      rewrite (bool_decide_true (Scene.action value = Scene.action value)) by reflexivity.
      rewrite (updatedCharacter_tween a key value o).
      destruct (bool_decide (Scene.action value = Scene.idle)); reflexivity. }
  assert (Hsim : forall k, ModeToggle.simAt cm1 cm2 k).
  { intros k. unfold ModeToggle.simAt, ModeToggle.simOpt.
    destruct (decide (k ∈ (Scene.characters s).*1)) as [Hin|Hnot].
    - apply list_elem_of_fmap in Hin. destruct Hin as ([k' v] & -> & Hin). simpl.
      destruct (Hchar k' v Hin) as (c1 & c2 & E1 & E2 & Hid & Hs & Hsp & Hcol & _).
      rewrite E1, E2. repeat split; congruence.
    - unfold cm2, updateCharacters.
      rewrite (foldl_updateCharacter_other _ cm1 k Hnot).
      destruct (characters cm1 !! k); [apply ModeToggle.sim_refl | exact I]. }
  assert (Hb : SpeechBubbleManager.updateBubbles cm2 s r1.1 = r1).
  { unfold r1. symmetry. apply ModeToggle.updateBubbles_sim, Hsim. }
  rewrite Hb. split; [reflexivity|]. split; [reflexivity|]. split.
  - destruct r1.2; [|reflexivity].
    unfold HistoryManager.onSceneStateUpdate.
    destruct (HistoryManager.historyMode (historyManager w)) eqn:E; simpl; rewrite ?E;
      reflexivity.
  - split; [reflexivity|]. intros key value Hin.
    destruct (Hchar key value Hin) as (c1 & c2 & E1 & E2 & _ & Hrest).
    exists c1, c2. auto.
Qed.

Lemma updateState_twice_witness :
  let first := StateManager.updateState Samples.snapshotB ModeToggle.liveAfterB in
  speechBubbleManager
    (StateManager.updateState Samples.snapshotB first.1).1 = speechBubbleManager first.1.
Proof.
  assert (H : isInHistoryMode ModeToggle.liveAfterB = false) by (vm_compute; reflexivity).
  destruct (updateState_twice ModeToggle.liveAfterB Samples.snapshotB H
              SpeechEffects.snapshotB_wf) as (_ & Hb & _).
  exact Hb.
Defined.

End Rendering.

(** * C6: the mode toggle and the rendering *)

Module RoundTrip.

Import CharacterManager.

(** ** Frames *)

(** Two character objects that differ at most in how high the sprite
    stands. *)
Definition moved (c c' : Character) : Prop :=
  id c' = id c /\ state c' = state c /\ color c' = color c /\
  activeTween c' = activeTween c /\ thinkingSprite c' = thinkingSprite c /\
  exists py, sprite c' = setY py (sprite c).


Lemma setY_same (sp : Sprite) : setY (y sp) sp = sp.
Proof. destruct sp. reflexivity. Qed.

Lemma moved_refl (c : Character) : moved c c.
Proof. repeat split. exists (y (sprite c)). now rewrite setY_same. Qed.


Lemma tweenUpdate_moved (d : Qc) (c : Character) : moved c (tweenUpdate d c).
Proof.
  unfold tweenUpdate. destruct (activeTween c) as [tw|] eqn:E; [|apply moved_refl].
  destruct (running tw); [|apply moved_refl].
  repeat split; simpl; try congruence. eexists. reflexivity.
Qed.



(** ** The bubbles read the characters of the snapshot only *)




(** ** The round trip *)





End RoundTrip.

(** * Further properties of the speech bubbles *)

Module Bubbles.

Import SpeechBubbleManager.

Lemma bubbleFor_other cm s (key : string) (value : Scene.CharacterState) (sbm : t)
    (k : string) :
  k <> key ->
  activeBubbles (bubbleFor cm s (key, value) sbm).1 !! k = activeBubbles sbm !! k.
Proof.
  intros Hne. unfold bubbleFor.
  destruct (bool_decide _); [|reflexivity].
  destruct (CharacterManager.getCharacter key cm); [|reflexivity].
  destruct (Scene.latestMessageOf key s) as [m|]; [|reflexivity].
  destruct (Scene.content m) as [txt|]; [|reflexivity].
  destruct (Scene.truthy (Some txt)); [|reflexivity].
  unfold createSpeechBubble. simpl. apply lookup_insert_ne. congruence.
Qed.

Lemma forEntries_other cm s (es : list (string * Scene.CharacterState)) (sbm : t)
    (k : string) :
  k ∉ es.*1 ->
  activeBubbles (forEntries cm s es sbm).1 !! k = activeBubbles sbm !! k.
Proof.
  revert sbm. induction es as [|[key value] es IH]; intros sbm Hnot; [reflexivity|].
  simpl in Hnot. apply not_elem_of_cons in Hnot. destruct Hnot as [Hne Hnot].
  simpl. unfold andThen.
  pose proof (bubbleFor_other cm s key value sbm k Hne) as H1.
  destruct (bubbleFor cm s (key, value) sbm) as [sbm1 [|e]]; simpl in *.
  - now rewrite (IH sbm1 Hnot).
  - exact H1.
Qed.

(** The bubble made for a speaking character. *)
Definition bubbleOf (ch : CharacterManager.Character) (value : Scene.CharacterState)
    (m : Scene.Message) (txt : string) : SpeechBubble :=
  {| text := txt;
     nameText := Scene.name value;
     nameColor := characterColor (Some ch);
     moodText := Scene.mood_emoji m;
     progressBar := if 0 <? Scene.calculated_speaking_time m
                    then Some (Scene.calculated_speaking_time m) else None;
     anchorX := CharacterManager.x (CharacterManager.sprite ch);
     anchorY := CharacterManager.y (CharacterManager.sprite ch) |}.

Lemma progressFor_positive (d : Z) :
  progressFor (Some d) = if 0 <? d then Some d else None.
Proof.
  unfold progressFor. destruct (d =? 0) eqn:E; [|reflexivity].
  apply Z.eqb_eq in E. subst d. reflexivity.
Qed.

Lemma forEntries_complete cm s (es : list (string * Scene.CharacterState)) (sbm : t)
    (key : string) (value : Scene.CharacterState)
    (ch : CharacterManager.Character) (m : Scene.Message) (txt : string) :
  NoDup es.*1 ->
  (forEntries cm s es sbm).2 = Normal ->
  (key, value) ∈ es ->
  Scene.action value = Scene.speaking ->
  CharacterManager.getCharacter key cm = Some ch ->
  Scene.latestMessageOf key s = Some m ->
  Scene.content m = Some txt -> txt <> "" ->
  activeBubbles (forEntries cm s es sbm).1 !! key = Some (bubbleOf ch value m txt).
Proof.
  intros Hnd Hnormal Hin Hact Hch Hm Hc Hne. revert sbm Hnormal.
  induction es as [|[k v] es IH]; intros sbm Hnormal; [inversion Hin|].
  simpl in Hnd. apply NoDup_cons in Hnd. destruct Hnd as [Hnotin Hnd].
  simpl in *. unfold andThen in *.
  apply elem_of_cons in Hin. destruct Hin as [Heq | Hin].
  - injection Heq as <- <-.
    assert (Hb : bubbleFor cm s (key, value) sbm =
                   ({| activeBubbles :=
                         <[key := bubbleOf ch value m txt]> (activeBubbles sbm) |}, Normal)).
    { unfold bubbleFor. rewrite Hact, Hch, Hm, Hc. simpl.
      apply String.eqb_neq in Hne. rewrite Hne. simpl.
      unfold createSpeechBubble, bubbleOf. rewrite Hch, progressFor_positive. reflexivity. }
    rewrite Hb. rewrite (forEntries_other cm s es _ key Hnotin). simpl.
    apply lookup_insert_eq.
  - destruct (bubbleFor cm s (k, v) sbm) as [sbm1 [|e]]; [|discriminate Hnormal].
    now apply IH.
Qed.

(** Every speaking character with something to say gets its bubble.  When
    [updateBubbles] completes normally on a snapshot with distinct keys,
    each character that is marked as speaking, is known to the
    CharacterManager and whose latest message has a non-empty content has a
    bubble under its id: that content, its name and colour, the mood glyph
    of the message, anchored at its sprite, with a progress bar of the
    speaking time exactly when that time is positive. *)
Theorem updateBubbles_complete (cm : CharacterManager.t) (s : Scene.SceneState)
    (sbm : t) (key : string) (value : Scene.CharacterState)
    (ch : CharacterManager.Character) (m : Scene.Message) (txt : string) :
  Scene.wf s ->
  (updateBubbles cm s sbm).2 = Normal ->
  (key, value) ∈ Scene.characters s ->
  Scene.action value = Scene.speaking ->
  CharacterManager.getCharacter key cm = Some ch ->
  Scene.latestMessageOf key s = Some m ->
  Scene.content m = Some txt ->
  txt <> "" ->
  activeBubbles (updateBubbles cm s sbm).1 !! key = Some (bubbleOf ch value m txt).
Proof.
  intros Hwf Hn Hin Hact Hch Hm Hc Hne. unfold updateBubbles, andThen, pureStep in *.
  simpl in *. now apply forEntries_complete.
Qed.

Lemma updateBubbles_complete_witness :
  (text <$>
     activeBubbles
       (updateBubbles (CharacterManager.updateCharacters Samples.snapshotB
                         CharacterManager.initial)
          Samples.snapshotB initial).1 !! "bob") = Some "hello".
Proof.
  assert (Hch : is_Some (CharacterManager.getCharacter "bob"
                           (CharacterManager.updateCharacters Samples.snapshotB
                              CharacterManager.initial))).
  { apply (SpeechEffects.updateCharacters_registers Samples.snapshotB _ "bob"
             (Samples.character "bob" "Bob" 200 Scene.speaking)). left. }
  destruct Hch as [ch Hch].
  rewrite (updateBubbles_complete _ Samples.snapshotB initial "bob"
             (Samples.character "bob" "Bob" 200 Scene.speaking) ch
             (Samples.says "bob" (Some "hello") 4) "hello").
  - reflexivity.
  - exact SpeechEffects.snapshotB_wf.
  - vm_compute. reflexivity.
  - left.
  - reflexivity.
  - exact Hch.
  - vm_compute. reflexivity.
  - reflexivity.
  - discriminate.
Defined.

End Bubbles.

(** * A bubble stays with its speaker *)

Module Anchoring.

Import CharacterManager.

(** The bubble [b] was placed at the sprite of [c]: it has the [x] of the
    sprite; when [c] bounces it has the height at which the bounce began,
    and the sprite is above it by the height of the bounce at most;
    otherwise it has the height of the sprite. *)
Definition placed (b : SpeechBubbleManager.SpeechBubble) (c : Character) : Prop :=
  SpeechBubbleManager.anchorX b = x (sprite c) /\
  match activeTween c with
  | Some tw =>
      if running tw then
        fromY tw = SpeechBubbleManager.anchorY b /\
        (SpeechBubbleManager.anchorY b - BOUNCE_HEIGHT <= y (sprite c))%Qc /\
        (y (sprite c) <= SpeechBubbleManager.anchorY b)%Qc
      else SpeechBubbleManager.anchorY b = y (sprite c)
  | None => SpeechBubbleManager.anchorY b = y (sprite c)
  end.

(** No tween of [c] runs. *)
Definition atRest (c : Character) : Prop :=
  match activeTween c with
  | Some tw => running tw = false
  | None => True
  end.

(** Every bubble of [sbm] was placed at the sprite of its character. *)
Definition placedOn (cm : CharacterManager.t) (sbm : SpeechBubbleManager.t) : Prop :=
  forall k b,
    SpeechBubbleManager.activeBubbles sbm !! k = Some b ->
    exists c, characters cm !! k = Some c /\ placed b c.

(** What holds of the scene between two inputs. *)
Definition settled (w : World) : Prop :=
  Rendering.keyed (characterManager w) /\
  (forall S, currentState w = Some S -> Scene.wf S) /\
  (currentState w = None ->
   SpeechBubbleManager.activeBubbles (speechBubbleManager w) = ∅) /\
  (isInHistoryMode w = true ->
   forall k c, characters (characterManager w) !! k = Some c -> atRest c) /\
  placedOn (characterManager w) (speechBubbleManager w).

(** Snapshots are objects (each key once) and a frame finds every bounce
    between its two ends. *)
Definition admissible (i : LastWriteWins.Input) : Prop :=
  match i with
  | LastWriteWins.SnapshotPushed s => Scene.wf s
  | LastWriteWins.FramePassed d =>
      forall k, (0 <= d k)%Qc /\ (d k <= BOUNCE_HEIGHT)%Qc
  | _ => True
  end.

Lemma bounce_frame (q d : Qc) :
  (0 <= d)%Qc -> (d <= BOUNCE_HEIGHT)%Qc ->
  (q - BOUNCE_HEIGHT <= q - d)%Qc /\ (q - d <= q)%Qc.
Proof.
  intros H0 H8. unfold Qcminus. split.
  - apply Qcplus_le_compat; [apply Qcle_refl | now apply Qcopp_le_compat].
  - replace q with (q + - 0)%Qc at 2 by ring.
    apply Qcplus_le_compat; [apply Qcle_refl | now apply Qcopp_le_compat].
Qed.

Lemma bounce_start (q : Qc) : (q - BOUNCE_HEIGHT <= q)%Qc /\ (q <= q)%Qc.
Proof.
  split; [|apply Qcle_refl].
  destruct (bounce_frame q BOUNCE_HEIGHT) as (_ & H); [discriminate | apply Qcle_refl|].
  exact H.
Qed.

(** The render pass of live mode places every bubble. *)
Lemma render_placed (cm : CharacterManager.t) (S : Scene.SceneState)
    (sbm : SpeechBubbleManager.t) :
  Scene.wf S ->
  placedOn (updateCharacters S cm)
    (SpeechBubbleManager.updateBubbles (updateCharacters S cm) S sbm).1.
Proof.
  intros Hwf k b H. apply SpeechEffects.updateBubbles_lookup in H.
  destruct H as (value & Hin & Hact & ch & m & txt & Hch & _ & _ & _ & ->).
  exists ch. split; [exact Hch|].
  unfold getCharacter, updateCharacters in Hch.
  rewrite (Rendering.foldl_updateCharacter_unique _ cm k value Hwf Hin) in Hch.
  injection Hch as <-. unfold placed. simpl.
  split; [reflexivity|].
  rewrite Rendering.updatedCharacter_tween, Rendering.updatedCharacter_sprite.
  unfold Rendering.rendered, Rendering.restY. simpl.
  rewrite bool_decide_false by (rewrite Hact; discriminate).
  destruct (characters cm !! k) as [old|]; [|reflexivity].
  case_bool_decide.
  - destruct (activeTween old); reflexivity.
  - simpl. split; [reflexivity|]. apply bounce_start.
Qed.

(** A historical bubble is placed when its character is at rest. *)
Lemma showHistoricalBubble_placed (cm : CharacterManager.t)
    (msg : option Scene.Message) (sbm : SpeechBubbleManager.t) :
  (forall k c, characters cm !! k = Some c -> atRest c) ->
  placedOn cm (SpeechBubbleManager.showHistoricalBubble cm msg sbm).1.
Proof.
  intros Hrest k b. unfold SpeechBubbleManager.showHistoricalBubble.
  destruct msg as [m|]; simpl; [|rewrite lookup_empty; discriminate].
  destruct (getCharacter (Scene.character m) cm) as [ch|] eqn:E; simpl;
    [|rewrite lookup_empty; discriminate].
  destruct (decide (k = Scene.character m)) as [->|Hne].
  - rewrite lookup_insert_eq. intros [= <-]. exists ch. split; [exact E|].
    unfold placed. simpl. split; [reflexivity|].
    specialize (Hrest _ _ E). unfold atRest in Hrest.
    destruct (activeTween ch) as [tw|]; [|reflexivity]. now rewrite Hrest.
  - rewrite lookup_insert_ne by congruence. rewrite lookup_empty. discriminate.
Qed.

Lemma cleared_atRest (cm : CharacterManager.t) :
  Rendering.keyed cm ->
  forall k c, characters (clearCharactersAnimations cm) !! k = Some c -> atRest c.
Proof.
  intros Hk k c. rewrite (Rendering.clearCharactersAnimations_lookup cm Hk).
  destruct (characters cm !! k); simpl; [|discriminate].
  intros [= <-]. exact I.
Qed.

Lemma cleared_keyed (cm : CharacterManager.t) :
  Rendering.keyed cm -> Rendering.keyed (clearCharactersAnimations cm).
Proof.
  intros Hk k c. rewrite (Rendering.clearCharactersAnimations_lookup cm Hk).
  destruct (characters cm !! k) as [c0|] eqn:E; simpl; [|discriminate].
  intros [= <-]. simpl. now apply Hk.
Qed.

Lemma empty_placedOn (cm : CharacterManager.t) (sbm : SpeechBubbleManager.t) :
  SpeechBubbleManager.activeBubbles sbm = ∅ -> placedOn cm sbm.
Proof. intros H k b Hb. rewrite H, lookup_empty in Hb. discriminate Hb. Qed.

Lemma navigateHistory_settled (index : Z) (w : World) :
  settled w -> settled (StateManager.navigateHistory index w).1.
Proof.
  intros Hs. unfold StateManager.navigateHistory.
  destruct (currentState w) as [S|] eqn:ES; [|exact Hs].
  destruct (isInHistoryMode w) eqn:EH; [|exact Hs].
  destruct (StateManager.at_index _ _) as [m|]; [|exact Hs].
  destruct Hs as (Hk & Hwf & Hnone & Hrest & Hp).
  unfold StateManager.showHistoricalBubble, withBubbles. cbn [fst].
  split; [exact Hk|]. split; [exact Hwf|]. split; [simpl; congruence|].
  split; [exact Hrest|].
  apply showHistoricalBubble_placed. now apply Hrest.
Qed.

Lemma tweensUpdate_settled (d : string -> Qc) (w : World) :
  (forall k, (0 <= d k)%Qc /\ (d k <= BOUNCE_HEIGHT)%Qc) ->
  settled w -> settled (withCharacters (tweensUpdate d) w).
Proof.
  intros Hd (Hk & Hwf & Hnone & Hrest & Hp).
  split; [|split; [exact Hwf|split; [exact Hnone|split]]].
  - intros k c'. simpl. rewrite lookup_fmap.
    destruct (characters (characterManager w) !! k) as [c|] eqn:E; simpl; [|discriminate].
    intros [= <-]. destruct (RoundTrip.tweenUpdate_moved (d (id c)) c) as (Hid & _).
    rewrite Hid. now apply Hk.
  - intros Hh k c'. simpl. rewrite lookup_fmap.
    destruct (characters (characterManager w) !! k) as [c|] eqn:E; simpl; [|discriminate].
    intros [= <-]. specialize (Hrest Hh k c E). unfold atRest in *.
    unfold tweenUpdate. destruct (activeTween c) as [tw|] eqn:Et; [|now rewrite Et].
    rewrite Hrest. now rewrite Et.
  - intros k b Hb. destruct (Hp k b Hb) as (c & Hc & Hx & Hy).
    exists (tweenUpdate (d (id c)) c). split.
    { simpl. rewrite lookup_fmap, Hc. reflexivity. }
    unfold placed, tweenUpdate in *.
    destruct (activeTween c) as [tw|] eqn:Et; [|rewrite ?Et; auto].
    destruct (running tw) eqn:Er; [|rewrite ?Et, ?Er; auto].
    simpl. rewrite ?Et, ?Er. destruct Hy as (Hfrom & _). rewrite Hfrom.
    split; [exact Hx|]. split; [reflexivity|].
    apply bounce_frame; apply Hd.
Qed.

Lemma step_settled (i : LastWriteWins.Input) (w : World) :
  admissible i -> settled w -> settled (LastWriteWins.step i w).1.
Proof.
  intros Hi Hs. destruct i as [s| | |d c|d]; simpl.
  - unfold GameEvents.handleSceneStateUpdate. destruct (isInHistoryMode w) eqn:E.
    + rewrite (Playback.updateState_in_history s w E).
      destruct Hs as (Hk & Hwf & Hnone & Hrest & Hp).
      split; [exact Hk|]. split; [intros S [= <-]; exact Hi|].
      split; [discriminate|]. split; [exact Hrest | exact Hp].
    + rewrite (Playback.updateState_live s w E). cbn [fst].
      destruct Hs as (Hk & Hwf & Hnone & Hrest & Hp).
      split; [now apply Rendering.updateCharacters_keyed|].
      split; [intros S [= <-]; exact Hi|].
      split; [discriminate|]. split; [discriminate|].
      now apply render_placed.
  - destruct Hs as (Hk & Hwf & Hnone & Hrest & Hp).
    destruct (currentState w) as [S|] eqn:ES.
    + rewrite (Playback.enterHistoryMode_with_state w S ES). cbn [fst].
      split; [now apply cleared_keyed|]. split; [intros S' [= <-]; now apply Hwf|].
      split; [discriminate|]. split; [intros _; now apply cleared_atRest|].
      apply showHistoricalBubble_placed. now apply cleared_atRest.
    + rewrite (Playback.enterHistoryMode_without_state w ES). cbn [fst].
      split; [now apply cleared_keyed|]. split; [discriminate|].
      split; [intros _; now apply Hnone|]. split; [intros _; now apply cleared_atRest|].
      apply empty_placedOn. now apply Hnone.
  - destruct Hs as (Hk & Hwf & Hnone & Hrest & Hp).
    destruct (currentState w) as [S|] eqn:ES.
    + rewrite (Playback.exitHistoryMode_with_state w S ES). cbn [fst].
      split; [now apply Rendering.updateCharacters_keyed|].
      split; [intros S' [= <-]; now apply Hwf|].
      split; [discriminate|]. split; [discriminate|].
      apply render_placed. now apply Hwf.
    + rewrite (Playback.exitHistoryMode_without_state w ES). cbn [fst].
      split; [exact Hk|]. split; [discriminate|].
      split; [intros _; now apply Hnone|]. split; [discriminate | exact Hp].
  - unfold GameEvents.historyNavigateTo, GameEvents.runHistory,
      HistoryManager.handleHistoryNavigateTo, HistoryManager.navigateHistory.
    destruct ((0 <=? _) && (_ <? _)).
    + cbn [fst snd GameEvents.emitAll GameEvents.emit]. unfold andThen.
      unfold GameEvents.historyNavigate.
      match goal with
      | |- context [StateManager.navigateHistory ?i ?w'] =>
          pose proof (navigateHistory_settled i w' Hs) as Hn;
          destruct (StateManager.navigateHistory i w') as [w1 [|e]]; exact Hn
      end.
    + cbn [fst snd]. destruct c as [bs|]; [destruct (bs !! _)|]; exact Hs.
  - now apply tweensUpdate_settled.
Qed.

(** A bubble stays with its speaker.  Let the snapshots pushed be objects
    (each key once) and the frames find every bounce between its two ends.
    From the initial scene on, after every sequence of snapshots, mode
    toggles, navigation steps and frames, each bubble belongs to a
    character that the CharacterManager knows; it has the [x] of that
    character's sprite, and the sprite is at the height of the bubble's
    anchor or above it by the height of the bounce at most (bubbles are
    placed once and do not follow the bounce). *)
Theorem bubbles_stay_near_speaker (inputs : list LastWriteWins.Input) (w : World) :
  settled w ->
  Forall admissible inputs ->
  settled (LastWriteWins.run inputs w) /\
  forall k b,
    SpeechBubbleManager.activeBubbles
      (speechBubbleManager (LastWriteWins.run inputs w)) !! k = Some b ->
    exists c,
      getCharacter k (characterManager (LastWriteWins.run inputs w)) = Some c /\
      SpeechBubbleManager.anchorX b = x (sprite c) /\
      (SpeechBubbleManager.anchorY b - BOUNCE_HEIGHT <= y (sprite c))%Qc /\
      (y (sprite c) <= SpeechBubbleManager.anchorY b)%Qc.
Proof.
  intros Hs Hall.
  assert (H : settled (LastWriteWins.run inputs w)).
  { unfold LastWriteWins.run. revert w Hs.
    induction Hall as [|i inputs Hi _ IH]; intros w Hs; simpl; [exact Hs|].
    apply IH. now apply step_settled. }
  split; [exact H|]. intros k b Hb.
  destruct H as (_ & _ & _ & _ & Hp). destruct (Hp k b Hb) as (c & Hc & Hx & Hy).
  exists c. split; [exact Hc|]. split; [exact Hx|].
  destruct (activeTween c) as [tw|]; [destruct (running tw)|].
  - destruct Hy as (_ & H1 & H2). auto.
  - rewrite Hy. apply bounce_start.
  - rewrite Hy. apply bounce_start.
Qed.

Lemma initial_settled : settled StateManager.initial.
Proof.
  split; [exact Rendering.initial_keyed|]. split; [discriminate|].
  split; [reflexivity|]. split; [discriminate|].
  now apply empty_placedOn.
Qed.

(** Snapshots A and B are pushed, bob is half way up his bounce, and the
    history is entered. *)
Definition bubbleRun : list LastWriteWins.Input :=
  [LastWriteWins.SnapshotPushed Samples.snapshotA;
   LastWriteWins.SnapshotPushed Samples.snapshotB;
   LastWriteWins.FramePassed (fun _ => pixels 4);
   LastWriteWins.EnterHistory;
   LastWriteWins.NavigateTo (-1) None;
   LastWriteWins.ExitHistory].

Lemma snapshotA_wf : Scene.wf Samples.snapshotA.
Proof.
  unfold Scene.wf. simpl. apply NoDup_cons. split; [|apply NoDup_singleton].
  intros H. apply list_elem_of_singleton in H. discriminate H.
Qed.

Lemma bubbleRun_admissible : Forall admissible bubbleRun.
Proof.
  constructor; [exact snapshotA_wf|].
  constructor; [exact SpeechEffects.snapshotB_wf|].
  constructor; [intros k; split; discriminate|].
  repeat (constructor; [exact I|]). constructor.
Qed.

Lemma bubbles_stay_near_speaker_witness :
  settled (LastWriteWins.run bubbleRun StateManager.initial).
Proof.
  exact (proj1 (bubbles_stay_near_speaker bubbleRun StateManager.initial
                  initial_settled bubbleRun_admissible)).
Defined.

(** The bubble does not follow the bounce: after snapshot B and the frame,
    bob's sprite is four pixels above the anchor of his bubble. *)
Example bubble_below_bouncing_speaker :
  let w := LastWriteWins.run (take 3 bubbleRun) StateManager.initial in
  (SpeechBubbleManager.anchorY <$>
     SpeechBubbleManager.activeBubbles (speechBubbleManager w) !! "bob")
    = Some (pixels 300) /\
  (y ∘ sprite <$> getCharacter "bob" (characterManager w)) = Some (pixels 296).
Proof. cbv zeta. split; vm_compute; reflexivity. Qed.

End Anchoring.

(** * UIScene: the keyboard (UIScene.ts)

    The scene is modelled with its keyboard plugin present
    ([this.input.keyboard] defined).  An event emitter keeps every
    registration: [on] called twice with handlers of one shape leaves two
    of them, run in the order of registration, and a handler that throws
    ends the emit.  The keyboard plugin hands out no key event while its
    [enabled] flag is false. *)

Module UIScene.

Record t := {
  isInteractionEnabled : bool;
  keyboardEnabled : bool;          (* this.input.keyboard.enabled *)
  keyboardControls : bool;         (* this.keyboardControls !== null *)
  keydownH : nat;                  (* handlers of 'keydown-H' *)
  updateListeners : nat            (* registrations of handleKeyboardInput *)
}.

(** The field initialisers. *)
Definition initial : t :=
  {| isInteractionEnabled := true;
     keyboardEnabled := true;
     keyboardControls := false;
     keydownH := 0;
     updateListeners := 0 |}.

Definition setupKeyboardControls (u : t) : t :=
  {| isInteractionEnabled := isInteractionEnabled u;
     keyboardEnabled := keyboardEnabled u;
     keyboardControls := true;
     keydownH := S (keydownH u);
     updateListeners := S (updateListeners u) |}.

(** [create], as far as the keyboard goes; the two modal listeners it
    registers are [modalOpen] and [modalClose] below. *)
Definition create (u : t) : t := setupKeyboardControls u.

Definition modalOpen (u : t) : t :=
  {| isInteractionEnabled := false;
     keyboardEnabled := false;
     keyboardControls := keyboardControls u;
     keydownH := keydownH u;
     updateListeners := updateListeners u |}.

Definition modalClose (u : t) : t :=
  setupKeyboardControls
    {| isInteractionEnabled := true;
       keyboardEnabled := true;
       keyboardControls := keyboardControls u;
       keydownH := keydownH u;
       updateListeners := updateListeners u |}.

Definition handleShutdown (u : t) : t :=
  if keyboardControls u then
    {| isInteractionEnabled := isInteractionEnabled u;
       keyboardEnabled := keyboardEnabled u;
       keyboardControls := keyboardControls u;
       keydownH := 0;
       updateListeners := 0 |}
  else u.

(** The handler of 'keydown-H' that [setupKeyboardControls] registers. *)
Definition keydownHHandler (u : t) : Eff World :=
  fun w =>
    if negb (isInteractionEnabled u) then (w, Normal)
    else if HistoryManager.historyMode (historyManager w)
         then GameEvents.exitHistoryMode w
         else GameEvents.enterHistoryMode w.

(** [n] registrations of one handler, run in order. *)
Fixpoint handlers (n : nat) (h : Eff World) : Eff World :=
  match n with
  | O => fun w => (w, Normal)
  | S n' => (h >>> handlers n' h)%eff
  end.

(** The H key goes down. *)
Definition pressH (u : t) : Eff World :=
  if keyboardEnabled u then handlers (keydownH u) (keydownHHandler u)
  else fun w => (w, Normal).

(** One call of [handleKeyboardInput].  [formFocused] is the test on
    [document.activeElement]; [leftJustDown] and [rightJustDown] are what
    [JustDown] answers for the two arrow keys; [controls] as for
    [HistoryManager.handleHistoryNavigateTo]. *)
Definition handleKeyboardInput (formFocused leftJustDown rightJustDown : bool)
    (controls : option (list HistoryManager.Button)) (u : t) : Eff World :=
  fun w =>
    if negb (keyboardControls u) || negb (isInteractionEnabled u) then (w, Normal)
    else if formFocused then (w, Normal)
    else if negb (HistoryManager.historyMode (historyManager w)) then (w, Normal)
    else if leftJustDown then GameEvents.historyNavigateTo (-1) controls w
    else if rightJustDown then GameEvents.historyNavigateTo 1 controls w
    else (w, Normal).

(** The modal events the scene receives. *)
Inductive ModalEvent := ModalOpen | ModalClose.

#[global] Instance ModalEvent_eq_dec : EqDecision ModalEvent.
Proof. solve_decision. Defined.

Definition modal (e : ModalEvent) (u : t) : t :=
  match e with
  | ModalOpen => modalOpen u
  | ModalClose => modalClose u
  end.

Definition modals (es : list ModalEvent) (u : t) : t := foldl (fun u e => modal e u) u es.

Definition closes (es : list ModalEvent) : nat :=
  length (filter (fun e => e = ModalClose) es).

End UIScene.

Module Keyboard.

Import UIScene.

Lemma modals_app es1 es2 u : modals (es1 ++ es2) u = modals es2 (modals es1 u).
Proof. unfold modals. apply foldl_app. Qed.

Lemma modals_keydownH (es : list ModalEvent) (u : t) :
  keydownH (modals es u) = (keydownH u + closes es)%nat.
Proof.
  revert u. induction es as [|e es IH]; intros u.
  - simpl. unfold closes. simpl. lia.
  - change (modals (e :: es) u) with (modals es (modal e u)). rewrite IH.
    unfold closes. rewrite filter_cons. destruct e.
    + rewrite decide_False by discriminate. simpl. lia.
    + rewrite decide_True by reflexivity. simpl. lia.
Qed.

Lemma modals_enabled (es : list ModalEvent) (u : t) :
  keyboardEnabled u = isInteractionEnabled u ->
  keyboardEnabled (modals es u) = isInteractionEnabled (modals es u).
Proof.
  revert u. induction es as [|e es IH]; intros u Hu; [exact Hu|].
  change (modals (e :: es) u) with (modals es (modal e u)). apply IH.
  destruct e; reflexivity.
Qed.

(** One handler flips the flag of the HistoryManager, whether or not the
    listeners of 'historyModeChange' complete. *)
Lemma keydownHHandler_flips (u : t) (w : World) :
  isInteractionEnabled u = true ->
  HistoryManager.historyMode (historyManager (keydownHHandler u w).1) =
    negb (HistoryManager.historyMode (historyManager w)).
Proof.
  intros Hu. unfold keydownHHandler. rewrite Hu. simpl.
  destruct (HistoryManager.historyMode (historyManager w)) eqn:Hm;
    destruct (currentState w) as [S|] eqn:ES.
  - rewrite (Playback.exitHistoryMode_with_state w S ES). reflexivity.
  - rewrite (Playback.exitHistoryMode_without_state w ES). reflexivity.
  - rewrite (Playback.enterHistoryMode_with_state w S ES). reflexivity.
  - rewrite (Playback.enterHistoryMode_without_state w ES). reflexivity.
Qed.

Lemma handlers_flip (n : nat) (u : t) (w : World) :
  isInteractionEnabled u = true ->
  (handlers n (keydownHHandler u) w).2 = Normal ->
  HistoryManager.historyMode (historyManager (handlers n (keydownHHandler u) w).1) =
    xorb (HistoryManager.historyMode (historyManager w)) (Nat.odd n).
Proof.
  intros Hu. revert w. induction n as [|n IH]; intros w Hn.
  - simpl. now rewrite xorb_false_r.
  - change (handlers (S n) (keydownHHandler u) w)
      with ((keydownHHandler u >>> handlers n (keydownHHandler u))%eff w) in *.
    unfold andThen in *.
    pose proof (keydownHHandler_flips u w Hu) as Hf.
    destruct (keydownHHandler u w) as [w1 [|e]]; [|discriminate Hn].
    simpl in Hf. rewrite (IH w1 Hn), Hf, Nat.odd_succ, <- Nat.negb_odd.
    destruct (HistoryManager.historyMode (historyManager w)), (Nat.odd n); reflexivity.
Qed.

Lemma handlers_disabled (n : nat) (u : t) (w : World) :
  isInteractionEnabled u = false ->
  handlers n (keydownHHandler u) w = (w, Normal).
Proof.
  intros Hu. induction n as [|n IH]; [reflexivity|].
  simpl. unfold andThen. unfold keydownHHandler at 1. rewrite Hu. simpl. exact IH.
Qed.

(** Every closed modal adds an H handler.  After [create] and any sequence
    of modal events that leaves the scene interactive, one press of H
    that completes normally has flipped the history flag once for [create]
    and once more for every 'modalClose' received: the mode changes exactly
    when the number of 'modalClose' events is even, and after a single
    open-and-close the key leaves the mode where it was. *)
Theorem pressH_flips_once_per_setup (es : list ModalEvent) (w : World) :
  let u := modals es (create initial) in
  isInteractionEnabled u = true ->
  (pressH u w).2 = Normal ->
  HistoryManager.historyMode (historyManager (pressH u w).1) =
    xorb (HistoryManager.historyMode (historyManager w)) (Nat.even (closes es)).
Proof.
  intros u Hu Hn. unfold pressH in *.
  assert (He : keyboardEnabled u = true).
  { unfold u. rewrite modals_enabled; [exact Hu|reflexivity]. }
  rewrite He in *.
  rewrite (handlers_flip _ u w Hu Hn). f_equal.
  unfold u. rewrite modals_keydownH. simpl.
  rewrite Nat.odd_succ. reflexivity.
Qed.

Lemma pressH_flips_once_per_setup_witness :
  HistoryManager.historyMode
    (historyManager (pressH (modals [ModalOpen; ModalClose] (create initial))
                       ModeToggle.liveAfterB).1) = false.
Proof.
  rewrite (pressH_flips_once_per_setup [ModalOpen; ModalClose] ModeToggle.liveAfterB).
  - reflexivity.
  - reflexivity.
  - vm_compute. reflexivity.
Defined.

(** While a modal is open the keyboard is dead.  After 'modalOpen', and
    whatever was registered before, pressing H and a frame update with any
    arrow key down leave the scene objects untouched. *)
Theorem modalOpen_blocks_keyboard (u : t) (w : World)
    (formFocused leftJustDown rightJustDown : bool)
    (controls : option (list HistoryManager.Button)) :
  pressH (modalOpen u) w = (w, Normal) /\
  handlers (keydownH (modalOpen u)) (keydownHHandler (modalOpen u)) w = (w, Normal) /\
  handleKeyboardInput formFocused leftJustDown rightJustDown controls (modalOpen u) w =
    (w, Normal).
Proof.
  split; [reflexivity|]. split.
  - now apply handlers_disabled.
  - unfold handleKeyboardInput. simpl. now rewrite orb_true_r.
Qed.

End Keyboard.
